(** * plugin-helm: the manifest patcher, the package-path extractor and the
      repository publisher, embedded from the Go sources

    Go strings are byte sequences; they are modelled as [list ascii] (an
    [ascii] is one byte).  Go's [error] is modelled by its message
    ([option str], [None] standing for [nil]); [%w] and [%v] of an error both
    print that message.

    Embedded: helm.go ([extractPackagePath], [Package], [Lint], [Template],
    [DependencyUpdate], [DependencyBuild], [Test], [run]); [ParseChart],
    [UpdateChartVersion] and [ValidateChart] of chart.go; the repository
    file ([Push], [pushOCI], [pushChartMuseum], [pushHTTP], [registryLogin],
    [Logout]); [Execute], [executePrePublish], [executePostPublish] and
    [parseConfig] of the plugin file.  [Validate], [GetInfo] and
    [getHelmVersion] rest on the validation builder of the plugin SDK and
    are left out.  The functions of Go's [strings], [regexp] and [strconv]
    the embedded code calls are modelled first.
    Files, requests and subprocesses go through a state monad over a world
    that records every effect.  [defer]red closes, the context argument and
    the attributes of log lines are left out.

    The file has three parts: the embedding, the vocabulary of the
    properties, and the properties. *)

From Stdlib Require Import Ascii String ZArith Lia Bool Arith List.
From Stdlib Require Import Numbers.DecimalString.
Import ListNotations.

Local Open Scope list_scope.
Local Open Scope bool_scope.

(** ** Byte strings *)

Definition str := list ascii.

(** A literal: the bytes of a string constant of the source. *)
Definition lit (s : string) : str := list_ascii_of_string s.

Definition error := option str.

Definition NL : ascii := "010"%char.

(** The double quote. *)
Definition DQ : ascii := "034"%char.

Definition str_eqb (a b : str) : bool :=
  if list_eq_dec ascii_dec a b then true else false.

(** [len(s)] *)
Definition len (s : str) : Z := Z.of_nat (length s).

(** [len(l)] of a slice *)
Definition len_list {A : Type} (l : list A) : Z := Z.of_nat (length l).

(** [s[i:]] for an in-range [i] *)
Definition slice_from (s : str) (i : Z) : str := skipn (Z.to_nat i) s.

(** ** The part of Go's [strings] package the program uses *)

Module strings.

Fixpoint HasPrefix (s prefix : str) {struct prefix} : bool :=
  match prefix, s with
  | [], _ => true
  | _ :: _, [] => false
  | p :: prefix', c :: s' => Ascii.eqb c p && HasPrefix s' prefix'
  end.

Definition TrimPrefix (s prefix : str) : str :=
  if HasPrefix s prefix then skipn (length prefix) s else s.

(** [Index] returns the byte offset of the first occurrence, or -1. *)
Fixpoint Index_from (i : Z) (s substr : str) : Z :=
  if HasPrefix s substr then i
  else match s with
       | [] => (-1)%Z
       | _ :: s' => Index_from (i + 1) s' substr
       end.

Definition Index (s substr : str) : Z := Index_from 0 s substr.

Definition Contains (s substr : str) : bool := (0 <=? Index s substr)%Z.

(** Prepend a byte to the piece being accumulated. *)
Definition push_head (c : ascii) (pieces : list str) : list str :=
  match pieces with
  | p :: ps => (c :: p) :: ps
  | [] => [[c]]
  end.

(** [genSplit]: cut [s] at the occurrences of a non-empty [sep], scanning
    left to right, at most [n] times.  [skip] counts the bytes of a
    separator still to be dropped. *)
Fixpoint genSplit (sep : str) (n skip : nat) (s : str) : list str :=
  match s with
  | [] => [[]]
  | c :: s' =>
    match skip with
    | S k => genSplit sep n k s'
    | O =>
      match n with
      | O => [s]
      | S n' =>
        if HasPrefix s sep
        then [] :: genSplit sep n' (length sep - 1) s'
        else push_head c (genSplit sep n O s')
      end
    end
  end.

(** [Split(s, sep)] for a non-empty separator (the program only splits at
    ["\n"]). *)
Definition Split (s sep : str) : list str := genSplit sep (length s) 0 s.

(** [SplitN(s, sep, n)] for a non-empty separator: [n = 0] gives no piece,
    [n < 0] every piece, [n > 0] at most [n] pieces, the last one being
    the unsplit remainder. *)
Definition SplitN (s sep : str) (n : Z) : list str :=
  if (n =? 0)%Z then []
  else if (n <? 0)%Z then Split s sep
  else genSplit sep (Z.to_nat n - 1) 0 s.

Fixpoint Join (elems : list str) (sep : str) : str :=
  match elems with
  | [] => []
  | [e] => e
  | e :: rest => e ++ sep ++ Join rest sep
  end.

(** The six ASCII white-space bytes. *)
Definition asciiSpace (c : ascii) : bool :=
  match c with
  | "009" | "010" | "011" | "012" | "013" | " " => true
  | _ => false
  end%char.

(** The other runes of [unicode.IsSpace], by their UTF-8 encoding:
    U+0085 and U+00A0 take two bytes; U+1680, U+2000..U+200A, U+2028,
    U+2029, U+202F, U+205F and U+3000 take three. *)
Definition space2 (b1 b2 : ascii) : bool :=
  Ascii.eqb b1 "194" && (Ascii.eqb b2 "133" || Ascii.eqb b2 "160").

Definition space3 (b1 b2 b3 : ascii) : bool :=
  let n3 := nat_of_ascii b3 in
  (Ascii.eqb b1 "225" && Ascii.eqb b2 "154" && Ascii.eqb b3 "128")
  || (Ascii.eqb b1 "226" && Ascii.eqb b2 "128"
      && ((128 <=? n3) && (n3 <=? 138)
          || Ascii.eqb b3 "168" || Ascii.eqb b3 "169" || Ascii.eqb b3 "175"))
  || (Ascii.eqb b1 "226" && Ascii.eqb b2 "129" && Ascii.eqb b3 "159")
  || (Ascii.eqb b1 "227" && Ascii.eqb b2 "128" && Ascii.eqb b3 "128").

(** Drop white-space runes from the front.  With [fwd = false] the input
    is a reversed string and the encodings are read back to front. *)
Fixpoint trimFront (fwd : bool) (s : str) : str :=
  match s with
  | [] => []
  | c1 :: s1 =>
    if asciiSpace c1 then trimFront fwd s1
    else
      match s1 with
      | [] => s
      | c2 :: s2 =>
        if (if fwd then space2 c1 c2 else space2 c2 c1) then trimFront fwd s2
        else
          match s2 with
          | [] => s
          | c3 :: s3 =>
            if (if fwd then space3 c1 c2 c3 else space3 c3 c2 c1)
            then trimFront fwd s3
            else s
          end
      end
  end.

(** [TrimSpace]: leading and trailing white space (as [unicode.IsSpace]
    sees the UTF-8 text) removed. *)
Definition TrimSpace (s : str) : str :=
  rev (trimFront false (rev (trimFront true s))).

End strings.

(** ** helm.go *)

Definition marker : str := lit "saved it to:".

(** The [for _, line := range lines] loop of [extractPackagePath]; falling
    off its end is the error return of the function. *)
Fixpoint extractPackagePath_loop (output : str) (lines : list str)
  : str * error :=
  match lines with
  | [] =>
    ([], Some (lit "could not determine package path from output: " ++ output))
  | line :: rest =>
    if strings.Contains line marker then
      let idx := strings.Index line marker in
      if negb (idx =? -1)%Z
      then (strings.TrimSpace (slice_from line (idx + len marker)), None)
      else extractPackagePath_loop output rest
    else extractPackagePath_loop output rest
  end.

Definition extractPackagePath (output : str) : str * error :=
  let lines := strings.Split output (lit (String NL EmptyString)) in
  extractPackagePath_loop output lines.

(** ** The part of Go's [regexp] package the program uses

    Patterns are compiled to a sequence of instructions and matched by a
    backtracking search with greedy repetition, which is the leftmost-first
    match Go's package documents.  The subset covers what the two patterns
    of chart.go are made of: the [(?m)] flag, [^] and [$], literal bytes,
    the classes [\s] and [.], and [*] or [+] applied to a single byte or
    class.  All of them act on single ASCII bytes or on "any rune but
    newline", so matching bytes and matching decoded runes find the same
    spans. *)

Module regexp.

Inductive inst : Type :=
| BeginLine                       (* [^] under (?m) *)
| EndLine                         (* [$] under (?m) *)
| BeginText                       (* [^] without (?m) *)
| EndText                         (* [$] without (?m) *)
| Lit (c : ascii)
| Class (cls : ascii -> bool)
| Star (cls : ascii -> bool)      (* greedy [x*] *)
| Plus (cls : ascii -> bool).     (* greedy [x+] *)

Definition Regexp := list inst.

(** [\s] is [[\t\n\f\r ]]: it has the newline and lacks the vertical tab. *)
Definition perl_space (c : ascii) : bool :=
  match c with
  | "009" | "010" | "012" | "013" | " " => true
  | _ => false
  end%char.

(** [.] without the [s] flag: any character but newline. *)
Definition any_not_nl (c : ascii) : bool := negb (Ascii.eqb c NL).

Definition meta (c : ascii) : bool :=
  match c with
  | "\" | "." | "+" | "*" | "?" | "(" | ")" | "|" | "[" | "]" | "{" | "}"
  | "^" | "$" => true
  | _ => false
  end%char.

(** An atom followed by its repetition operator, if any. *)
Definition repeat_of (cls : ascii -> bool) (single : inst) (rest : str)
  : inst * str :=
  match rest with
  | "*"%char :: rest' => (Star cls, rest')
  | "+"%char :: rest' => (Plus cls, rest')
  | _ => (single, rest)
  end.

Fixpoint parse (fuel : nat) (multiline : bool) (p : str) : option Regexp :=
  match fuel with
  | O => None
  | S fuel' =>
    match p with
    | [] => Some []
    | "^"%char :: r =>
      option_map (cons (if multiline then BeginLine else BeginText))
                 (parse fuel' multiline r)
    | "$"%char :: r =>
      option_map (cons (if multiline then EndLine else EndText))
                 (parse fuel' multiline r)
    | "\"%char :: "s"%char :: r =>
      let (i, r') := repeat_of perl_space (Class perl_space) r in
      option_map (cons i) (parse fuel' multiline r')
    | "."%char :: r =>
      let (i, r') := repeat_of any_not_nl (Class any_not_nl) r in
      option_map (cons i) (parse fuel' multiline r')
    | c :: r =>
      if meta c then None
      else
        let (i, r') := repeat_of (Ascii.eqb c) (Lit c) r in
        option_map (cons i) (parse fuel' multiline r')
    end
  end.

Definition Compile (expr : str) : option Regexp :=
  if strings.HasPrefix expr (lit "(?m)")
  then parse (S (length expr)) true (skipn 4 expr)
  else parse (S (length expr)) false expr.

(** [MustCompile] panics on a pattern that does not parse; the patterns
    of the program are constants that do.  The panic is modelled by a
    pattern no text matches. *)
Definition MustCompile (expr : str) : Regexp :=
  match Compile expr with
  | Some re => re
  | None => [Class (fun _ => false)]
  end.

(** Greedy repetition of a class: take one more byte if possible and try
    the rest of the pattern [k] there first; give the byte back when that
    fails.  [prev] is the byte before the current position. *)
Fixpoint greedy (cls : ascii -> bool)
         (k : option ascii -> str -> option nat)
         (prev : option ascii) (s : str) : option nat :=
  match s with
  | c :: s' =>
    if cls c then
      match greedy cls k (Some c) s' with
      | Some n => Some (S n)
      | None => k prev s
      end
    else k prev s
  | [] => k prev s
  end.

(** [run re prev s]: the length of the match of [re] that starts at the
    head of [s], the text before it ending in [prev]. *)
Fixpoint run (re : Regexp) (prev : option ascii) (s : str) : option nat :=
  match re with
  | [] => Some 0
  | BeginLine :: re' =>
    match prev with
    | None => run re' prev s
    | Some c => if Ascii.eqb c NL then run re' prev s else None
    end
  | EndLine :: re' =>
    match s with
    | [] => run re' prev s
    | c :: _ => if Ascii.eqb c NL then run re' prev s else None
    end
  | BeginText :: re' =>
    match prev with
    | None => run re' prev s
    | Some _ => None
    end
  | EndText :: re' =>
    match s with
    | [] => run re' prev s
    | _ :: _ => None
    end
  | Lit a :: re' =>
    match s with
    | c :: s' => if Ascii.eqb c a then option_map S (run re' (Some c) s')
                 else None
    | [] => None
    end
  | Class cls :: re' =>
    match s with
    | c :: s' => if cls c then option_map S (run re' (Some c) s') else None
    | [] => None
    end
  | Star cls :: re' => greedy cls (run re') prev s
  | Plus cls :: re' =>
    match s with
    | c :: s' => if cls c then option_map S (greedy cls (run re') (Some c) s')
                 else None
    | [] => None
    end
  end.

(** Is there a match starting here or further right? *)
Fixpoint match_from (re : Regexp) (prev : option ascii) (s : str) : bool :=
  match run re prev s with
  | Some _ => true
  | None =>
    match s with
    | [] => false
    | c :: s' => match_from re (Some c) s'
    end
  end.

Definition Match (re : Regexp) (b : str) : bool := match_from re None b.

(** *** Replacement templates ([Expand])

    In a template [$name] and [${name}] stand for a submatch and [$$] for
    a dollar sign.  The patterns of the program have no capturing group,
    so [$0] is the whole match and any other name is empty.  Names are
    letters, digits and underscores; the model knows the ASCII ones, and
    the properties about replacements are stated for templates without a
    dollar sign. *)

Definition isNameByte (c : ascii) : bool :=
  let n := nat_of_ascii c in
  ((48 <=? n) && (n <=? 57)) || ((65 <=? n) && (n <=? 90))
  || ((97 <=? n) && (n <=? 122)) || (n =? 95).

Fixpoint takeName (s : str) : str :=
  match s with
  | c :: s' => if isNameByte c then c :: takeName s' else []
  | [] => []
  end.

(** [extract]: the name at the head of the template (the [$] already
    removed) and the number of template bytes it takes. *)
Definition extract (t : str) : option (str * nat) :=
  match t with
  | [] => None
  | "{"%char :: t' =>
    match takeName t' with
    | [] => None
    | name =>
      match skipn (length name) t' with
      | "}"%char :: _ => Some (name, length name + 2)
      | _ => None
      end
    end
  | _ =>
    match takeName t with
    | [] => None
    | name => Some (name, length name)
    end
  end.

Definition submatch (name whole : str) : str :=
  if str_eqb name (lit "0") then whole else [].

Fixpoint expand_go (whole : str) (skip : nat) (t : str) : str :=
  match t with
  | [] => []
  | c :: t' =>
    match skip with
    | S k => expand_go whole k t'
    | O =>
      if Ascii.eqb c "$" then
        match t' with
        | "$"%char :: _ => "$"%char :: expand_go whole 1 t'
        | _ =>
          match extract t' with
          | Some (name, used) => submatch name whole ++ expand_go whole used t'
          | None => "$"%char :: expand_go whole 0 t'
          end
        end
      else c :: expand_go whole 0 t'
    end
  end.

Definition expand (template whole : str) : str := expand_go whole 0 template.

(** [ReplaceAll]: copy [src], each match (leftmost, then the next one
    after it) replaced by the expanded template.  [skip] counts the bytes
    of the current match still to be passed over.  A pattern of the
    program starts with a literal and cannot match the empty string, so
    Go's rules for empty matches are left out: an empty match counts as
    none. *)
Fixpoint replaceAll_go (re : Regexp) (repl : str) (prev : option ascii)
         (skip : nat) (src : str) : str :=
  match src with
  | [] => []
  | c :: src' =>
    match skip with
    | S k => replaceAll_go re repl (Some c) k src'
    | O =>
      match run re prev src with
      | Some (S n) =>
        expand repl (firstn (S n) src) ++ replaceAll_go re repl (Some c) n src'
      | _ => c :: replaceAll_go re repl (Some c) 0 src'
      end
    end
  end.

Definition ReplaceAll (re : Regexp) (src repl : str) : str :=
  replaceAll_go re repl None 0 src.

End regexp.

(** ** [fmt]'s [%q] and [%d]

    [%q] of a string is [strconv.Quote]: the text between double quotes,
    with the backslash and the double quote escaped, control bytes written as
    escapes, printable
    ASCII kept.  Bytes from 128 up are kept as they are, which is what Go
    does for the valid UTF-8 encoding of a printable rune only: Go escapes
    invalid UTF-8 as [\xNN] and runes that are not printable as [\uNNNN].
    The properties that speak of a quoted text are stated for ASCII
    texts. *)

Module strconv.

Definition hexdigit (n : nat) : ascii :=
  nth n (lit "0123456789abcdef") "0"%char.

Definition quoteByte (c : ascii) : str :=
  let n := nat_of_ascii c in
  if Ascii.eqb c DQ || Ascii.eqb c "\" then ["\"%char; c]
  else if (32 <=? n) && (n <? 127) then [c]
  else if 128 <=? n then [c]
  else
    match n with
    | 7 => lit "\a"
    | 8 => lit "\b"
    | 12 => lit "\f"
    | 10 => lit "\n"
    | 13 => lit "\r"
    | 9 => lit "\t"
    | 11 => lit "\v"
    | _ => lit "\x" ++ [hexdigit (n / 16); hexdigit (n mod 16)]
    end.

Definition Quote (s : str) : str :=
  [DQ] ++ flat_map quoteByte s ++ [DQ].

(** [%d] of an integer. *)
Definition Itoa (i : Z) : str :=
  lit (NilZero.string_of_int (Z.to_int i)).

End strconv.

(** ** The world the program runs in

    Files, HTTP requests and subprocesses are effects.  A [World] holds the
    file store and the trace of the effects performed so far, in order; an
    [Env] holds what the program cannot decide: how the operating system,
    the servers and the subprocesses answer, and the library functions
    whose results the properties below do not depend on. *)

Record Request : Type := mkRequest {
  Method : str;
  ReqURL : str;
  ContentType : str;
  ContentLength : Z;
  BasicAuth : option (str * str);
  ReqBody : str;
}.

Record Response : Type := mkResponse {
  StatusCode : Z;
  RespBody : str;
}.

(** [exec.Cmd]: the program, its arguments and what is fed to its standard
    input. *)
Record Cmd : Type := mkCmd {
  CmdName : str;
  CmdArgs : list str;
  CmdStdin : option str;
}.

Inductive event : Type :=
| EvReadFile (name : str)
| EvWriteFile (name data : str)
| EvMkdirAll (path : str)
| EvOpen (name : str)
| EvStat (name : str)
| EvHTTP (timeout : Z) (req : Request)   (* [client.Do], timeout in seconds *)
| EvExec (cmd : Cmd)                     (* a subprocess is spawned *)
| EvLog (msg : str).                     (* [logger.Info], message only *)

Definition FileStore := str -> option str.

Record World : Type := mkWorld {
  files : FileStore;
  trace : list event;
}.

(** The structs of chart.go.  Field names that several structs share are
    prefixed. *)
Record ChartDependency : Type := mkChartDependency {
  Dep_Name : str;
  Dep_Version : str;
  Dep_Repository : str;
  Dep_Condition : str;
  Dep_Tags : list str;
  Dep_Alias : str;
}.

Record Maintainer : Type := mkMaintainer {
  Maint_Name : str;
  Maint_Email : str;
  Maint_URL : str;
}.

Record Chart : Type := mkChart {
  APIVersion : str;
  Name : str;
  Version : str;
  AppVersion : str;
  Description : str;
  ChartType : str;              (* [Type] *)
  Keywords : list str;
  Home : str;
  Sources : list str;
  Dependencies : list ChartDependency;
  Maintainers : list Maintainer;
  Icon : str;
  Deprecated : bool;
  KubeVersion : str;
}.

Record Env : Type := mkEnv {
  (* [filepath.Join], [yaml.Unmarshal] and the URL check of
     [http.NewRequestWithContext] are library code *)
  filepath_Join : str -> str -> str;
  yaml_Unmarshal : str -> Chart * error;
  request_error : str -> str -> error;
  (* an operation on files may fail whatever the store holds *)
  os_error : World -> event -> error;
  (* the answer to a request: a transport error or a response *)
  http_answer : World -> Z -> Request -> Response * error;
  (* the combined output and the exit error of a subprocess, and the files
     it leaves behind *)
  cmd_answer : World -> Cmd -> str * error;
  cmd_files : World -> Cmd -> FileStore;
}.

Definition M (A : Type) : Type := World -> A * World.

Definition ret {A : Type} (a : A) : M A := fun w => (a, w).

Definition bind {A B : Type} (m : M A) (k : A -> M B) : M B :=
  fun w => let (a, w') := m w in k a w'.

Declare Scope io_scope.
Delimit Scope io_scope with io.

Notation "x <- m ;; k" := (bind m (fun x => k))
  (at level 61, m at next level, right associativity) : io_scope.
Notation "' pat <- m ;; k" := (bind m (fun x => match x with pat => k end))
  (at level 61, pat pattern, m at next level, right associativity) : io_scope.
Notation "m ;; k" := (bind m (fun _ => k))
  (at level 61, right associativity) : io_scope.

Local Open Scope io_scope.

Definition record (e : event) (w : World) : World :=
  mkWorld (files w) (trace w ++ [e]).

Definition store (name data : str) (fs : FileStore) : FileStore :=
  fun n => if str_eqb n name then Some data else fs n.

Definition not_exist (name : str) : str :=
  lit "open " ++ name ++ lit ": no such file or directory".

Definition nonempty (s : str) : bool :=
  match s with [] => false | _ :: _ => true end.

Section Program.

Variable E : Env.

(** *** Primitive operations *)

Definition os_ReadFile (name : str) : M (str * error) := fun w =>
  let w' := record (EvReadFile name) w in
  match os_error E w (EvReadFile name) with
  | Some e => (([], Some e), w')
  | None =>
    match files w name with
    | Some data => ((data, None), w')
    | None => (([], Some (not_exist name)), w')
    end
  end.

Definition os_WriteFile (name data : str) : M error := fun w =>
  match os_error E w (EvWriteFile name data) with
  | Some e => (Some e, record (EvWriteFile name data) w)
  | None =>
    (None, mkWorld (store name data (files w))
                   (trace w ++ [EvWriteFile name data]))
  end.

Definition os_MkdirAll (path : str) : M error := fun w =>
  (os_error E w (EvMkdirAll path), record (EvMkdirAll path) w).

(** An open file: its name and the bytes it holds. *)
Definition os_Open (name : str) : M ((str * str) * error) := fun w =>
  let w' := record (EvOpen name) w in
  match os_error E w (EvOpen name) with
  | Some e => (((name, []), Some e), w')
  | None =>
    match files w name with
    | Some data => (((name, data), None), w')
    | None => (((name, []), Some (not_exist name)), w')
    end
  end.

(** [file.Stat()], of which the program reads the size. *)
Definition file_Stat (file : str * str) : M (Z * error) := fun w =>
  let w' := record (EvStat (fst file)) w in
  match os_error E w (EvStat (fst file)) with
  | Some e => ((0%Z, Some e), w')
  | None => ((len (snd file), None), w')
  end.

(** [http.NewRequestWithContext]: a request with the method, the URL and
    the body; nothing is sent. *)
Definition http_NewRequest (method url : str) (file : str * str)
  : Request * error :=
  (mkRequest method url [] 0 None (snd file), request_error E method url).

Definition Header_Set_ContentType (v : str) (req : Request) : Request :=
  mkRequest (Method req) (ReqURL req) v (ContentLength req) (BasicAuth req)
            (ReqBody req).

Definition set_ContentLength (n : Z) (req : Request) : Request :=
  mkRequest (Method req) (ReqURL req) (ContentType req) n (BasicAuth req)
            (ReqBody req).

Definition SetBasicAuth (username password : str) (req : Request) : Request :=
  mkRequest (Method req) (ReqURL req) (ContentType req) (ContentLength req)
            (Some (username, password)) (ReqBody req).

(** [client.Do] of a client with the given timeout. *)
Definition client_Do (timeout : Z) (req : Request) : M (Response * error) :=
  fun w => (http_answer E w timeout req, record (EvHTTP timeout req) w).

(** [cmd.Run()] and [cmd.CombinedOutput()]: the subprocess is spawned,
    may change files, and ends with an output and an exit error. *)
Definition cmd_CombinedOutput (cmd : Cmd) : M (str * error) := fun w =>
  (cmd_answer E w cmd, mkWorld (cmd_files E w cmd) (trace w ++ [EvExec cmd])).

Definition cmd_Run (cmd : Cmd) : M error :=
  '(_, err) <- cmd_CombinedOutput cmd ;; ret err.

Definition logger_Info (msg : str) : M unit := fun w =>
  (tt, record (EvLog msg) w).

(** *** chart.go *)

Definition ParseChart (chartPath : str) : M (option Chart * error) :=
  let chartFile := filepath_Join E chartPath (lit "Chart.yaml") in
  '(data, err) <- os_ReadFile chartFile ;;
  match err with
  | Some e => ret (None, Some (lit "failed to read Chart.yaml: " ++ e))
  | None =>
    let (chart, err) := yaml_Unmarshal E data in
    match err with
    | Some e => ret (None, Some (lit "failed to parse Chart.yaml: " ++ e))
    | None => ret (Some chart, None)
    end
  end.

Definition UpdateChartVersion (chartPath version appVersion : str) : M error :=
  let chartFile := filepath_Join E chartPath (lit "Chart.yaml") in
  '(data, err) <- os_ReadFile chartFile ;;
  match err with
  | Some e => ret (Some (lit "failed to read Chart.yaml: " ++ e))
  | None =>
    (* Update version using regex to preserve formatting *)
    let versionPattern := regexp.MustCompile (lit "(?m)^version:\s*.+$") in
    if negb (regexp.Match versionPattern data)
    then ret (Some (lit "version field not found in Chart.yaml"))
    else
      let data :=
        regexp.ReplaceAll versionPattern data (lit "version: " ++ version) in
      (* Update appVersion if provided *)
      let data :=
        if nonempty appVersion then
          let appVersionPattern :=
            regexp.MustCompile (lit "(?m)^appVersion:\s*.+$") in
          if regexp.Match appVersionPattern data then
            (* Update existing appVersion *)
            regexp.ReplaceAll appVersionPattern data
              (lit "appVersion: " ++ strconv.Quote appVersion)
          else
            (* Add appVersion after version *)
            let versionLine :=
              regexp.MustCompile (lit "(?m)^version:\s*.+$") in
            regexp.ReplaceAll versionLine data
              (lit "version: " ++ version ++ [NL] ++ lit "appVersion: "
                   ++ strconv.Quote appVersion)
        else data in
      err <- os_WriteFile chartFile data ;;
      match err with
      | Some e => ret (Some (lit "failed to write Chart.yaml: " ++ e))
      | None => ret None
      end
  end.

Definition ValidateChart (chart : Chart) : error :=
  if negb (nonempty (Name chart)) then Some (lit "chart name is required")
  else if negb (nonempty (Version chart))
  then Some (lit "chart version is required")
  else if negb (nonempty (APIVersion chart))
  then Some (lit "apiVersion is required")
  else if negb (str_eqb (APIVersion chart) (lit "v2"))
          && negb (str_eqb (APIVersion chart) (lit "v1"))
  then Some (lit "apiVersion must be v1 or v2, got: " ++ APIVersion chart)
  else None.

Definition GetChartName (c : Chart) : str := Name c.

Definition GetChartVersion (c : Chart) : str := Version c.

Definition HasDependencies (c : Chart) : bool :=
  (0 <? len_list (Dependencies c))%Z.

(** *** The repository file *)

Record RepositoryConfig : Type := mkRepositoryConfig {
  Type_ : str;                (* [Type]: oci, http, chartmuseum *)
  URL : str;
  RepoName : str;             (* [Name] *)
  Username : str;
  Password : str;
  RegistryConfig : str;
}.

Record Repository : Type := mkRepository {
  config : RepositoryConfig;
  contextPath : str;
}.

Definition NewRepository (config : RepositoryConfig) : Repository :=
  mkRepository config [].

Definition SetContextPath (path : str) (r : Repository) : Repository :=
  mkRepository (config r) path.

Definition helm : str := lit "helm".

(** [registryLogin]: the password goes to the standard input of the
    subprocess. *)
Definition registryLogin (r : Repository) (registry : str) : M error :=
  let cmd :=
    mkCmd helm
          [lit "registry"; lit "login"; registry;
           lit "--username"; Username (config r);
           lit "--password-stdin"]
          (Some (Password (config r))) in
  cmd_Run cmd.

Definition pushOCI (r : Repository) (packagePath : str) : M error :=
  (* Login to registry if credentials provided *)
  err <- (if nonempty (Username (config r)) && nonempty (Password (config r))
          then
            let registry := strings.TrimPrefix (URL (config r)) (lit "oci://") in
            (* Extract just the host part *)
            let parts := strings.SplitN registry (lit "/") 2 in
            let registryHost := hd [] parts in
            err <- registryLogin r registryHost ;;
            match err with
            | Some e => ret (Some (lit "registry login failed: " ++ e))
            | None => ret None
            end
          else ret None) ;;
  match err with
  | Some e => ret (Some e)
  | None =>
    (* Push chart *)
    let cmd := mkCmd helm [lit "push"; packagePath; URL (config r)] None in
    err <- cmd_Run cmd ;;
    match err with
    | Some e => ret (Some (lit "helm push failed: " ++ e))
    | None => ret None
    end
  end.

Definition upload_failed (resp : Response) : str :=
  lit "upload failed with status " ++ strconv.Itoa (StatusCode resp)
      ++ lit ": " ++ RespBody resp.

Definition pushChartMuseum (r : Repository) (packagePath : str) : M error :=
  '(file, err) <- os_Open packagePath ;;
  match err with
  | Some e => ret (Some (lit "failed to open package: " ++ e))
  | None =>
    let endpoint := URL (config r) ++ lit "/api/charts" in
    let endpoint :=
      if nonempty (contextPath r)
      then URL (config r) ++ lit "/" ++ contextPath r ++ lit "/api/charts"
      else endpoint in
    let (req, err) := http_NewRequest (lit "POST") endpoint file in
    match err with
    | Some e => ret (Some (lit "failed to create request: " ++ e))
    | None =>
      let req := Header_Set_ContentType (lit "application/gzip") req in
      let req :=
        if nonempty (Username (config r)) && nonempty (Password (config r))
        then SetBasicAuth (Username (config r)) (Password (config r)) req
        else req in
      '(resp, err) <- client_Do 60 req ;;
      match err with
      | Some e => ret (Some (lit "failed to push chart: " ++ e))
      | None =>
        if negb (StatusCode resp =? 201)%Z && negb (StatusCode resp =? 200)%Z
        then ret (Some (upload_failed resp))
        else ret None
      end
    end
  end.

Definition pushHTTP (r : Repository) (packagePath : str) : M error :=
  '(file, err) <- os_Open packagePath ;;
  match err with
  | Some e => ret (Some (lit "failed to open package: " ++ e))
  | None =>
    (* Get file info for Content-Length *)
    '(size, err) <- file_Stat file ;;
    match err with
    | Some e => ret (Some (lit "failed to stat package: " ++ e))
    | None =>
      let (req, err) := http_NewRequest (lit "PUT") (URL (config r)) file in
      match err with
      | Some e => ret (Some (lit "failed to create request: " ++ e))
      | None =>
        let req := Header_Set_ContentType (lit "application/gzip") req in
        let req := set_ContentLength size req in
        let req :=
          if nonempty (Username (config r)) && nonempty (Password (config r))
          then SetBasicAuth (Username (config r)) (Password (config r)) req
          else req in
        '(resp, err) <- client_Do 120 req ;;
        match err with
        | Some e => ret (Some (lit "failed to push chart: " ++ e))
        | None =>
          if (StatusCode resp <? 200)%Z || (300 <=? StatusCode resp)%Z
          then ret (Some (upload_failed resp))
          else ret None
        end
      end
    end
  end.

Definition Push (r : Repository) (packagePath : str) : M error :=
  if str_eqb (Type_ (config r)) (lit "oci") then pushOCI r packagePath
  else if str_eqb (Type_ (config r)) (lit "chartmuseum")
  then pushChartMuseum r packagePath
  else if str_eqb (Type_ (config r)) (lit "http") then pushHTTP r packagePath
  else ret (Some (lit "unsupported repository type: " ++ Type_ (config r))).

Definition Logout (r : Repository) : M error :=
  if negb (str_eqb (Type_ (config r)) (lit "oci")) then ret None
  else
    let registry := strings.TrimPrefix (URL (config r)) (lit "oci://") in
    let parts := strings.SplitN registry (lit "/") 2 in
    let registryHost := hd [] parts in
    cmd_Run (mkCmd helm [lit "registry"; lit "logout"; registryHost] None).

(** *** helm.go: the packaging subprocess *)

Record SignOptions : Type := mkSignOptions {
  SO_Keyring : str;
  SO_Key : str;
  SO_PassphraseFile : str;
}.

Record HelmCLI : Type := mkHelmCLI { chartPath : str }.

Definition NewHelmCLI (chartPath : str) : HelmCLI := mkHelmCLI chartPath.

Definition Package (h : HelmCLI) (outputDir : str)
           (signOpts : option SignOptions) : M (str * error) :=
  let args := [lit "package"; chartPath h; lit "-d"; outputDir] in
  let args :=
    match signOpts with
    | None => args
    | Some o =>
      let args := args ++ [lit "--sign"] in
      let args := if nonempty (SO_Keyring o)
                  then args ++ [lit "--keyring"; SO_Keyring o] else args in
      let args := if nonempty (SO_Key o)
                  then args ++ [lit "--key"; SO_Key o] else args in
      if nonempty (SO_PassphraseFile o)
      then args ++ [lit "--passphrase-file"; SO_PassphraseFile o] else args
    end in
  '(output, err) <- cmd_CombinedOutput (mkCmd helm args None) ;;
  match err with
  | Some e => ret ([], Some (lit "helm package failed: " ++ e ++ [NL] ++ output))
  | None =>
    (* Extract package path from output *)
    ret (extractPackagePath output)
  end.

(** *** The plugin file *)

Record VersionConfig : Type := mkVersionConfig {
  UpdateChart : bool;
  UpdateAppVersion : bool;
  AppVersionFormat : str;
}.

Record DependencyConfig : Type := mkDependencyConfig {
  Dep_Update : bool;
  Dep_Build : bool;
}.

Record Config : Type := mkConfig {
  ChartPath : str;
  Repository_ : RepositoryConfig;      (* [Repository] *)
  Version_ : VersionConfig;            (* [Version] *)
  Lint : bool;
  LintStrict : bool;
  TemplateValidate : bool;
  Test : bool;
  Cfg_KubeVersion : str;               (* [KubeVersion] *)
  APIVersions : list str;
  Dependencies_ : DependencyConfig;    (* [Dependencies] *)
  Sign : bool;
  SignKey : str;
  Keyring : str;
  PassphraseFile : str;
  OutputDir : str;
  ContextPath : str;
  DryRun : bool;
}.

Record ExecuteResponse : Type := mkExecuteResponse {
  Success : bool;
  Message : str;
}.

Definition failure (msg : str) : M (ExecuteResponse * error) :=
  ret (mkExecuteResponse false msg, None).

(** [releaseVersion] is [releaseCtx.Version]. *)
Definition executePostPublish (releaseVersion : str) (cfg : Config)
  : M (ExecuteResponse * error) :=
  let version := releaseVersion in
  let chartPath := ChartPath cfg in
  let chartPath := if nonempty chartPath then chartPath else lit "." in
  (* Parse chart to get name *)
  '(chart, err) <- ParseChart chartPath ;;
  match chart, err with
  | _, Some e => failure (lit "Failed to parse Chart.yaml: " ++ e)
  | None, None =>
    (* [ParseChart] gives a chart whenever it gives no error *)
    failure (lit "Failed to parse Chart.yaml: ")
  | Some chart, None =>
    let helm := NewHelmCLI chartPath in
    (* Ensure output directory exists *)
    let outputDir := OutputDir cfg in
    let outputDir :=
      if nonempty outputDir then outputDir else lit ".helm-packages" in
    err <- (if negb (DryRun cfg) then os_MkdirAll outputDir else ret None) ;;
    match err with
    | Some e => failure (lit "Failed to create output directory: " ++ e)
    | None =>
      (* Package chart *)
      logger_Info (lit "Packaging chart") ;;
      '(packagePath, err) <-
        (if DryRun cfg then
           logger_Info (lit "[DRY-RUN] Would package chart") ;;
           ret (filepath_Join E outputDir
                  (Name chart ++ lit "-" ++ version ++ lit ".tgz"), None)
         else
           let signOpts :=
             if Sign cfg
             then Some (mkSignOptions (Keyring cfg) (SignKey cfg)
                                      (PassphraseFile cfg))
             else None in
           Package helm outputDir signOpts) ;;
      match err with
      | Some e => failure (lit "Failed to package chart: " ++ e)
      | None =>
        (* Push to repository *)
        logger_Info (lit "Pushing chart to repository") ;;
        let repo := NewRepository (Repository_ cfg) in
        let repo := SetContextPath (ContextPath cfg) repo in
        err <- (if DryRun cfg then
                  logger_Info (lit "[DRY-RUN] Would push chart") ;; ret None
                else Push repo packagePath) ;;
        match err with
        | Some e => failure (lit "Failed to push chart: " ++ e)
        | None =>
          let msg :=
            if DryRun cfg
            then lit "[DRY-RUN] Would publish " ++ Name chart ++ lit "@"
                     ++ version ++ lit " to " ++ URL (Repository_ cfg)
            else lit "Published " ++ Name chart ++ lit "@" ++ version
                     ++ lit " to " ++ URL (Repository_ cfg) in
          logger_Info (lit "PostPublish completed successfully") ;;
          ret (mkExecuteResponse true msg, None)
        end
      end
    end
  end.

End Program.

(** ** The rest of helm.go and of the plugin file

    [strings.ReplaceAll], the other commands of [HelmCLI],
    [executePrePublish], [parseConfig] and [Execute]. *)

(** [strings.ReplaceAll(s, old, new)] for a non-empty [old] (the program
    replaces the placeholder of the version): the occurrences of [old],
    leftmost first and not overlapping, become [new].  [skip] counts the
    bytes of the current occurrence still to be passed over. *)
Fixpoint strings_Replace_go (old new : str) (skip : nat) (s : str) : str :=
  match s with
  | [] => []
  | c :: s' =>
    match skip with
    | S k => strings_Replace_go old new k s'
    | O =>
      if strings.HasPrefix s old
      then new ++ strings_Replace_go old new (length old - 1) s'
      else c :: strings_Replace_go old new 0 s'
    end
  end.

Definition strings_ReplaceAll (s old new : str) : str :=
  strings_Replace_go old new 0 s.

(** A value of type [any] as the configuration holds them: a string, a
    boolean, a map, a slice, or something else (a number, nil). *)
#[warnings="-register-all"]
Inductive any : Type :=
| AString (s : str)
| ABool (b : bool)
| AMap (m : str -> option any)
| ASlice (l : list any)
| AOther.

(** [map[string]any] *)
Definition rawConfig := str -> option any.

(** [helpers.ConfigParser] belongs to the plugin SDK: [GetString(key, env,
    default)] and [GetBool(key, default)] read the raw configuration. *)
Record ConfigParser : Type := mkConfigParser {
  GetString : rawConfig -> str -> str -> str -> str;
  GetBool : rawConfig -> str -> bool -> bool;
}.

(** [plugin.Hook]: the two hooks the plugin handles, and any other. *)
Inductive Hook : Type :=
| HookPrePublish
| HookPostPublish
| HookOther (name : str).

(** [plugin.ExecuteRequest], with [Context.Version] for the context. *)
Record ExecuteRequest : Type := mkExecuteRequest {
  ReqHook : Hook;
  ReqConfig : rawConfig;
  ReqDryRun : bool;
  ReqVersion : str;
}.

(** [cfg.DryRun = v] *)
Definition set_DryRun (v : bool) (cfg : Config) : Config :=
  mkConfig (ChartPath cfg) (Repository_ cfg) (Version_ cfg) (Lint cfg)
           (LintStrict cfg) (TemplateValidate cfg) (Test cfg)
           (Cfg_KubeVersion cfg) (APIVersions cfg) (Dependencies_ cfg)
           (Sign cfg) (SignKey cfg) (Keyring cfg) (PassphraseFile cfg)
           (OutputDir cfg) (ContextPath cfg) v.

(** The type assertions [x.(string)], [x.(bool)], [x.(map[string]any)] and
    [x.([]any)] on a map entry. *)
Definition as_string (v : option any) : option str :=
  match v with Some (AString s) => Some s | _ => None end.

Definition as_bool (v : option any) : option bool :=
  match v with Some (ABool b) => Some b | _ => None end.

Definition as_map (v : option any) : option rawConfig :=
  match v with Some (AMap m) => Some m | _ => None end.

Definition as_slice (v : option any) : option (list any) :=
  match v with Some (ASlice l) => Some l | _ => None end.

(** [if x, ok := v.(T); ok { field = x }] *)
Definition assign {A : Type} (v : option A) (old : A) : A :=
  match v with Some x => x | None => old end.

Definition parseConfig (parser : ConfigParser) (raw : rawConfig) : Config :=
  (* Parse repository config *)
  let repoConfig := mkRepositoryConfig (lit "oci") [] [] [] [] [] in
  let repoConfig :=
    match as_map (raw (lit "repository")) with
    | Some repoRaw =>
      mkRepositoryConfig
        (assign (as_string (repoRaw (lit "type"))) (Type_ repoConfig))
        (assign (as_string (repoRaw (lit "url"))) (URL repoConfig))
        (assign (as_string (repoRaw (lit "name"))) (RepoName repoConfig))
        (assign (as_string (repoRaw (lit "username"))) (Username repoConfig))
        (assign (as_string (repoRaw (lit "password"))) (Password repoConfig))
        (assign (as_string (repoRaw (lit "registry_config")))
                (RegistryConfig repoConfig))
    | None => repoConfig
    end in
  (* Parse version config *)
  let versionConfig := mkVersionConfig true true [] in
  let versionConfig :=
    match as_map (raw (lit "version")) with
    | Some versionRaw =>
      mkVersionConfig
        (assign (as_bool (versionRaw (lit "update_chart")))
                (UpdateChart versionConfig))
        (assign (as_bool (versionRaw (lit "update_app_version")))
                (UpdateAppVersion versionConfig))
        (assign (as_string (versionRaw (lit "app_version_format")))
                (AppVersionFormat versionConfig))
    | None => versionConfig
    end in
  (* Parse dependency config *)
  let depConfig := mkDependencyConfig true true in
  let depConfig :=
    match as_map (raw (lit "dependencies")) with
    | Some depRaw =>
      mkDependencyConfig
        (assign (as_bool (depRaw (lit "update"))) (Dep_Update depConfig))
        (assign (as_bool (depRaw (lit "build"))) (Dep_Build depConfig))
    | None => depConfig
    end in
  (* Parse API versions *)
  let apiVersions :=
    match as_slice (raw (lit "api_versions")) with
    | Some apiRaw =>
      fold_left (fun acc v =>
                   match v with
                   | AString s => acc ++ [s]
                   | _ => acc
                   end) apiRaw []
    | None => []
    end in
  mkConfig (GetString parser raw (lit "chart_path") [] (lit "."))
           repoConfig
           versionConfig
           (GetBool parser raw (lit "lint") true)
           (GetBool parser raw (lit "lint_strict") false)
           (GetBool parser raw (lit "template_validate") true)
           (GetBool parser raw (lit "test") false)
           (GetString parser raw (lit "kube_version") [] [])
           apiVersions
           depConfig
           (GetBool parser raw (lit "sign") false)
           (GetString parser raw (lit "sign_key") [] [])
           (GetString parser raw (lit "keyring") [] [])
           (GetString parser raw (lit "passphrase_file") [] [])
           (GetString parser raw (lit "output_dir") [] (lit ".helm-packages"))
           (GetString parser raw (lit "context_path") [] [])
           (GetBool parser raw (lit "dry_run") false).

Section Commands.

Variable E : Env.

(** [h.run(ctx, args...)] *)
Definition HelmCLI_run (h : HelmCLI) (args : list str) : M error :=
  cmd_Run E (mkCmd helm args None).

Definition HelmCLI_Lint (h : HelmCLI) (strict : bool) : M error :=
  let args := [lit "lint"; chartPath h] in
  let args := if strict then args ++ [lit "--strict"] else args in
  HelmCLI_run h args.

Definition HelmCLI_Template (h : HelmCLI) (kubeVersion : str)
           (apiVersions : list str) : M error :=
  let args := [lit "template"; lit "release-name"; chartPath h] in
  let args :=
    if nonempty kubeVersion
    then args ++ [lit "--kube-version"; kubeVersion] else args in
  let args :=
    fold_left (fun args api => args ++ [lit "--api-versions"; api])
              apiVersions args in
  cmd_Run E (mkCmd helm args None).

Definition HelmCLI_DependencyUpdate (h : HelmCLI) : M error :=
  HelmCLI_run h [lit "dependency"; lit "update"; chartPath h].

Definition HelmCLI_DependencyBuild (h : HelmCLI) : M error :=
  HelmCLI_run h [lit "dependency"; lit "build"; chartPath h].

Definition HelmCLI_Test (h : HelmCLI) (releaseName : str) : M error :=
  HelmCLI_run h [lit "test"; releaseName].

(** A step of [executePrePublish]: [None] when the run goes on, the message
    of the failure response when the function returns there. *)
Definition orReturn (step : M (option str)) (rest : M (ExecuteResponse * error))
  : M (ExecuteResponse * error) :=
  msg <- step ;;
  match msg with
  | Some m => failure m
  | None => rest
  end.

(** A step that runs [action] unless the run is dry, after logging. *)
Definition guarded (dry : bool) (info dryInfo failed : str) (action : M error)
  : M (option str) :=
  logger_Info info ;;
  if dry then logger_Info dryInfo ;; ret None
  else
    err <- action ;;
    match err with
    | Some e => ret (Some (failed ++ e))
    | None => ret None
    end.

(** [releaseVersion] is [releaseCtx.Version]. *)
Definition executePrePublish (releaseVersion : str) (cfg : Config)
  : M (ExecuteResponse * error) :=
  let version := releaseVersion in
  let chartPath := ChartPath cfg in
  let chartPath := if nonempty chartPath then chartPath else lit "." in
  (* Parse chart to get name *)
  '(chart, err) <- ParseChart E chartPath ;;
  match chart, err with
  | _, Some e => failure (lit "Failed to parse Chart.yaml: " ++ e)
  | None, None =>
    (* [ParseChart] gives a chart whenever it gives no error *)
    failure (lit "Failed to parse Chart.yaml: ")
  | Some chart, None =>
    let helm := NewHelmCLI chartPath in
    (* Update version in Chart.yaml *)
    orReturn
      (if UpdateChart (Version_ cfg) then
         let appVersion := [] in
         let appVersion :=
           if UpdateAppVersion (Version_ cfg) then
             let appVersion := version in
             if nonempty (AppVersionFormat (Version_ cfg))
             then strings_ReplaceAll (AppVersionFormat (Version_ cfg))
                                     (lit "{{.Version}}") version
             else appVersion
           else appVersion in
         guarded (DryRun cfg)
                 (lit "Updating version in Chart.yaml")
                 (lit "[DRY-RUN] Would update Chart.yaml")
                 (lit "Failed to update Chart.yaml version: ")
                 (UpdateChartVersion E chartPath version appVersion)
       else ret None)
      (* Update dependencies *)
      (orReturn
         (if Dep_Update (Dependencies_ cfg) then
            guarded (DryRun cfg)
                    (lit "Updating chart dependencies")
                    (lit "[DRY-RUN] Would run helm dependency update")
                    (lit "Failed to update dependencies: ")
                    (HelmCLI_DependencyUpdate helm)
          else ret None)
         (* Build dependencies *)
         (orReturn
            (if Dep_Build (Dependencies_ cfg) then
               guarded (DryRun cfg)
                       (lit "Building chart dependencies")
                       (lit "[DRY-RUN] Would run helm dependency build")
                       (lit "Failed to build dependencies: ")
                       (HelmCLI_DependencyBuild helm)
             else ret None)
            (* Lint chart *)
            (orReturn
               (if Lint cfg then
                  guarded (DryRun cfg)
                          (lit "Linting chart")
                          (lit "[DRY-RUN] Would run helm lint")
                          (lit "Chart linting failed: ")
                          (HelmCLI_Lint helm (LintStrict cfg))
                else ret None)
               (* Template validation *)
               (orReturn
                  (if TemplateValidate cfg then
                     guarded (DryRun cfg)
                             (lit "Validating chart templates")
                             (lit "[DRY-RUN] Would run helm template validation")
                             (lit "Template validation failed: ")
                             (HelmCLI_Template helm (Cfg_KubeVersion cfg)
                                               (APIVersions cfg))
                   else ret None)
                  (logger_Info (lit "PrePublish completed successfully") ;;
                   ret (mkExecuteResponse
                          true
                          (lit "Chart " ++ Name chart
                               ++ lit " validated successfully"),
                        None))))))
  end.

Definition Execute (parser : ConfigParser) (req : ExecuteRequest)
  : M (ExecuteResponse * error) :=
  let cfg := parseConfig parser (ReqConfig req) in
  let cfg := set_DryRun (DryRun cfg || ReqDryRun req) cfg in
  match ReqHook req with
  | HookPrePublish => executePrePublish (ReqVersion req) cfg
  | HookPostPublish => executePostPublish E (ReqVersion req) cfg
  | HookOther name =>
    ret (mkExecuteResponse
           true (lit "Hook " ++ name ++ lit " not handled by helm plugin"),
         None)
  end.

End Commands.

(** * The vocabulary of the properties *)

(** ** Texts *)

(** [sub] occurs in [s]. *)
Definition occurs (sub s : str) : Prop := exists a b, s = a ++ sub ++ b.

(** [s] is [a], then the leftmost occurrence of [sub], then [b]. *)
Definition first_occurrence (sub s a b : str) : Prop :=
  s = a ++ sub ++ b /\
  forall a' b', s = a' ++ sub ++ b' -> length a <= length a'.

(** White space as [unicode.IsSpace] reads it in UTF-8 text. *)
Inductive blank : str -> Prop :=
| blank_nil : blank []
| blank_1 c s : strings.asciiSpace c = true -> blank s -> blank (c :: s)
| blank_2 c1 c2 s :
    strings.space2 c1 c2 = true -> blank s -> blank (c1 :: c2 :: s)
| blank_3 c1 c2 c3 s :
    strings.space3 c1 c2 c3 = true -> blank s -> blank (c1 :: c2 :: c3 :: s).

(** One white-space rune, in UTF-8. *)
Inductive space_rune : str -> Prop :=
| space_rune_1 c : strings.asciiSpace c = true -> space_rune [c]
| space_rune_2 c1 c2 : strings.space2 c1 c2 = true -> space_rune [c1; c2]
| space_rune_3 c1 c2 c3 : strings.space3 c1 c2 c3 = true -> space_rune [c1; c2; c3].

(** [s] neither starts nor ends with a white-space rune. *)
Definition trimmed (s : str) : Prop :=
  forall e rest, space_rune e -> s <> e ++ rest /\ s <> rest ++ e.

(** The lines of a text. *)
Definition lines (text : str) : list str := strings.Split text [NL].

(** A text given by its lines, each ended by a newline. *)
Definition text_of (ls : list string) : str :=
  flat_map (fun l => lit l ++ [NL]) ls.

(** ** The patterns of chart.go *)

(** The pattern [UpdateChartVersion] compiles for the version line. *)
Definition versionPattern : regexp.Regexp :=
  regexp.MustCompile (lit "(?m)^version:\s*.+$").

(** The shape of the two patterns of chart.go: [^key\s*.+$] under [(?m)]. *)
Definition fieldPattern (key : str) : regexp.Regexp :=
  regexp.BeginLine
    :: map regexp.Lit key
    ++ [regexp.Star regexp.perl_space; regexp.Plus regexp.any_not_nl;
        regexp.EndLine].

(** A line, taken alone, matches the pattern. *)
Definition line_matches (re : regexp.Regexp) (l : str) : bool := regexp.Match re l.

(** The byte before the position reached after reading [l]. *)
Definition lastOf (l : str) (p : option ascii) : option ascii :=
  fold_left (fun _ c => Some c) l p.

(** The position is at the beginning of a line. *)
Definition bol (p : option ascii) : Prop := p = None \/ p = Some NL.

(** What follows a line: nothing, or a newline and the next lines. *)
Definition line_end (rest : str) : Prop := rest = [] \/ exists t, rest = NL :: t.

(** The line is [key], white space, and a value that starts with a byte
    that is not white space. *)
Definition has_value (key l : str) : Prop :=
  exists w c r,
    l = key ++ w ++ c :: r /\
    Forall (fun x => regexp.perl_space x = true) w /\
    regexp.perl_space c = false.

(** Every line of the list is free of newlines, and the ones that start
    with [key] carry a value. *)
Definition field_lines (key : str) (ls : list str) : Prop :=
  Forall (fun l => ~ In NL l /\
                   (strings.HasPrefix l key = true -> has_value key l)) ls.

(** Every line that starts with [version:] carries a value. *)
Definition version_lines_have_values (text : str) : Prop :=
  forall l, In l (lines text) ->
            strings.HasPrefix l (lit "version:") = true ->
            has_value (lit "version:") l.

(** The version line the patcher writes, for a line that starts with the
    key; any other line as it is. *)
Definition set_version (version l : str) : str :=
  if strings.HasPrefix l (lit "version:") then lit "version: " ++ version else l.

(** The same with the [appVersion] line added after the version line. *)
Definition insert_appVersion (version appVersion l : str) : list str :=
  if strings.HasPrefix l (lit "version:")
  then [lit "version: " ++ version; lit "appVersion: " ++ strconv.Quote appVersion]
  else [l].

(** ** Effects *)

(** The events a computation adds to the trace. *)
Definition effects {A : Type} (m : M A) (w : World) : list event :=
  skipn (length (trace w)) (trace (snd (m w))).

(** A subprocess; a request. *)
Definition is_exec (e : event) : bool :=
  match e with EvExec _ => true | _ => false end.

Definition is_http (e : event) : bool :=
  match e with EvHTTP _ _ => true | _ => false end.

(** A [helm registry login] subprocess. *)
Definition is_login (e : event) : bool :=
  match e with
  | EvExec (mkCmd name (a1 :: a2 :: _) _) =>
    str_eqb name helm && str_eqb a1 (lit "registry") && str_eqb a2 (lit "login")
  | _ => false
  end.

(** [rest] is [s] without a leading [prefix]: what follows the prefix when
    [s] starts with it, and [s] itself when it does not. *)
Definition without_prefix (prefix s rest : str) : Prop :=
  s = prefix ++ rest \/ ((forall t, s <> prefix ++ t) /\ rest = s).

(** [host] is what is left of [url] once a leading [oci://] is removed, up
    to the first slash. *)
Definition host_of (url host : str) : Prop :=
  exists rest tail,
    without_prefix (lit "oci://") url rest /\
    rest = host ++ tail /\
    ~ In "/"%char host /\
    (tail = [] \/ exists t, tail = "/"%char :: t).

(** The two subprocesses of [pushOCI]. *)
Definition loginCmd (host username password : str) : Cmd :=
  mkCmd helm
        [lit "registry"; lit "login"; host; lit "--username"; username;
         lit "--password-stdin"]
        (Some password).

Definition pushCmd (packagePath url : str) : Cmd :=
  mkCmd helm [lit "push"; packagePath; url] None.

(** The request [pushChartMuseum] builds for a package holding [data]. *)
Definition chartMuseumRequest (r : Repository) (data : str) : Request :=
  mkRequest (lit "POST")
            (if nonempty (contextPath r)
             then URL (config r) ++ lit "/" ++ contextPath r ++ lit "/api/charts"
             else URL (config r) ++ lit "/api/charts")
            (lit "application/gzip") 0
            (if nonempty (Username (config r)) && nonempty (Password (config r))
             then Some (Username (config r), Password (config r)) else None)
            data.

(** The request [pushHTTP] builds for a package holding [data]. *)
Definition httpRequest (r : Repository) (data : str) : Request :=
  mkRequest (lit "PUT") (URL (config r)) (lit "application/gzip")
            (Z.of_nat (length data))
            (if nonempty (Username (config r)) && nonempty (Password (config r))
             then Some (Username (config r), Password (config r)) else None)
            data.

(** The three decimal digits of a status code. *)
Definition digit (n : Z) : ascii := ascii_of_nat (48 + Z.to_nat n).

Definition decimal3 (n : Z) : str :=
  [digit (n / 100); digit (n / 10 mod 10); digit (n mod 10)].

(** The message of a dry run. *)
Definition dryRunMessage (chart : Chart) (version : str) (cfg : Config) : str :=
  lit "[DRY-RUN] Would publish " ++ Name chart ++ lit "@" ++ version
      ++ lit " to " ++ URL (Repository_ cfg).

(** ** Concrete inputs *)

(** A chart with the three required fields. *)
Definition demoChart : Chart :=
  mkChart (lit "v2") (lit "my-chart") (lit "1.0.0") [] [] [] [] [] [] [] [] []
          false [].

(** A concrete environment: paths are joined with a slash, no operation
    fails by itself, the server answers [resp] and subprocesses exit with an
    error. *)
Definition envWith (resp : Response) : Env :=
  mkEnv (fun dir name => dir ++ lit "/" ++ name)
        (fun _ => (demoChart, None))
        (fun _ _ => None)
        (fun _ _ => None)
        (fun _ _ _ => (resp, None))
        (fun _ _ => ([], Some (lit "exit status 1")))
        (fun w _ => files w).

Definition demoEnv : Env := envWith (mkResponse 500 (lit "server error")).

(** A world with one file and an empty trace. *)
Definition oneFile (name data : str) : World :=
  mkWorld (store name data (fun _ => None)) [].

(** The manifest of the chart in [charts/app]; a repository; a world with a
    package file; a configuration with dry run set. *)
Definition chartFile_demo : str := lit "charts/app/Chart.yaml".

Definition repoOf (type url username password : string) : Repository :=
  NewRepository
    (mkRepositoryConfig (lit type) (lit url) [] (lit username) (lit password) []).

Definition packageWorld : World := oneFile (lit "/tmp/chart-1.0.0.tgz") (lit "test").

Definition dryRunConfig : Config :=
  mkConfig (lit "charts/app")
           (mkRepositoryConfig (lit "oci") (lit "oci://ghcr.io/org/charts")
                               [] [] [] [])
           (mkVersionConfig true true []) true false true false [] []
           (mkDependencyConfig true true)
           false [] [] [] [] [] true.

(** The patcher run on a manifest: the error and the file afterwards. *)
Definition patched (content : str) (version appVersion : string)
  : error * option str :=
  let r := UpdateChartVersion demoEnv (lit "charts/app") (lit version)
                              (lit appVersion)
                              (oneFile chartFile_demo content) in
  (fst r, files (snd r) chartFile_demo).

(** ** The vocabulary of the further properties *)

(** The pattern [UpdateChartVersion] compiles for the [appVersion] line. *)
Definition appVersionPattern : regexp.Regexp :=
  regexp.MustCompile (lit "(?m)^appVersion:\s*.+$").

(** What [UpdateChartVersion] makes of the text it has read, once the
    version pattern has matched. *)
Definition patch_text (version appVersion data : str) : str :=
  let data :=
    regexp.ReplaceAll versionPattern data (lit "version: " ++ version) in
  if nonempty appVersion then
    if regexp.Match appVersionPattern data then
      regexp.ReplaceAll appVersionPattern data
                        (lit "appVersion: " ++ strconv.Quote appVersion)
    else
      regexp.ReplaceAll versionPattern data
                        (lit "version: " ++ version ++ [NL] ++ lit "appVersion: "
                             ++ strconv.Quote appVersion)
  else data.

(** The quoted line, for a line that starts with [appVersion:]; any other
    line as it is. *)
Definition set_appVersion (appVersion l : str) : str :=
  if strings.HasPrefix l (lit "appVersion:")
  then lit "appVersion: " ++ strconv.Quote appVersion else l.

Definition has_version_line (ls : list str) : bool :=
  existsb (fun l => strings.HasPrefix l (lit "version:")) ls.

Definition has_appVersion_line (ls : list str) : bool :=
  existsb (fun l => strings.HasPrefix l (lit "appVersion:")) ls.

(** The lines of the patched manifest, from the lines of the manifest. *)
Definition patched_lines (version appVersion : str) (ls : list str) : list str :=
  if nonempty appVersion then
    if has_appVersion_line ls
    then map (fun l => set_appVersion appVersion (set_version version l)) ls
    else flat_map (insert_appVersion version appVersion) ls
  else map (set_version version) ls.

(** The lines that start with [version:] or [appVersion:] carry values. *)
Definition well_formed_lines (ls : list str) : Prop :=
  field_lines (lit "version:") ls /\ field_lines (lit "appVersion:") ls.

(** A version that starts with a byte that is not white space and has no
    newline and no dollar sign; a secondary version without dollar sign. *)
Definition plain_version (version : str) : Prop :=
  (exists c r, version = c :: r /\ regexp.perl_space c = false) /\
  ~ In NL version /\ ~ In "$"%char version.

(** Manifests for runs of the patcher: with a version line only, with an
    [appVersion] line too, and without a version line. *)
Definition manifest_demo : str :=
  text_of ["apiVersion: v2"; "name: my-chart"; "# This is the version";
           "version: 1.0.0"; "description: Test chart"]%string.

Definition manifest_app_demo : str :=
  text_of ["apiVersion: v2"; "name: my-chart"; "version: 1.0.0";
           "appVersion: 1.0.0  # unquoted"; "description: Test chart"]%string.

Definition manifest_nokey_demo : str :=
  text_of ["apiVersion: v2"; "name: my-chart"; "  version: nested"]%string.

(** ** Effects by kind, and the subprocesses of helm.go *)

(** The trace of the computation extends the trace it starts from, by
    events that all satisfy [P]. *)
Definition confined {A : Type} (P : event -> bool) (m : M A) : Prop :=
  forall w, exists evs,
    trace (snd (m w)) = trace w ++ evs /\ forallb P evs = true.

(** The computation leaves the file store as it is. *)
Definition keeps_files {A : Type} (m : M A) : Prop :=
  forall w, files (snd (m w)) = files w.

(** An event that changes nothing: a file is read or a message logged. *)
Definition observes (e : event) : bool :=
  match e with EvReadFile _ | EvLog _ => true | _ => false end.

(** Anything but a subprocess. *)
Definition no_exec (e : event) : bool := negb (is_exec e).

(** The subprocesses of an event list. *)
Definition execs (evs : list event) : list event := filter is_exec evs.

(** An option of the command line with its value, left out when the value
    is empty. *)
Definition flag (name value : str) : list str :=
  if nonempty value then [name; value] else [].

Definition signArgs (signOpts : option SignOptions) : list str :=
  match signOpts with
  | None => []
  | Some o =>
    lit "--sign" :: flag (lit "--keyring") (SO_Keyring o)
        ++ flag (lit "--key") (SO_Key o)
        ++ flag (lit "--passphrase-file") (SO_PassphraseFile o)
  end.

Definition packageCmd (path outputDir : str) (signOpts : option SignOptions)
  : Cmd :=
  mkCmd helm ([lit "package"; path; lit "-d"; outputDir] ++ signArgs signOpts)
        None.

Definition logoutCmd (host : str) : Cmd :=
  mkCmd helm [lit "registry"; lit "logout"; host] None.

Definition dependencyCmd (verb path : str) : Cmd :=
  mkCmd helm [lit "dependency"; verb; path] None.

Definition lintCmd (path : str) (strict : bool) : Cmd :=
  mkCmd helm ([lit "lint"; path] ++ if strict then [lit "--strict"] else [])
        None.

Definition templateCmd (path kubeVersion : str) (apiVersions : list str) : Cmd :=
  mkCmd helm
        ([lit "template"; lit "release-name"; path]
           ++ flag (lit "--kube-version") kubeVersion
           ++ flat_map (fun api => [lit "--api-versions"; api]) apiVersions)
        None.

(** The chart directory and the output directory a configuration stands
    for. *)
Definition chartPath_of (cfg : Config) : str :=
  if nonempty (ChartPath cfg) then ChartPath cfg else lit ".".

Definition outputDir_of (cfg : Config) : str :=
  if nonempty (OutputDir cfg) then OutputDir cfg else lit ".helm-packages".

Definition signOpts_of (cfg : Config) : option SignOptions :=
  if Sign cfg
  then Some (mkSignOptions (Keyring cfg) (SignKey cfg) (PassphraseFile cfg))
  else None.

Definition repository_of (cfg : Config) : Repository :=
  SetContextPath (ContextPath cfg) (NewRepository (Repository_ cfg)).

(** The subprocesses of the steps of [executePrePublish] a configuration
    enables, in the order of the steps. *)
Definition prePublishCmds (cfg : Config) : list Cmd :=
  let path := chartPath_of cfg in
  (if Dep_Update (Dependencies_ cfg)
   then [dependencyCmd (lit "update") path] else [])
    ++ (if Dep_Build (Dependencies_ cfg)
        then [dependencyCmd (lit "build") path] else [])
    ++ (if Lint cfg then [lintCmd path (LintStrict cfg)] else [])
    ++ (if TemplateValidate cfg
        then [templateCmd path (Cfg_KubeVersion cfg) (APIVersions cfg)]
        else []).

(** The strings of a slice of values. *)
Definition strings_of (l : list any) : list str :=
  flat_map (fun v => match v with AString s => [s] | _ => [] end) l.

(** The world after [executePostPublish] has read the manifest, made the
    output directory and logged that it packages. *)
Definition beforePackage (E : Env) (cfg : Config) (w : World) : World :=
  record (EvLog (lit "Packaging chart"))
    (record (EvMkdirAll (outputDir_of cfg))
       (record (EvReadFile (filepath_Join E (chartPath_of cfg) (lit "Chart.yaml")))
               w)).

(** A configuration of a real run with every step enabled; an environment
    whose subprocesses succeed and print where the package is. *)
Definition realConfig : Config :=
  mkConfig (lit "charts/app")
           (mkRepositoryConfig (lit "oci") (lit "oci://ghcr.io/org/charts")
                               [] [] [] [])
           (mkVersionConfig true true []) true true true false (lit "1.29")
           [lit "batch/v1"] (mkDependencyConfig true true)
           false [] [] [] [] [] false.

Definition okEnv : Env :=
  mkEnv (fun dir name => dir ++ lit "/" ++ name)
        (fun _ => (demoChart, None))
        (fun _ _ => None)
        (fun _ _ => None)
        (fun _ _ _ => (mkResponse 201 [], None))
        (fun _ _ =>
           (lit "Successfully packaged chart and saved it to: /tmp/my-chart-2.0.0.tgz",
            None))
        (fun w _ => files w).

(** The computation extends the trace, and the subprocesses it adds are
    those of [cmds], in order. *)
Definition spawns {A : Type} (m : M A) (w : World) (cmds : list Cmd) : Prop :=
  exists evs,
    trace (snd (m w)) = trace w ++ evs /\ execs evs = map EvExec cmds.

(** The value [UpdateChartVersion] is given for the secondary version. *)
Definition appVersion_of (version : str) (cfg : Config) : str :=
  if UpdateAppVersion (Version_ cfg) then
    if nonempty (AppVersionFormat (Version_ cfg))
    then strings_ReplaceAll (AppVersionFormat (Version_ cfg))
                            (lit "{{.Version}}") version
    else version
  else [].

(** A parser that reads the raw configuration and nothing else. *)
Definition mapParser : ConfigParser :=
  mkConfigParser (fun raw key _ default => assign (as_string (raw key)) default)
                 (fun raw key default => assign (as_bool (raw key)) default).

(** A post-publish request with dry run set and an empty configuration. *)
Definition dryRunRequest : ExecuteRequest :=
  mkExecuteRequest HookPostPublish (fun _ => None) true (lit "2.0.0").

(** An environment in which no directory can be made. *)
Definition readOnlyEnv : Env :=
  mkEnv (fun dir name => dir ++ lit "/" ++ name)
        (fun _ => (demoChart, None))
        (fun _ _ => None)
        (fun _ e => match e with
                    | EvMkdirAll _ => Some (lit "read-only file system")
                    | _ => None
                    end)
        (fun _ _ _ => (mkResponse 201 [], None))
        (fun _ _ => ([], None))
        (fun w _ => files w).

(** A text of ASCII bytes.  On such a text [strconv.Quote] is Go's [%q];
    beyond it Go escapes invalid UTF-8 and runes that are not printable,
    which the model of [%q] leaves out. *)
Definition ascii_text (s : str) : Prop :=
  Forall (fun c => nat_of_ascii c < 128) s.

(** The secondary version a configuration stands for, for a release
    version: none when its update is off, the release version when no
    format is set, the format itself when it has no opening brace, and the
    format with the release version in the place of its placeholder. *)
Inductive secondary_version (version : str) (cfg : Config) : str -> Prop :=
| sv_off :
    UpdateAppVersion (Version_ cfg) = false ->
    secondary_version version cfg []
| sv_release :
    UpdateAppVersion (Version_ cfg) = true ->
    AppVersionFormat (Version_ cfg) = [] ->
    secondary_version version cfg version
| sv_fixed :
    UpdateAppVersion (Version_ cfg) = true ->
    AppVersionFormat (Version_ cfg) <> [] ->
    ~ In "{"%char (AppVersionFormat (Version_ cfg)) ->
    secondary_version version cfg (AppVersionFormat (Version_ cfg))
| sv_format pre post :
    UpdateAppVersion (Version_ cfg) = true ->
    AppVersionFormat (Version_ cfg) = pre ++ lit "{{.Version}}" ++ post ->
    ~ In "{"%char pre -> ~ In "{"%char post ->
    secondary_version version cfg (pre ++ version ++ post).

(** The placeholder of the format of the secondary version. *)
Definition placeholder : str := lit "{{.Version}}".

(** A configuration whose secondary version is the version after a [v]. *)
Definition formatConfig : Config :=
  mkConfig (lit "charts/app")
           (mkRepositoryConfig (lit "oci") (lit "oci://ghcr.io/org/charts")
                               [] [] [] [])
           (mkVersionConfig true true (lit "v{{.Version}}")) false false false
           false [] [] (mkDependencyConfig false false)
           false [] [] [] [] [] false.

(** * Properties *)

(** A byte or a line that is not among those of a literal. *)
Ltac not_in_literal H :=
  vm_compute in H; repeat (destruct H as [H|H]; [discriminate H|]); exact H.

(** ** Facts about the string functions *)

Lemma HasPrefix_app (p t : str) : strings.HasPrefix (p ++ t) p = true.
Proof.
  induction p as [|c p IH]; simpl; [reflexivity|].
  now rewrite Ascii.eqb_refl, IH.
Qed.

Lemma HasPrefix_true (s p : str) :
  strings.HasPrefix s p = true -> s = p ++ skipn (length p) s.
Proof.
  revert s; induction p as [|c p IH]; intros s H; simpl in *; [reflexivity|].
  destruct s as [|d s]; [discriminate|].
  apply andb_true_iff in H as [Hc Hp].
  apply Ascii.eqb_eq in Hc; subst d.
  now rewrite <- (IH s Hp).
Qed.

Lemma HasPrefix_false (s p : str) :
  strings.HasPrefix s p = false -> forall t, s <> p ++ t.
Proof.
  intros H t ->. now rewrite HasPrefix_app in H.
Qed.

Lemma TrimPrefix_without (s p : str) :
  without_prefix p s (strings.TrimPrefix s p).
Proof.
  unfold without_prefix, strings.TrimPrefix.
  destruct (strings.HasPrefix s p) eqn:H.
  - left. now apply HasPrefix_true.
  - right. split; [now apply HasPrefix_false|reflexivity].
Qed.

Lemma Index_from_first (sub a b : str) :
  forall i s, first_occurrence sub s a b ->
              strings.Index_from i s sub = (i + Z.of_nat (length a))%Z.
Proof.
  induction a as [|c a IH]; intros i s [Hs Hmin].
  - subst s. destruct b, sub; simpl; rewrite ?HasPrefix_app; simpl;
      try rewrite Ascii.eqb_refl; try rewrite HasPrefix_app; simpl; lia.
  - subst s. simpl app.
    destruct (strings.HasPrefix (c :: a ++ sub ++ b) sub) eqn:Hp.
    + apply HasPrefix_true in Hp.
      specialize (Hmin [] _ Hp). simpl in Hmin. lia.
    + cbn [strings.Index_from]. rewrite Hp.
      rewrite (IH (i + 1)%Z (a ++ sub ++ b)).
      * cbn [length]. lia.
      * split; [reflexivity|].
        intros a' b' H'.
        specialize (Hmin (c :: a') b'). simpl in Hmin.
        rewrite H' in Hmin. specialize (Hmin eq_refl). lia.
Qed.

Lemma Index_from_absent (sub : str) :
  forall i s, ~ occurs sub s -> strings.Index_from i s sub = (-1)%Z.
Proof.
  intros i s; revert i; induction s as [|c s IH]; intros i H.
  - cbn [strings.Index_from].
    destruct (strings.HasPrefix [] sub) eqn:Hp; [|reflexivity].
    apply HasPrefix_true in Hp. exfalso; apply H. now exists [], (skipn (length sub) []).
  - cbn [strings.Index_from].
    destruct (strings.HasPrefix (c :: s) sub) eqn:Hp.
    + apply HasPrefix_true in Hp. exfalso; apply H.
      now exists [], (skipn (length sub) (c :: s)).
    + apply IH. intros (a & b & ->). apply H. now exists (c :: a), b.
Qed.

(** An occurrence has a leftmost one. *)
Lemma occurs_first (sub : str) :
  forall s, occurs sub s -> exists a b, first_occurrence sub s a b.
Proof.
  induction s as [|c s IH]; intros (a & b & Hs).
  - exists a, b. split; [exact Hs|].
    destruct a; [simpl; lia | discriminate].
  - destruct (strings.HasPrefix (c :: s) sub) eqn:Hp.
    + apply HasPrefix_true in Hp.
      exists [], (skipn (length sub) (c :: s)). split; [exact Hp|simpl; lia].
    + destruct a as [|d a].
      * exfalso. eapply HasPrefix_false; eauto.
      * injection Hs as <- Hs.
        destruct (IH (ex_intro _ a (ex_intro _ b Hs))) as (a1 & b1 & H1 & Hmin).
        exists (c :: a1), b1. split; [simpl; now rewrite <- H1|].
        intros [|d' a'] b' H'.
        -- exfalso. eapply HasPrefix_false; eauto.
        -- injection H' as <- H'. specialize (Hmin _ _ H'). simpl; lia.
Qed.

Lemma occurs_or_not (sub : str) : forall s, occurs sub s \/ ~ occurs sub s.
Proof.
  induction s as [|c s IH].
  - destruct (strings.HasPrefix [] sub) eqn:Hp.
    + left. apply HasPrefix_true in Hp. now exists [], (skipn (length sub) []).
    + right. intros ([|d a] & b & H); [|discriminate].
      eapply HasPrefix_false; eauto.
  - destruct (strings.HasPrefix (c :: s) sub) eqn:Hp.
    + left. apply HasPrefix_true in Hp.
      now exists [], (skipn (length sub) (c :: s)).
    + destruct IH as [(a & b & ->)|Hn].
      * left. now exists (c :: a), b.
      * right. intros ([|d a] & b & H).
        -- eapply HasPrefix_false; eauto.
        -- injection H as <- H. apply Hn. now exists a, b.
Qed.

Lemma Index_nonneg_iff (s sub : str) :
  (0 <= strings.Index s sub)%Z <-> occurs sub s.
Proof.
  unfold strings.Index. split.
  - intros H.
    destruct (occurs_or_not sub s) as [Ho|Hn]; [exact Ho|].
    rewrite (Index_from_absent sub 0 s Hn) in H. lia.
  - intros Ho. destruct (occurs_first sub s Ho) as (a & b & Hf).
    rewrite (Index_from_first sub a b 0 s Hf). lia.
Qed.

Lemma Contains_iff (s sub : str) :
  strings.Contains s sub = true <-> occurs sub s.
Proof.
  unfold strings.Contains. rewrite Z.leb_le. apply Index_nonneg_iff.
Qed.

Lemma Contains_false (s sub : str) :
  strings.Contains s sub = false <-> ~ occurs sub s.
Proof.
  rewrite <- Contains_iff. destruct (strings.Contains s sub); split; intros;
    try discriminate; try reflexivity; exfalso; auto.
Qed.

Lemma blank_app (a b : str) : blank a -> blank b -> blank (a ++ b).
Proof.
  induction 1; intros Hb; simpl; auto using blank.
Qed.

Lemma trimFront_true_blank :
  forall n s, length s <= n ->
              exists l, s = l ++ strings.trimFront true s /\ blank l.
Proof.
  induction n as [|n IH]; intros s Hn.
  - destruct s; [|simpl in Hn; lia]. exists []. split; [reflexivity|constructor].
  - destruct s as [|c1 s1]; [exists []; split; [reflexivity|constructor]|].
    simpl in Hn. cbn [strings.trimFront].
    destruct (strings.asciiSpace c1) eqn:H1.
    { destruct (IH s1 ltac:(lia)) as (l & Hl & Bl).
      exists (c1 :: l). split; [simpl; now rewrite <- Hl|now constructor]. }
    destruct s1 as [|c2 s2]; [exists []; split; [reflexivity|constructor]|].
    simpl in Hn.
    destruct (strings.space2 c1 c2) eqn:H2.
    { destruct (IH s2 ltac:(lia)) as (l & Hl & Bl).
      exists (c1 :: c2 :: l). split; [simpl; now rewrite <- Hl|now constructor]. }
    destruct s2 as [|c3 s3]; [exists []; split; [reflexivity|constructor]|].
    simpl in Hn.
    destruct (strings.space3 c1 c2 c3) eqn:H3.
    { destruct (IH s3 ltac:(lia)) as (l & Hl & Bl).
      exists (c1 :: c2 :: c3 :: l).
      split; [simpl; now rewrite <- Hl|now constructor]. }
    exists []. split; [reflexivity|constructor].
Qed.

Lemma trimFront_false_blank :
  forall n s, length s <= n ->
              exists l, s = l ++ strings.trimFront false s /\ blank (rev l).
Proof.
  induction n as [|n IH]; intros s Hn.
  - destruct s; [|simpl in Hn; lia]. exists []. split; [reflexivity|constructor].
  - destruct s as [|c1 s1]; [exists []; split; [reflexivity|constructor]|].
    simpl in Hn. cbn [strings.trimFront].
    destruct (strings.asciiSpace c1) eqn:H1.
    { destruct (IH s1 ltac:(lia)) as (l & Hl & Bl).
      exists (c1 :: l). split; [simpl; now rewrite <- Hl|].
      simpl. apply blank_app; [exact Bl|]. constructor; [exact H1|constructor]. }
    destruct s1 as [|c2 s2]; [exists []; split; [reflexivity|constructor]|].
    simpl in Hn.
    destruct (strings.space2 c2 c1) eqn:H2.
    { destruct (IH s2 ltac:(lia)) as (l & Hl & Bl).
      exists (c1 :: c2 :: l). split; [simpl; now rewrite <- Hl|].
      simpl. rewrite <- app_assoc. apply blank_app; [exact Bl|].
      simpl. constructor; [exact H2|constructor]. }
    destruct s2 as [|c3 s3]; [exists []; split; [reflexivity|constructor]|].
    simpl in Hn.
    destruct (strings.space3 c3 c2 c1) eqn:H3.
    { destruct (IH s3 ltac:(lia)) as (l & Hl & Bl).
      exists (c1 :: c2 :: c3 :: l). split; [simpl; now rewrite <- Hl|].
      simpl. rewrite <- !app_assoc. apply blank_app; [exact Bl|].
      simpl. constructor; [exact H3|constructor]. }
    exists []. split; [reflexivity|constructor].
Qed.

(** [TrimSpace] removes a run of white space at each end and nothing else:
    what is between, spaces and colons included, is kept as it is. *)
Lemma TrimSpace_spec (s : str) :
  exists l r, s = l ++ strings.TrimSpace s ++ r /\ blank l /\ blank r.
Proof.
  unfold strings.TrimSpace.
  destruct (trimFront_true_blank (length s) s (le_n _)) as (l & Hl & Bl).
  set (s1 := strings.trimFront true s) in *.
  destruct (trimFront_false_blank (length (rev s1)) (rev s1) (le_n _))
    as (l2 & Hl2 & Bl2).
  exists l, (rev l2). split; [|split; assumption].
  rewrite <- rev_app_distr, <- Hl2, rev_involutive. exact Hl.
Qed.

Lemma skipn_app_length {A : Type} (l r : list A) : skipn (length l) (l ++ r) = r.
Proof.
  rewrite skipn_app, skipn_all, Nat.sub_diag. reflexivity.
Qed.

Lemma str_eqb_refl (s : str) : str_eqb s s = true.
Proof. unfold str_eqb. destruct (list_eq_dec ascii_dec s s); congruence. Qed.

Lemma str_eqb_neq (a b : str) : a <> b -> str_eqb a b = false.
Proof. unfold str_eqb. destruct (list_eq_dec ascii_dec a b); congruence. Qed.

Lemma str_eqb_eq (a b : str) : str_eqb a b = true -> a = b.
Proof. unfold str_eqb. destruct (list_eq_dec ascii_dec a b); congruence. Qed.

Lemma nonempty_true (s : str) : s <> [] -> nonempty s = true.
Proof. destruct s; [congruence|reflexivity]. Qed.

(** ** [TrimSpace] leaves no white space at either end *)


Ltac space_clash Heq :=
  try discriminate Heq; cbn [rev app] in Heq; inversion Heq; subst; congruence.

Lemma trimFront_true_start :
  forall n s, length s <= n ->
              forall e rest, space_rune e -> strings.trimFront true s <> e ++ rest.
Proof.
  induction n as [|n IH]; intros s Hn e rest He.
  - destruct s; [|simpl in Hn; lia]. destruct He; discriminate.
  - destruct s as [|c1 s1]; [destruct He; discriminate|].
    simpl in Hn. cbn [strings.trimFront].
    destruct (strings.asciiSpace c1) eqn:H1; [apply IH; [lia|exact He]|].
    destruct s1 as [|c2 s2]; [destruct He; intros Heq; space_clash Heq|].
    simpl in Hn.
    destruct (strings.space2 c1 c2) eqn:H2; [apply IH; [lia|exact He]|].
    destruct s2 as [|c3 s3]; [destruct He; intros Heq; space_clash Heq|].
    simpl in Hn.
    destruct (strings.space3 c1 c2 c3) eqn:H3; [apply IH; [lia|exact He]|].
    destruct He; intros Heq; space_clash Heq.
Qed.

Lemma trimFront_false_start :
  forall n s, length s <= n ->
              forall e rest, space_rune e -> strings.trimFront false s <> rev e ++ rest.
Proof.
  induction n as [|n IH]; intros s Hn e rest He.
  - destruct s; [|simpl in Hn; lia]. destruct He; discriminate.
  - destruct s as [|c1 s1]; [destruct He; discriminate|].
    simpl in Hn. cbn [strings.trimFront].
    destruct (strings.asciiSpace c1) eqn:H1; [apply IH; [lia|exact He]|].
    destruct s1 as [|c2 s2]; [destruct He; intros Heq; space_clash Heq|].
    simpl in Hn.
    destruct (strings.space2 c2 c1) eqn:H2; [apply IH; [lia|exact He]|].
    destruct s2 as [|c3 s3]; [destruct He; intros Heq; space_clash Heq|].
    simpl in Hn.
    destruct (strings.space3 c3 c2 c1) eqn:H3; [apply IH; [lia|exact He]|].
    destruct He; intros Heq; space_clash Heq.
Qed.

(** What [TrimSpace] returns has no white-space rune left at its start or
    at its end. *)
Lemma TrimSpace_trimmed (s : str) : trimmed (strings.TrimSpace s).
Proof.
  intros e rest He. unfold strings.TrimSpace.
  set (s1 := strings.trimFront true s).
  destruct (trimFront_false_blank (length (rev s1)) (rev s1) (le_n _))
    as (l2 & Hl2 & _).
  set (t2 := strings.trimFront false (rev s1)) in *.
  assert (Hs1 : s1 = rev t2 ++ rev l2)
    by (rewrite <- rev_app_distr, <- Hl2; symmetry; apply rev_involutive).
  split.
  - intros Heq.
    apply (trimFront_true_start (length s) s (le_n _) e (rest ++ rev l2) He).
    fold s1. rewrite Hs1, Heq. now rewrite <- app_assoc.
  - intros Heq.
    apply (trimFront_false_start (length (rev s1)) (rev s1) (le_n _) e (rev rest) He).
    fold t2. rewrite <- (rev_involutive t2), Heq, rev_app_distr. reflexivity.
Qed.

(** ** Lines *)

Lemma genSplit_nonempty (sep : str) :
  forall s n k, strings.genSplit sep n k s <> [].
Proof.
  induction s as [|c s IH]; intros n k; cbn [strings.genSplit]; [discriminate|].
  destruct k; [|apply IH].
  destruct n; [discriminate|].
  destruct (strings.HasPrefix (c :: s) sep); [discriminate|].
  specialize (IH (S n) 0). destruct (strings.genSplit sep (S n) 0 s);
    [contradiction|discriminate].
Qed.

Lemma Join_push_head (c : ascii) (sep : str) (ps : list str) :
  ps <> [] -> strings.Join (strings.push_head c ps) sep = c :: strings.Join ps sep.
Proof.
  destruct ps as [|p0 [|p1 ps]]; [contradiction| |]; reflexivity.
Qed.

Lemma genSplit_Join (c : ascii) :
  forall s n, length s <= n -> strings.Join (strings.genSplit [c] n 0 s) [c] = s.
Proof.
  induction s as [|x s IH]; intros n Hn; [reflexivity|].
  cbn [length] in Hn. destruct n as [|n]; [lia|].
  cbn [strings.genSplit strings.HasPrefix length Nat.sub].
  destruct (Ascii.eqb_spec x c) as [->|Hx]; cbn [andb].
  - pose proof (genSplit_nonempty [c] s n 0) as Hne.
    specialize (IH n ltac:(lia)).
    destruct (strings.genSplit [c] n 0 s) as [|p ps]; [contradiction|].
    change (strings.Join ([] :: p :: ps) [c]) with (c :: strings.Join (p :: ps) [c]).
    now rewrite IH.
  - rewrite Join_push_head by apply genSplit_nonempty.
    now rewrite (IH (S n) ltac:(lia)).
Qed.

Lemma genSplit_no_sep (c : ascii) :
  forall s n, length s <= n ->
              Forall (fun l => ~ In c l) (strings.genSplit [c] n 0 s).
Proof.
  induction s as [|x s IH]; intros n Hn.
  - repeat constructor. intros [].
  - cbn [length] in Hn. destruct n as [|n]; [lia|].
    cbn [strings.genSplit strings.HasPrefix length Nat.sub].
    destruct (Ascii.eqb_spec x c) as [->|Hx]; cbn [andb].
    + constructor; [intros []|]. apply IH. lia.
    + specialize (IH (S n) ltac:(lia)).
      destruct (strings.genSplit [c] (S n) 0 s) as [|p ps];
        cbn [strings.push_head].
      * constructor; [|constructor]. intros [H|[]]. congruence.
      * inversion IH as [|? ? Hp Hps]; subst. constructor; [|exact Hps].
        intros [H|H]; [congruence|contradiction].
Qed.

Lemma Join_lines (text : str) : strings.Join (lines text) [NL] = text.
Proof. apply genSplit_Join. apply le_n. Qed.

Lemma lines_no_nl (text : str) : Forall (fun l => ~ In NL l) (lines text).
Proof. apply genSplit_no_sep. apply le_n. Qed.

Lemma Join_flat_map (f : str -> list str) (ls : list str) :
  (forall l, f l <> []) ->
  strings.Join (map (fun l => strings.Join (f l) [NL]) ls) [NL]
  = strings.Join (flat_map f ls) [NL].
Proof.
  intros Hf.
  assert (Happ : forall a b : list str,
             a <> [] -> b <> [] ->
             strings.Join (a ++ b) [NL]
             = strings.Join a [NL] ++ NL :: strings.Join b [NL]).
  { induction a as [|x a IHa]; intros b Ha Hb; [contradiction|].
    destruct a as [|y a].
    - destruct b; [contradiction|reflexivity].
    - change (strings.Join ((x :: y :: a) ++ b) [NL])
        with (x ++ NL :: strings.Join ((y :: a) ++ b) [NL]).
      rewrite IHa by (assumption || discriminate).
      change (strings.Join (x :: y :: a) [NL])
        with (x ++ NL :: strings.Join (y :: a) [NL]).
      now rewrite <- app_assoc. }
  induction ls as [|l ls IH]; [reflexivity|].
  destruct ls as [|l2 ls].
  - cbn [map flat_map strings.Join]. now rewrite app_nil_r.
  - change (flat_map f (l :: l2 :: ls)) with (f l ++ flat_map f (l2 :: ls)).
    rewrite Happ.
    + rewrite <- IH. reflexivity.
    + apply Hf.
    + cbn [flat_map]. intros H. apply app_eq_nil in H as [H _]. now apply Hf in H.
Qed.

(** The first piece of [SplitN(s, "/", 2)]. *)
Lemma SplitN_2_head (c : ascii) (s : str) :
  exists tail,
    s = hd [] (strings.SplitN s [c] 2) ++ tail /\
    ~ In c (hd [] (strings.SplitN s [c] 2)) /\
    (tail = [] \/ exists t, tail = c :: t).
Proof.
  unfold strings.SplitN. simpl.
  induction s as [|x s IH].
  - exists []. simpl. intuition.
  - cbn [strings.genSplit strings.HasPrefix].
    destruct (Ascii.eqb x c) eqn:Hx.
    + apply Ascii.eqb_eq in Hx; subst x. simpl.
      exists (c :: s). split; [reflexivity|]. split; [tauto|]. right. now exists s.
    + simpl. destruct IH as (tail & Hs & Hin & Ht).
      exists tail.
      assert (Hh : hd [] (strings.push_head x (strings.genSplit [c] 1 0 s))
                   = x :: hd [] (strings.genSplit [c] 1 0 s))
        by (destruct (strings.genSplit [c] 1 0 s); reflexivity).
      rewrite Hh. split; [simpl; now rewrite <- Hs|]. split; [|exact Ht].
      intros [->|Hc]; [now rewrite Ascii.eqb_refl in Hx|auto].
Qed.

(** *** Lines of a joined text *)

Lemma genSplit_line (c : ascii) (rest : str) (n : nat) :
  forall l,
    ~ In c l ->
    strings.genSplit [c] n 0 (l ++ rest)
    = match strings.genSplit [c] n 0 rest with
      | p :: ps => (l ++ p) :: ps
      | [] => [l]
      end.
Proof.
  induction l as [|x l IH]; intros Hl.
  - cbn [app]. pose proof (genSplit_nonempty [c] rest n 0) as Hne.
    now destruct (strings.genSplit [c] n 0 rest).
  - assert (Hx : Ascii.eqb x c = false)
      by (apply Ascii.eqb_neq; intros ->; apply Hl; now left).
    assert (Hl' : ~ In c l) by (intros H; apply Hl; now right).
    cbn [app strings.genSplit]. destruct n as [|n].
    + destruct rest as [|y rest]; reflexivity.
    + cbn [strings.HasPrefix]. rewrite Hx. cbn [andb]. rewrite (IH Hl').
      pose proof (genSplit_nonempty [c] rest (S n) 0) as Hne.
      now destruct (strings.genSplit [c] (S n) 0 rest).
Qed.

Lemma genSplit_of_Join (c : ascii) (ls : list str) :
  ls <> [] -> Forall (fun l => ~ In c l) ls ->
  forall n, length ls - 1 <= n ->
            strings.genSplit [c] n 0 (strings.Join ls [c]) = ls.
Proof.
  intros Hne Hls. induction Hls as [|l ls Hl Hls IH]; [contradiction|].
  intros n Hn. destruct ls as [|l2 ls].
  - cbn [strings.Join]. rewrite <- (app_nil_r l) at 1.
    rewrite (genSplit_line c [] n l Hl). cbn [strings.genSplit].
    now rewrite app_nil_r.
  - change (strings.Join (l :: l2 :: ls) [c])
      with (l ++ c :: strings.Join (l2 :: ls) [c]).
    rewrite (genSplit_line c _ n l Hl).
    cbn [length] in Hn. destruct n as [|n]; [lia|].
    cbn [strings.genSplit strings.HasPrefix]. rewrite Ascii.eqb_refl.
    cbn [andb length Nat.sub].
    rewrite (IH ltac:(discriminate) n ltac:(cbn [length]; lia)).
    now rewrite app_nil_r.
Qed.

Lemma Join_length (c : ascii) (ls : list str) :
  length ls - 1 <= length (strings.Join ls [c]).
Proof.
  induction ls as [|l ls IH]; [simpl; lia|].
  destruct ls as [|l2 ls]; [simpl; lia|].
  change (strings.Join (l :: l2 :: ls) [c])
    with (l ++ c :: strings.Join (l2 :: ls) [c]).
  rewrite length_app. cbn [length] in *. lia.
Qed.

(** Splitting the joined lines gives the lines back. *)
Lemma lines_Join (ls : list str) :
  ls <> [] -> Forall (fun l => ~ In NL l) ls -> lines (strings.Join ls [NL]) = ls.
Proof.
  intros Hne Hls. unfold lines, strings.Split.
  apply genSplit_of_Join; [exact Hne|exact Hls|apply Join_length].
Qed.

Lemma lines_nonempty (text : str) : lines text <> [].
Proof. apply genSplit_nonempty. Qed.

(** ** helm.go: [extractPackagePath] *)

Lemma marker_length : len marker = 12%Z.
Proof. reflexivity. Qed.

Lemma extractPackagePath_loop_found (output : str) (line a b : str) :
  first_occurrence marker line a b ->
  forall pre post,
    (forall l, In l pre -> ~ occurs marker l) ->
    extractPackagePath_loop output (pre ++ line :: post)
    = (strings.TrimSpace b, None).
Proof.
  intros Hf pre post. induction pre as [|l pre IH]; intros Hpre.
  - cbn [app extractPackagePath_loop].
    assert (Ho : occurs marker line) by (destruct Hf as [-> _]; now exists a, b).
    apply Contains_iff in Ho. rewrite Ho.
    unfold strings.Index. rewrite (Index_from_first marker a b 0 line Hf).
    replace (0 + Z.of_nat (length a) =? -1)%Z with false
      by (symmetry; apply Z.eqb_neq; lia).
    cbn [negb]. do 2 f_equal.
    unfold slice_from. rewrite marker_length.
    replace (Z.to_nat (0 + Z.of_nat (length a) + 12)) with (length a + 12) by lia.
    destruct Hf as [-> _].
    rewrite skipn_app, (skipn_all2 a) by lia.
    replace (length a + 12 - length a) with 12 by lia. reflexivity.
  - cbn [app extractPackagePath_loop].
    assert (Hn : strings.Contains l marker = false)
      by (apply Contains_false, Hpre; now left).
    rewrite Hn. apply IH. intros l' Hl'. apply Hpre. now right.
Qed.

Lemma extractPackagePath_loop_absent (output : str) (lines : list str) :
  (forall l, In l lines -> ~ occurs marker l) ->
  extractPackagePath_loop output lines
  = ([], Some (lit "could not determine package path from output: " ++ output)).
Proof.
  induction lines as [|l lines IH]; intros H; [reflexivity|].
  cbn [extractPackagePath_loop].
  assert (Hn : strings.Contains l marker = false)
    by (apply Contains_false, H; now left).
  rewrite Hn. apply IH. intros l' Hl'. apply H. now right.
Qed.

(** The lines up to the first one that has the marker. *)
Lemma first_marker_line (lines : list str) :
  (forall l, In l lines -> ~ occurs marker l) \/
  exists pre line post,
    lines = pre ++ line :: post /\
    (forall l, In l pre -> ~ occurs marker l) /\ occurs marker line.
Proof.
  induction lines as [|l lines IH]; [left; intros ? []|].
  destruct (occurs_or_not marker l) as [Ho|Hn].
  - right. exists [], l, lines. split; [reflexivity|]. split; [intros ? []|exact Ho].
  - destruct IH as [Hall|(pre & line & post & -> & Hpre & Ho)].
    + left. intros l' [<-|Hl']; auto.
    + right. exists (l :: pre), line, post.
      split; [reflexivity|]. split; [|exact Ho].
      intros l' [<-|Hl']; auto.
Qed.

(** C3: the lines of an output are the texts between its newlines.  Where
    the output is made of newline-free lines joined by newlines,
    [extractPackagePath] answers with the text after the leftmost marker of
    the first line that has one, with the white space at its two ends
    removed, all of it and nothing else (spaces and colons inside the path
    stay, and what the later lines hold does not count); it answers with an
    error, which quotes the output, exactly when no line has the marker,
    and so on the empty output. *)
Theorem extractPackagePath_spec (output : str) :
  (forall pre line post a b,
      output = strings.Join (pre ++ line :: post) [NL] ->
      (forall l, In l (pre ++ line :: post) -> ~ In NL l) ->
      (forall l, In l pre -> ~ occurs marker l) ->
      first_occurrence marker line a b ->
      extractPackagePath output = (strings.TrimSpace b, None) /\
      trimmed (strings.TrimSpace b) /\
      exists l r, b = l ++ strings.TrimSpace b ++ r /\ blank l /\ blank r) /\
  (forall ls,
      output = strings.Join ls [NL] ->
      (forall l, In l ls -> ~ In NL l) ->
      ((exists msg, extractPackagePath output = ([], Some msg)) <->
       (forall l, In l ls -> ~ occurs marker l)) /\
      ((forall l, In l ls -> ~ occurs marker l) ->
       extractPackagePath output
       = ([], Some (lit "could not determine package path from output: "
                        ++ output)))) /\
  (exists msg, extractPackagePath [] = ([], Some msg)).
Proof.
  split; [|split].
  - intros pre line post a b Hout Hnl Hpre Hf.
    split; [|split; [apply TrimSpace_trimmed|apply TrimSpace_spec]].
    unfold extractPackagePath. change (lit (String NL EmptyString)) with [NL].
    fold (lines output). rewrite Hout, lines_Join.
    + now apply (extractPackagePath_loop_found _ line a b).
    + now destruct pre.
    + now apply Forall_forall.
  - intros ls Hout Hnl.
    assert (Hrun : extractPackagePath output
                   = extractPackagePath_loop output ls \/ ls = []).
    { destruct ls as [|l ls]; [now right|left].
      unfold extractPackagePath. change (lit (String NL EmptyString)) with [NL].
      fold (lines output). rewrite Hout at 2. rewrite lines_Join;
        [reflexivity|discriminate|now apply Forall_forall]. }
    assert (Habsent : (forall l, In l ls -> ~ occurs marker l) ->
                      extractPackagePath output
                      = ([], Some (lit "could not determine package path from output: "
                                       ++ output))).
    { intros Hall. destruct Hrun as [Hrun| ->].
      - rewrite Hrun. now apply extractPackagePath_loop_absent.
      - cbn [strings.Join] in Hout. subst output. reflexivity. }
    split; [|exact Habsent]. split.
    + intros [msg Hmsg]. destruct Hrun as [Hrun| ->]; [|intros l []].
      destruct (first_marker_line ls)
        as [Hall|(pre & line & post & Hsplit & Hpre & Ho)]; [exact Hall|].
      destruct (occurs_first marker line Ho) as (a & b & Hf).
      rewrite Hrun, Hsplit in Hmsg.
      rewrite (extractPackagePath_loop_found output line a b Hf pre post Hpre)
        in Hmsg.
      discriminate.
    + intros Hall. eexists. now apply Habsent.
  - eexists. reflexivity.
Qed.

Lemma extractPackagePath_spec_witness :
  extractPackagePath
    (lit "Updating dependencies..." ++ [NL]
         ++ lit "Successfully packaged chart and saved it to: /a/b c.tgz " ++ [NL]
         ++ lit "Done in 2s, saved it to: elsewhere")
  = (lit "/a/b c.tgz", None).
Proof.
  pose proof (extractPackagePath_spec
                (lit "Updating dependencies..." ++ [NL]
                     ++ lit "Successfully packaged chart and saved it to: /a/b c.tgz "
                     ++ [NL] ++ lit "Done in 2s, saved it to: elsewhere"))
    as [H _].
  destruct (H [lit "Updating dependencies..."]
              (lit "Successfully packaged chart and saved it to: /a/b c.tgz ")
              [lit "Done in 2s, saved it to: elsewhere"]
              (lit "Successfully packaged chart and ") (lit " /a/b c.tgz "))
    as [Hres _].
  - reflexivity.
  - intros l [<-|[<-|[<-|[]]]]; intros Hin; not_in_literal Hin.
  - intros l [<-|[]] Ho. apply Contains_iff in Ho. discriminate Ho.
  - split; [reflexivity|].
    intros a' b' Heq.
    destruct (Nat.le_gt_cases 32 (length a')) as [Hle|Hgt]; [exact Hle|].
    exfalso.
    do 32 (destruct a' as [|? a']; [vm_compute in Heq; discriminate|]);
      simpl in Hgt; lia.
  - exact Hres.
Defined.

(** ** Facts about the patterns of chart.go *)

Lemma versionPattern_shape : versionPattern = fieldPattern (lit "version:").
Proof. reflexivity. Qed.

Lemma appVersionPattern_shape :
  regexp.MustCompile (lit "(?m)^appVersion:\s*.+$") = fieldPattern (lit "appVersion:").
Proof. reflexivity. Qed.

Lemma lastOf_app (a b : str) (p : option ascii) :
  lastOf (a ++ b) p = lastOf b (lastOf a p).
Proof. unfold lastOf. apply fold_left_app. Qed.

Lemma lastOf_not_nl (l : str) (c : ascii) :
  c <> NL -> ~ In NL l -> exists d, lastOf l (Some c) = Some d /\ d <> NL.
Proof.
  revert c; induction l as [|x l IH]; intros c Hc Hl.
  - now exists c.
  - apply (IH x); [intros ->; apply Hl; now left|intros H; apply Hl; now right].
Qed.

Lemma run_lits (key : str) (re : regexp.Regexp) :
  forall p t,
    regexp.run (map regexp.Lit key ++ re) p (key ++ t)
    = option_map (Nat.add (length key)) (regexp.run re (lastOf key p) t).
Proof.
  induction key as [|k key IH]; intros p t.
  - simpl. now destruct (regexp.run re p t).
  - cbn [map app regexp.run]. rewrite Ascii.eqb_refl, IH.
    change (lastOf (k :: key) p) with (lastOf key (Some k)).
    cbn [length]. now destruct (regexp.run re (lastOf key (Some k)) t).
Qed.

Lemma run_lits_fail (key : str) (re : regexp.Regexp) :
  forall p s,
    strings.HasPrefix s key = false ->
    regexp.run (map regexp.Lit key ++ re) p s = None.
Proof.
  induction key as [|k key IH]; intros p s H; [discriminate|].
  cbn [map app regexp.run]. destruct s as [|c s]; [reflexivity|].
  cbn [strings.HasPrefix] in H.
  destruct (Ascii.eqb c k); [|reflexivity].
  now rewrite IH.
Qed.

Lemma greedy_take (cls : ascii -> bool) (k : option ascii -> str -> option nat)
      (s : str) (n : nat) :
  match s with [] => True | c :: _ => cls c = false end ->
  forall w p,
    Forall (fun x => cls x = true) w ->
    k (lastOf w p) s = Some n ->
    regexp.greedy cls k p (w ++ s) = Some (length w + n).
Proof.
  intros Hs. induction w as [|x w IH]; intros p Hw Hk.
  - cbn [app lastOf fold_left length] in *.
    destruct s as [|c s]; cbn [regexp.greedy]; [exact Hk|]. now rewrite Hs.
  - inversion Hw as [|? ? Hx Hw']; subst.
    cbn [app regexp.greedy]. rewrite Hx.
    now rewrite (IH (Some x) Hw' Hk).
Qed.

Lemma perl_space_not_nl (c : ascii) :
  regexp.perl_space c = false -> regexp.any_not_nl c = true.
Proof.
  unfold regexp.any_not_nl. destruct (Ascii.eqb_spec c NL) as [->|]; [|reflexivity].
  discriminate.
Qed.

Lemma any_not_nl_iff (c : ascii) : regexp.any_not_nl c = true <-> c <> NL.
Proof.
  unfold regexp.any_not_nl. destruct (Ascii.eqb_spec c NL); simpl; split;
    congruence.
Qed.

Lemma line_end_head (rest : str) :
  line_end rest ->
  match rest with [] => True | c :: _ => regexp.any_not_nl c = false end.
Proof.
  intros [->|[t ->]]; [exact I|reflexivity].
Qed.

Lemma run_end_line (p : option ascii) (rest : str) :
  line_end rest -> regexp.run [regexp.EndLine] p rest = Some 0.
Proof.
  intros [->|[t ->]]; reflexivity.
Qed.

(** A line that starts with the key and carries a value is matched from its
    first byte to its last. *)
Lemma run_field_line (key l rest : str) (p : option ascii) :
  bol p -> ~ In NL l -> line_end rest -> has_value key l ->
  regexp.run (fieldPattern key) p (l ++ rest) = Some (length l).
Proof.
  intros Hp Hnl Hrest (w & c & r & -> & Hw & Hc).
  unfold fieldPattern.
  assert (Hgo : regexp.run
                  (map regexp.Lit key
                       ++ [regexp.Star regexp.perl_space;
                           regexp.Plus regexp.any_not_nl; regexp.EndLine])
                  p ((key ++ w ++ c :: r) ++ rest)
                = Some (length (key ++ w ++ c :: r))).
  { rewrite <- app_assoc, run_lits.
    cbn [regexp.run].
    rewrite <- app_assoc.
    rewrite (greedy_take regexp.perl_space _ ((c :: r) ++ rest) (S (length r))).
    - cbn [option_map]. f_equal. rewrite !length_app. cbn [length]. lia.
    - exact Hc.
    - exact Hw.
    - cbn [app regexp.run]. rewrite (perl_space_not_nl c Hc).
      erewrite (greedy_take regexp.any_not_nl _ rest 0 (line_end_head rest Hrest)
                            r (Some c)).
      + cbn [option_map]. f_equal. lia.
      + apply Forall_forall. intros x Hx. apply any_not_nl_iff.
        intros ->. apply Hnl. rewrite !in_app_iff. right. right. now right.
      + destruct Hrest as [->|[t ->]]; reflexivity. }
  cbn [regexp.run]. destruct Hp as [->| ->]; [exact Hgo|].
  rewrite Ascii.eqb_refl. exact Hgo.
Qed.

Lemma run_field_no_prefix (key s : str) (p : option ascii) :
  strings.HasPrefix s key = false -> regexp.run (fieldPattern key) p s = None.
Proof.
  intros H. unfold fieldPattern. cbn [regexp.run].
  rewrite (run_lits_fail key _ p s H).
  destruct p as [c|]; [|reflexivity]. now destruct (Ascii.eqb c NL).
Qed.

Lemma run_field_inside (key s : str) (c : ascii) :
  c <> NL -> regexp.run (fieldPattern key) (Some c) s = None.
Proof.
  intros H. unfold fieldPattern. cbn [regexp.run].
  destruct (Ascii.eqb_spec c NL); [contradiction|reflexivity].
Qed.

(** A prefix of a line followed by a line end is a prefix of the line, for
    a key without newline. *)
Lemma HasPrefix_line (key l rest : str) :
  ~ In NL key -> line_end rest ->
  strings.HasPrefix (l ++ rest) key = true -> strings.HasPrefix l key = true.
Proof.
  intros Hk Hrest. revert l. induction key as [|k key IH]; intros l H.
  - reflexivity.
  - destruct l as [|c l].
    + destruct Hrest as [->|[t ->]]; [discriminate|].
      cbn [app strings.HasPrefix] in H. apply andb_true_iff in H as [H _].
      apply Ascii.eqb_eq in H. subst k. exfalso. apply Hk. now left.
    + cbn [app strings.HasPrefix] in *. apply andb_true_iff in H as [Hc H].
      rewrite Hc. cbn [andb]. apply IH; [|exact H].
      intros Hin. apply Hk. now right.
Qed.

Lemma HasPrefix_line_false (key l rest : str) :
  ~ In NL key -> line_end rest ->
  strings.HasPrefix l key = false -> strings.HasPrefix (l ++ rest) key = false.
Proof.
  intros Hk Hrest H.
  destruct (strings.HasPrefix (l ++ rest) key) eqn:Hp; [|reflexivity].
  rewrite (HasPrefix_line key l rest Hk Hrest Hp) in H. discriminate.
Qed.

Section FieldPattern.

Variable key : str.
Hypothesis key_nonempty : key <> [].
Hypothesis key_no_nl : ~ In NL key.

Let re := fieldPattern key.

Lemma run_field_newline (p : option ascii) (t : str) :
  regexp.run re p (NL :: t) = None.
Proof.
  apply run_field_no_prefix.
  destruct key as [|k key']; [contradiction|].
  cbn [strings.HasPrefix].
  destruct (Ascii.eqb_spec NL k) as [<-|]; [|reflexivity].
  exfalso. apply key_no_nl. now left.
Qed.

Lemma run_field_empty (p : option ascii) : regexp.run re p [] = None.
Proof.
  apply run_field_no_prefix. destruct key; [contradiction|reflexivity].
Qed.

Lemma match_inside (l rest : str) :
  forall c,
    c <> NL -> ~ In NL l -> rest <> [] ->
    regexp.match_from re (Some c) (l ++ rest)
    = regexp.match_from re (lastOf l (Some c)) rest.
Proof.
  induction l as [|x l IH]; intros c Hc Hl Hrest; [reflexivity|].
  cbn [app regexp.match_from].
  unfold re at 1. rewrite (run_field_inside key _ c Hc). fold re.
  apply IH; [intros ->; apply Hl; now left|intros H; apply Hl; now right|exact Hrest].
Qed.

Lemma match_inside_end (l : str) :
  forall c, c <> NL -> ~ In NL l -> regexp.match_from re (Some c) l = false.
Proof.
  induction l as [|x l IH]; intros c Hc Hl.
  - cbn [regexp.match_from]. unfold re. now rewrite (run_field_inside key _ c Hc).
  - cbn [regexp.match_from].
    unfold re at 1. rewrite (run_field_inside key _ c Hc). fold re.
    apply IH; [intros ->; apply Hl; now left|intros H; apply Hl; now right].
Qed.

(** [Match] on the text made of the lines [ls]: some line starts with the
    key. *)
Lemma match_lines (ls : list str) :
  field_lines key ls ->
  forall p,
    bol p ->
    regexp.match_from re p (strings.Join ls [NL])
    = existsb (fun l => strings.HasPrefix l key) ls.
Proof.
  induction 1 as [|l ls [Hl Hval] Hls IH]; intros p Hp.
  - cbn [strings.Join regexp.match_from existsb]. now rewrite run_field_empty.
  - cbn [existsb].
    assert (Hend : line_end (match ls with
                             | [] => []
                             | _ :: _ => NL :: strings.Join ls [NL]
                             end))
      by (destruct ls; [now left|right; eexists; reflexivity]).
    assert (Hjoin : strings.Join (l :: ls) [NL]
                    = l ++ match ls with
                           | [] => []
                           | _ :: _ => NL :: strings.Join ls [NL]
                           end)
      by (destruct ls; [symmetry; apply app_nil_r|reflexivity]).
    rewrite Hjoin.
    destruct (strings.HasPrefix l key) eqn:Hpre.
    + pose proof (run_field_line key l _ p Hp Hl Hend (Hval eq_refl)) as Hrun.
      fold re in Hrun.
      destruct l as [|x l]; [destruct key; [contradiction|discriminate]|].
      cbn [app regexp.match_from]. cbn [app] in Hrun.
      match goal with
      | |- match ?t with _ => _ end = _ =>
        replace t with (Some (length (x :: l))) by (symmetry; exact Hrun)
      end.
      reflexivity.
    + cbn [orb].
      pose proof (HasPrefix_line_false key l _ key_no_nl Hend Hpre) as Hn.
      destruct ls as [|l2 ls].
      * rewrite app_nil_r in *. cbn [existsb].
        destruct l as [|x l].
        -- cbn [regexp.match_from]. now rewrite run_field_empty.
        -- cbn [regexp.match_from].
           unfold re at 1. rewrite (run_field_no_prefix key _ p Hn). fold re.
           apply match_inside_end;
             [intros ->; apply Hl; now left|intros H; apply Hl; now right].
      * assert (Hnl : forall q,
                   regexp.match_from re q (NL :: strings.Join (l2 :: ls) [NL])
                   = existsb (fun l0 => strings.HasPrefix l0 key) (l2 :: ls)).
        { intros q. cbn [regexp.match_from]. rewrite run_field_newline.
          apply IH. right. reflexivity. }
        destruct l as [|x l]; [apply Hnl|].
        cbn [app regexp.match_from].
        unfold re at 1. cbn [app] in Hn. rewrite (run_field_no_prefix key _ p Hn).
        fold re. rewrite match_inside; [apply Hnl| | |discriminate].
        -- intros ->. apply Hl. now left.
        -- intros H. apply Hl. now right.
Qed.

Variable repl : str.

Let subst_line (l : str) : str :=
  if strings.HasPrefix l key then regexp.expand repl l else l.

Lemma replaceAll_skip (m rest : str) :
  forall p,
    regexp.replaceAll_go re repl p (length m) (m ++ rest)
    = regexp.replaceAll_go re repl (lastOf m p) 0 rest.
Proof.
  induction m as [|x m IH]; intros p.
  - destruct rest; reflexivity.
  - cbn [length app regexp.replaceAll_go]. now rewrite IH.
Qed.

Lemma replaceAll_inside (l rest : str) :
  forall c,
    c <> NL -> ~ In NL l ->
    regexp.replaceAll_go re repl (Some c) 0 (l ++ rest)
    = l ++ regexp.replaceAll_go re repl (lastOf l (Some c)) 0 rest.
Proof.
  induction l as [|x l IH]; intros c Hc Hl; [reflexivity|].
  cbn [app regexp.replaceAll_go].
  unfold re at 1. rewrite (run_field_inside key _ c Hc).
  fold re. rewrite IH.
  - reflexivity.
  - intros ->. apply Hl. now left.
  - intros H. apply Hl. now right.
Qed.

(** One line, read from its beginning: replaced when it starts with the
    key, copied otherwise. *)
Lemma replaceAll_line (l rest : str) (p : option ascii) :
  bol p -> ~ In NL l -> line_end rest ->
  (strings.HasPrefix l key = true -> has_value key l) ->
  regexp.replaceAll_go re repl p 0 (l ++ rest)
  = subst_line l ++ regexp.replaceAll_go re repl (lastOf l p) 0 rest.
Proof.
  intros Hp Hl Hrest Hval. unfold subst_line.
  destruct (strings.HasPrefix l key) eqn:Hpre.
  - pose proof (run_field_line key l rest p Hp Hl Hrest (Hval eq_refl)) as Hrun.
    fold re in Hrun.
    destruct l as [|x l].
    { destruct key; [contradiction|discriminate]. }
    cbn [app regexp.replaceAll_go]. cbn [app] in Hrun. rewrite Hrun.
    cbn [length]. rewrite replaceAll_skip.
    change (x :: l ++ rest) with ((x :: l) ++ rest).
    replace (S (length l)) with (length (x :: l)) by reflexivity.
    rewrite firstn_app, firstn_all, Nat.sub_diag. cbn [firstn].
    rewrite app_nil_r. reflexivity.
  - destruct l as [|x l]; [reflexivity|].
    cbn [app regexp.replaceAll_go].
    pose proof (HasPrefix_line_false key (x :: l) rest key_no_nl Hrest Hpre) as Hn.
    unfold re at 1. cbn [app] in Hn. rewrite (run_field_no_prefix key _ p Hn).
    fold re. rewrite replaceAll_inside.
    + reflexivity.
    + intros ->. apply Hl. now left.
    + intros H. apply Hl. now right.
Qed.

Lemma lastOf_bol_newline (l : str) (p : option ascii) :
  bol (lastOf (l ++ [NL]) p).
Proof. rewrite lastOf_app. right. reflexivity. Qed.

(** The text made of the lines [ls]: every line that starts with the key is
    replaced, every other line is copied. *)
Lemma replaceAll_lines (ls : list str) :
  field_lines key ls ->
  forall p,
    bol p ->
    regexp.replaceAll_go re repl p 0 (strings.Join ls [NL])
    = strings.Join (map subst_line ls) [NL].
Proof.
  induction 1 as [|l ls [Hl Hval] Hls IH]; intros p Hp; [reflexivity|].
  destruct ls as [|l2 ls].
  - cbn [strings.Join map].
    rewrite <- (app_nil_r l) at 1.
    rewrite (replaceAll_line l [] p Hp Hl (or_introl eq_refl) Hval).
    cbn [regexp.replaceAll_go]. apply app_nil_r.
  - change (strings.Join (l :: l2 :: ls) [NL])
      with (l ++ NL :: strings.Join (l2 :: ls) [NL]).
    change (strings.Join (map subst_line (l :: l2 :: ls)) [NL])
      with (subst_line l ++ NL :: strings.Join (map subst_line (l2 :: ls)) [NL]).
    rewrite (replaceAll_line l _ p Hp Hl (or_intror (ex_intro _ _ eq_refl)) Hval).
    f_equal. cbn [regexp.replaceAll_go].
    rewrite run_field_newline. f_equal.
    apply IH. right. reflexivity.
Qed.

End FieldPattern.

(** *** Which lines match, taken alone *)

Lemma value_tail_nonempty (t : str) :
  ~ In NL t -> t <> [] ->
  forall p,
    exists n,
      regexp.run [regexp.Star regexp.perl_space; regexp.Plus regexp.any_not_nl;
                  regexp.EndLine] p t = Some n.
Proof.
  cbn [regexp.run].
  set (k := fun (prev : option ascii) (s : str) =>
              match s with
              | [] => None
              | c :: s' =>
                if regexp.any_not_nl c
                then option_map S
                       (regexp.greedy regexp.any_not_nl
                          (fun (_ : option ascii) (s0 : str) =>
                             match s0 with
                             | [] => Some 0
                             | c0 :: _ => if Ascii.eqb c0 NL then Some 0 else None
                             end) (Some c) s')
                else None
              end).
  assert (Hk : forall p x t', ~ In NL (x :: t') -> exists n, k p (x :: t') = Some n).
  { intros p x t' Hnl. unfold k.
    assert (Hx : regexp.any_not_nl x = true)
      by (apply any_not_nl_iff; intros ->; apply Hnl; now left).
    rewrite Hx.
    rewrite <- (app_nil_r t').
    erewrite (greedy_take regexp.any_not_nl _ [] 0 I t' (Some x)).
    - eexists. reflexivity.
    - apply Forall_forall. intros y Hy. apply any_not_nl_iff.
      intros ->. apply Hnl. now right.
    - reflexivity. }
  induction t as [|x t IH]; intros Hnl Hne p; [contradiction|].
  cbn [regexp.greedy].
  destruct (regexp.perl_space x); [|now apply Hk].
  destruct t as [|y t].
  - cbn [regexp.greedy]. change (k (Some x) []) with (@None nat). now apply Hk.
  - destruct (IH ltac:(intros H; apply Hnl; now right) ltac:(discriminate) (Some x))
      as [n Hn].
    rewrite Hn. eexists. reflexivity.
Qed.

(** A line without newline matches [^key\s*.+$] exactly when it is the key
    followed by at least one byte; with nothing after the key it does not,
    and with white space only it does, though it carries no value. *)
Lemma line_matches_iff (key l : str) :
  key <> [] -> ~ In NL key -> ~ In NL l ->
  line_matches (fieldPattern key) l = true <->
  exists t, t <> [] /\ l = key ++ t.
Proof.
  intros Hkey Hknl Hl. unfold line_matches, regexp.Match. split.
  - intros Hm.
    assert (Hrest : forall c l', l = c :: l' ->
                                 regexp.match_from (fieldPattern key) (Some c) l'
                                 = false).
    { intros c l' ->. apply (match_inside_end key).
      - intros ->. apply Hl. now left.
      - intros H. apply Hl. now right. }
    destruct (strings.HasPrefix l key) eqn:Hp.
    + apply HasPrefix_true in Hp.
      exists (skipn (length key) l). split; [|exact Hp].
      intros Ht. rewrite Ht, app_nil_r in Hp.
      assert (Hrun : regexp.run (fieldPattern key) None l = None).
      { rewrite Hp. unfold fieldPattern. cbn [regexp.run].
        rewrite <- (app_nil_r key) at 2. rewrite run_lits. reflexivity. }
      destruct l as [|c l']; cbn [regexp.match_from] in Hm; rewrite Hrun in Hm;
        [discriminate|].
      rewrite (Hrest c l' eq_refl) in Hm. discriminate.
    + pose proof (run_field_no_prefix key l None Hp) as Hrun.
      destruct l as [|c l']; cbn [regexp.match_from] in Hm; rewrite Hrun in Hm;
        [discriminate|].
      rewrite (Hrest c l' eq_refl) in Hm. discriminate.
  - intros (t & Ht & ->).
    assert (Hrun : exists n, regexp.run (fieldPattern key) None (key ++ t) = Some n).
    { unfold fieldPattern. cbn [regexp.run]. rewrite run_lits.
      destruct (value_tail_nonempty t
                  ltac:(intros H; apply Hl; rewrite in_app_iff; now right) Ht
                  (lastOf key None)) as [n Hn].
      rewrite Hn. eexists. reflexivity. }
    destruct Hrun as [n Hn].
    destruct (key ++ t) as [|c l'] eqn:Heq; cbn [regexp.match_from];
      now rewrite Hn.
Qed.

(** ** Templates and quoting *)

Lemma expand_no_dollar (whole : str) :
  forall t, ~ In "$"%char t -> regexp.expand t whole = t.
Proof.
  unfold regexp.expand. induction t as [|c t IH]; intros H; [reflexivity|].
  cbn [regexp.expand_go].
  destruct (Ascii.eqb_spec c "$") as [->|Hc]; [exfalso; apply H; now left|].
  rewrite IH; [reflexivity|]. intros Hin. apply H. now right.
Qed.

Lemma quoteByte_no_dollar (c : ascii) :
  Ascii.eqb c "$" || negb (existsb (Ascii.eqb "$") (strconv.quoteByte c)) = true.
Proof.
  destruct c as [[] [] [] [] [] [] [] []]; reflexivity.
Qed.

Lemma Quote_no_dollar (s : str) :
  ~ In "$"%char s -> ~ In "$"%char (strconv.Quote s).
Proof.
  intros Hs. unfold strconv.Quote. rewrite !in_app_iff.
  intros [[H|[]]|[H|[H|[]]]]; try discriminate H.
  apply in_flat_map in H as (c & Hc & Hin).
  pose proof (quoteByte_no_dollar c) as Hq.
  destruct (Ascii.eqb_spec c "$") as [->|Hne]; [contradiction|].
  cbn [orb] in Hq. apply negb_true_iff in Hq.
  assert (Hex : existsb (Ascii.eqb "$") (strconv.quoteByte c) = true).
  { apply existsb_exists. exists "$"%char. split; [exact Hin|reflexivity]. }
  congruence.
Qed.

(** ** chart.go: where the patcher keeps the other lines *)

Lemma version_key_no_nl : ~ In NL (lit "version:").
Proof. intros H. not_in_literal H. Qed.

Lemma appVersion_key_no_nl : ~ In NL (lit "appVersion:").
Proof. intros H. not_in_literal H. Qed.

Lemma field_lines_of_text (text : str) :
  version_lines_have_values text -> field_lines (lit "version:") (lines text).
Proof.
  intros H. unfold field_lines. apply Forall_forall. intros l Hl. split.
  - pose proof (lines_no_nl text) as Hnl. rewrite Forall_forall in Hnl. auto.
  - now apply H.
Qed.

(** [ReplaceAll] of the version pattern, on a text whose version lines carry
    values and with a template without dollar sign. *)
Lemma ReplaceAll_version (ls : list str) (repl : str) :
  field_lines (lit "version:") ls ->
  ~ In "$"%char repl ->
  regexp.ReplaceAll versionPattern (strings.Join ls [NL]) repl
  = strings.Join
      (map (fun l => if strings.HasPrefix l (lit "version:") then repl else l) ls)
      [NL].
Proof.
  intros Hls Hrepl. unfold regexp.ReplaceAll. rewrite versionPattern_shape.
  rewrite (replaceAll_lines (lit "version:") ltac:(discriminate) version_key_no_nl
                            repl ls Hls None (or_introl eq_refl)).
  f_equal. apply map_ext. intros l.
  destruct (strings.HasPrefix l (lit "version:")); [|reflexivity].
  now apply expand_no_dollar.
Qed.

Lemma Match_version (ls : list str) :
  field_lines (lit "version:") ls ->
  regexp.Match versionPattern (strings.Join ls [NL])
  = existsb (fun l => strings.HasPrefix l (lit "version:")) ls.
Proof.
  intros Hls. unfold regexp.Match. rewrite versionPattern_shape.
  apply (match_lines (lit "version:") ltac:(discriminate) version_key_no_nl ls Hls).
  now left.
Qed.

Lemma HasPrefix_set_version (version l : str) :
  strings.HasPrefix (set_version version l) (lit "version:")
  = strings.HasPrefix l (lit "version:").
Proof.
  unfold set_version.
  destruct (strings.HasPrefix l (lit "version:")) eqn:H; [reflexivity|exact H].
Qed.

Lemma HasPrefix_set_version_app (version l : str) :
  strings.HasPrefix l (lit "appVersion:") = false ->
  strings.HasPrefix (set_version version l) (lit "appVersion:") = false.
Proof.
  unfold set_version.
  destruct (strings.HasPrefix l (lit "version:")); [reflexivity|auto].
Qed.

Section PatcherProperties.

Variable E : Env.
Variable dir : str.
Variable w : World.
Variable text : str.

Let chartFile := filepath_Join E dir (lit "Chart.yaml").

Hypothesis read_ok : os_error E w (EvReadFile chartFile) = None.
Hypothesis manifest : files w chartFile = Some text.

(** X1: without a line that starts with [version:] the patcher fails with the
    not-found error after reading the file: nothing is written. *)
Lemma UpdateChartVersion_no_version_key (version appVersion : str) :
  (forall l, In l (lines text) -> strings.HasPrefix l (lit "version:") = false) ->
  UpdateChartVersion E dir version appVersion w
  = (Some (lit "version field not found in Chart.yaml"),
     record (EvReadFile chartFile) w).
Proof.
  intros Hno.
  assert (Hm : regexp.Match versionPattern text = false).
  { rewrite <- (Join_lines text) at 1. rewrite Match_version.
    - apply not_true_is_false. intros Hex.
      apply existsb_exists in Hex as (l & Hl & Hp). rewrite (Hno l Hl) in Hp.
      discriminate.
    - apply Forall_forall. intros l Hl. split.
      + pose proof (lines_no_nl text) as Hnl. rewrite Forall_forall in Hnl. auto.
      + intros Hp. rewrite (Hno l Hl) in Hp. discriminate. }
  unfold UpdateChartVersion, bind, os_ReadFile. fold chartFile.
  rewrite read_ok, manifest. fold versionPattern. rewrite Hm. reflexivity.
Qed.

(** The error path of the patcher writes nothing, whatever the pattern
    missed. *)
Lemma UpdateChartVersion_no_match (version appVersion : str) :
  regexp.Match versionPattern text = false ->
  UpdateChartVersion E dir version appVersion w
  = (Some (lit "version field not found in Chart.yaml"),
     record (EvReadFile chartFile) w).
Proof.
  intros Hm. unfold UpdateChartVersion, bind, os_ReadFile. fold chartFile.
  rewrite read_ok, manifest. fold versionPattern. rewrite Hm. reflexivity.
Qed.

Hypothesis values : version_lines_have_values text.
Hypothesis has_version :
  existsb (fun l => strings.HasPrefix l (lit "version:")) (lines text) = true.

(** X2: with a version only, every line that starts with [version:] becomes
    the new version line and every other line is kept byte for byte, for a
    manifest whose version lines carry values and a version without
    dollar sign. *)
Lemma UpdateChartVersion_frame (version : str) :
  let new := strings.Join (map (set_version version) (lines text)) [NL] in
  os_error E (record (EvReadFile chartFile) w) (EvWriteFile chartFile new) = None ->
  ~ In "$"%char version ->
  UpdateChartVersion E dir version [] w
  = (None,
     mkWorld (store chartFile new (files w))
             (trace w ++ [EvReadFile chartFile; EvWriteFile chartFile new])).
Proof.
  intros new Hwrite Hv.
  pose proof (field_lines_of_text text values) as Hls.
  assert (Hm : regexp.Match versionPattern text = true).
  { rewrite <- (Join_lines text) at 1. now rewrite Match_version. }
  assert (Hr : regexp.ReplaceAll versionPattern text (lit "version: " ++ version)
               = new).
  { rewrite <- (Join_lines text) at 1. rewrite ReplaceAll_version; [reflexivity|exact Hls|].
    rewrite in_app_iff. intros [H|H]; [|contradiction].
    not_in_literal H. }
  unfold UpdateChartVersion, bind, os_ReadFile. fold chartFile.
  rewrite read_ok, manifest. fold versionPattern. rewrite Hm, Hr.
  cbn [negb nonempty]. unfold os_WriteFile. rewrite Hwrite.
  unfold ret, record. cbn [files trace]. rewrite <- app_assoc. reflexivity.
Qed.

(** X3: with a secondary version and no line that starts with [appVersion:],
    the quoted line is added after every version line and nothing else
    changes, for a manifest whose version lines carry values, a version that
    starts with a byte that is not white space, and no newline or dollar
    sign in the version, an ASCII secondary version without dollar sign. *)
Lemma UpdateChartVersion_insert (c : ascii) (version appVersion : str) :
  let v := c :: version in
  let new := strings.Join (flat_map (insert_appVersion v appVersion) (lines text))
                          [NL] in
  os_error E (record (EvReadFile chartFile) w) (EvWriteFile chartFile new) = None ->
  (forall l, In l (lines text) -> strings.HasPrefix l (lit "appVersion:") = false) ->
  regexp.perl_space c = false ->
  ~ In NL v -> ~ In "$"%char v ->
  appVersion <> [] -> ~ In "$"%char appVersion -> ascii_text appVersion ->
  UpdateChartVersion E dir v appVersion w
  = (None,
     mkWorld (store chartFile new (files w))
             (trace w ++ [EvReadFile chartFile; EvWriteFile chartFile new])).
Proof.
  intros v new Hwrite Hno Hc Hnl Hv Ha Had _.
  pose proof (field_lines_of_text text values) as Hls.
  assert (Hdollar : ~ In "$"%char (lit "version: " ++ v)).
  { rewrite in_app_iff. intros [H|H]; [|contradiction].
    not_in_literal H. }
  assert (Hm : regexp.Match versionPattern text = true).
  { rewrite <- (Join_lines text) at 1. now rewrite Match_version. }
  assert (Hr : regexp.ReplaceAll versionPattern text (lit "version: " ++ v)
               = strings.Join (map (set_version v) (lines text)) [NL]).
  { rewrite <- (Join_lines text) at 1. now rewrite ReplaceAll_version. }
  set (ls1 := map (set_version v) (lines text)) in *.
  assert (Hls1 : field_lines (lit "version:") ls1).
  { unfold field_lines, ls1. rewrite Forall_map. unfold field_lines in Hls.
    rewrite Forall_forall in *. intros l Hl. destruct (Hls l Hl) as [Hlnl Hval].
    unfold set_version.
    destruct (strings.HasPrefix l (lit "version:")) eqn:Hp.
    - split.
      + rewrite in_app_iff. intros [H|H]; [|contradiction].
        not_in_literal H.
      + intros _. exists [" "%char], c, version. split; [reflexivity|].
        split; [repeat constructor|exact Hc].
    - split; [exact Hlnl|]. intros Hp'. rewrite Hp in Hp'. discriminate. }
  assert (Hma : regexp.Match (fieldPattern (lit "appVersion:"))
                             (strings.Join ls1 [NL]) = false).
  { unfold regexp.Match.
    rewrite (match_lines (lit "appVersion:") ltac:(discriminate) appVersion_key_no_nl
                         ls1).
    - apply not_true_is_false. intros Hex.
      apply existsb_exists in Hex as (l & Hl & Hp). unfold ls1 in Hl.
      apply in_map_iff in Hl as (l0 & <- & Hl0).
      rewrite (HasPrefix_set_version_app v l0 (Hno l0 Hl0)) in Hp. discriminate.
    - unfold field_lines, ls1. rewrite Forall_map, Forall_forall.
      intros l Hl. split.
      + unfold field_lines in Hls1. unfold ls1 in Hls1.
        rewrite Forall_map, Forall_forall in Hls1. now apply Hls1.
      + intros Hp. rewrite (HasPrefix_set_version_app v l (Hno l Hl)) in Hp.
        discriminate.
    - now left. }
  set (repl2 := lit "version: " ++ v ++ [NL] ++ lit "appVersion: "
                    ++ strconv.Quote appVersion).
  assert (Hr2 : regexp.ReplaceAll versionPattern (strings.Join ls1 [NL]) repl2 = new).
  { rewrite ReplaceAll_version; [|exact Hls1|].
    - unfold ls1, new. rewrite map_map. rewrite <- Join_flat_map.
      + f_equal. apply map_ext. intros l. rewrite HasPrefix_set_version.
        unfold insert_appVersion, set_version.
        destruct (strings.HasPrefix l (lit "version:")); [|reflexivity].
        unfold repl2. cbn [strings.Join]. now rewrite <- !app_assoc.
      + intros l. unfold insert_appVersion.
        destruct (strings.HasPrefix l (lit "version:")); discriminate.
    - unfold repl2. rewrite !app_assoc. rewrite in_app_iff.
      intros [H|H]; [|now apply (Quote_no_dollar appVersion Had)].
      rewrite <- !app_assoc in H. rewrite in_app_iff in H.
      destruct H as [H|H];
        [not_in_literal H|].
      rewrite in_app_iff in H. destruct H as [H|H]; [contradiction|].
      not_in_literal H. }
  unfold UpdateChartVersion, bind, os_ReadFile. fold chartFile.
  rewrite read_ok, manifest. fold versionPattern. rewrite Hm, Hr.
  cbn [negb]. rewrite (nonempty_true appVersion Ha).
  rewrite appVersionPattern_shape, Hma.
  fold repl2 in Hr2 |- *.
  replace (lit "version: " ++ v ++ [NL] ++ lit "appVersion: "
               ++ strconv.Quote appVersion) with repl2 by reflexivity.
  rewrite Hr2.
  unfold os_WriteFile. rewrite Hwrite.
  unfold ret, record. cbn [files trace]. rewrite <- app_assoc. reflexivity.
Qed.

End PatcherProperties.

(** ** chart.go: the version patcher *)

(** C1, at a manifest whose version line has a blank value (a space after
    the colon): the line matches the pattern, the patcher succeeds, and the
    line after the version line is gone from the file, because [\s*] runs
    over the newline and [.+] takes the next line into the match. *)
Theorem UpdateChartVersion_blank_value_drops_line :
  let before :=
    text_of ["apiVersion: v2"; "name: my-chart"; "version: ";
             "description: Test chart"]%string in
  let after :=
    text_of ["apiVersion: v2"; "name: my-chart"; "version: 2.0.0"]%string in
  let run := UpdateChartVersion demoEnv (lit "charts/app") (lit "2.0.0") []
                                (oneFile chartFile_demo before) in
  existsb (line_matches versionPattern) (lines before) = true /\
  line_matches versionPattern (lit "version: ") = true /\
  fst run = None /\
  files (snd run) chartFile_demo = Some after /\
  In (lit "description: Test chart") (lines before) /\
  ~ In (lit "description: Test chart") (lines after).
Proof.
  cbv zeta. repeat split; try (vm_compute; reflexivity).
  - vm_compute. tauto.
  - intros H. not_in_literal H.
Qed.

(** C2, at the same manifest: with a secondary version the file ends up
    with the new line in the place of the line that followed the version
    line, not added to the lines that were there. *)
Theorem UpdateChartVersion_insert_drops_line :
  let before :=
    text_of ["apiVersion: v2"; "name: my-chart"; "version: ";
             "description: Test chart"]%string in
  let after :=
    text_of ["apiVersion: v2"; "name: my-chart"; "version: 2.0.0"]%string
    ++ lit "appVersion: " ++ [DQ] ++ lit "2.0.0" ++ [DQ; NL] in
  let run := UpdateChartVersion demoEnv (lit "charts/app") (lit "2.0.0")
                                (lit "2.0.0") (oneFile chartFile_demo before) in
  existsb (line_matches versionPattern) (lines before) = true /\
  existsb (fun l => strings.HasPrefix l (lit "appVersion:")) (lines before) = false /\
  fst run = None /\
  files (snd run) chartFile_demo = Some after /\
  length (lines after) = length (lines before) /\
  ~ In (lit "description: Test chart") (lines after).
Proof.
  cbv zeta. repeat split; try (vm_compute; reflexivity).
  intros H. not_in_literal H.
Qed.

(** C6, at a manifest whose version line has no value at all: no line
    matches the pattern, and yet the patcher reports no error and rewrites
    the file, the version line and the line after it becoming one. *)
Theorem UpdateChartVersion_empty_value_not_refused :
  let before :=
    text_of ["apiVersion: v2"; "name: my-chart"; "version:";
             "description: Test chart"]%string in
  let after :=
    text_of ["apiVersion: v2"; "name: my-chart"; "version: 2.0.0"]%string in
  let run := UpdateChartVersion demoEnv (lit "charts/app") (lit "2.0.0") []
                                (oneFile chartFile_demo before) in
  existsb (line_matches versionPattern) (lines before) = false /\
  fst run = None /\
  files (snd run) chartFile_demo = Some after /\
  after <> before.
Proof.
  cbv zeta. repeat split; try (vm_compute; reflexivity).
  vm_compute. discriminate.
Qed.

(** ** The repository file *)

Section RepositoryProperties.

Variable E : Env.

(** C9: a repository type other than the three known ones is refused with
    a message that names it, and nothing has been done by then: the world,
    trace included, is as it was. *)
Theorem Push_unsupported_type (r : Repository) (packagePath : str) (w : World) :
  Type_ (config r) <> lit "oci" ->
  Type_ (config r) <> lit "chartmuseum" ->
  Type_ (config r) <> lit "http" ->
  Push E r packagePath w
  = (Some (lit "unsupported repository type: " ++ Type_ (config r)), w).
Proof.
  intros H1 H2 H3. unfold Push.
  rewrite (str_eqb_neq _ _ H1), (str_eqb_neq _ _ H2), (str_eqb_neq _ _ H3).
  reflexivity.
Qed.

(** C4: once the server has answered the upload, the push succeeds exactly
    when the status is 200 or 201; with any other status it fails, and the
    reason holds the status code and the text of the response body. *)
Theorem pushChartMuseum_status (r : Repository) (packagePath data : str)
        (resp : Response) (w : World) :
  Type_ (config r) = lit "chartmuseum" ->
  os_error E w (EvOpen packagePath) = None ->
  files w packagePath = Some data ->
  request_error E (Method (chartMuseumRequest r data))
                (ReqURL (chartMuseumRequest r data)) = None ->
  http_answer E (record (EvOpen packagePath) w) 60 (chartMuseumRequest r data)
  = (resp, None) ->
  (fst (Push E r packagePath w) = None <->
   StatusCode resp = 200%Z \/ StatusCode resp = 201%Z) /\
  (StatusCode resp <> 200%Z -> StatusCode resp <> 201%Z ->
   fst (Push E r packagePath w)
   = Some (lit "upload failed with status " ++ strconv.Itoa (StatusCode resp)
               ++ lit ": " ++ RespBody resp)).
Proof.
  intros HT Hos Hfile Hreq Hans.
  assert (Hrun : fst (Push E r packagePath w)
                 = if negb (StatusCode resp =? 201)%Z
                      && negb (StatusCode resp =? 200)%Z
                   then Some (upload_failed resp) else None).
  { unfold Push. rewrite HT.
    change (str_eqb (lit "chartmuseum") (lit "oci")) with false.
    change (str_eqb (lit "chartmuseum") (lit "chartmuseum")) with true.
    cbv iota.
    unfold pushChartMuseum, bind, os_Open. rewrite Hos, Hfile.
    unfold http_NewRequest. cbn [snd].
    unfold chartMuseumRequest in Hreq, Hans. cbn [Method ReqURL] in Hreq.
    destruct (nonempty (contextPath r)); rewrite Hreq;
      unfold client_Do, Header_Set_ContentType, SetBasicAuth;
      cbn [Method ReqURL ContentType ContentLength BasicAuth ReqBody];
      destruct (nonempty (Username (config r)) && nonempty (Password (config r)));
      cbn [Method ReqURL ContentType ContentLength BasicAuth ReqBody];
      rewrite Hans;
      destruct (negb (StatusCode resp =? 201)%Z && negb (StatusCode resp =? 200)%Z);
      reflexivity. }
  rewrite Hrun. split.
  - destruct (Z.eqb_spec (StatusCode resp) 201), (Z.eqb_spec (StatusCode resp) 200);
      simpl; split; intros; try discriminate; try reflexivity; try tauto; lia.
  - intros H200 H201.
    apply Z.eqb_neq in H200, H201. rewrite H200, H201. reflexivity.
Qed.

Lemma effects_app {A : Type} (m : M A) (w : World) (evs : list event) :
  trace (snd (m w)) = trace w ++ evs -> effects m w = evs.
Proof.
  intros H. unfold effects. rewrite H. apply skipn_app_length.
Qed.

(** [%d] of a status code of three digits. *)
Lemma Itoa_decimal3 (n : Z) :
  (100 <= n < 1000)%Z -> strconv.Itoa n = decimal3 n.
Proof.
  intros H.
  assert (Hall : forallb (fun k => str_eqb (strconv.Itoa (Z.of_nat k))
                                           (decimal3 (Z.of_nat k)))
                         (seq 100 900) = true)
    by (vm_compute; reflexivity).
  rewrite forallb_forall in Hall. specialize (Hall (Z.to_nat n)).
  rewrite Z2Nat.id in Hall by lia. apply str_eqb_eq, Hall, in_seq. lia.
Qed.

(** C8: the upload to an http repository is one PUT request whose declared
    content length is the size of the package file in bytes, and a
    response whose status is outside 200..299 makes the push fail with
    the status and the body in the reason: the status in decimal, which
    for a status of three digits is these three digits. *)
Theorem pushHTTP_content_length (r : Repository) (packagePath data : str)
        (w : World) :
  Type_ (config r) = lit "http" ->
  os_error E w (EvOpen packagePath) = None ->
  files w packagePath = Some data ->
  os_error E (record (EvOpen packagePath) w) (EvStat packagePath) = None ->
  request_error E (lit "PUT") (URL (config r)) = None ->
  let req := httpRequest r data in
  let w2 := record (EvStat packagePath) (record (EvOpen packagePath) w) in
  effects (Push E r packagePath) w
  = [EvOpen packagePath; EvStat packagePath; EvHTTP 120 req] /\
  Method req = lit "PUT" /\
  ContentLength req = Z.of_nat (length data) /\
  forall resp,
    http_answer E w2 120 req = (resp, None) ->
    ((StatusCode resp < 200 \/ 300 <= StatusCode resp)%Z ->
     fst (Push E r packagePath w)
     = Some (lit "upload failed with status "
                 ++ strconv.Itoa (StatusCode resp) ++ lit ": " ++ RespBody resp))
    /\ ((100 <= StatusCode resp < 200 \/ 300 <= StatusCode resp < 1000)%Z ->
        fst (Push E r packagePath w)
        = Some (lit "upload failed with status "
                    ++ decimal3 (StatusCode resp) ++ lit ": " ++ RespBody resp))
    /\ ((200 <= StatusCode resp < 300)%Z -> fst (Push E r packagePath w) = None).
Proof.
  intros HT Hos Hfile Hstat Hreq req w2.
  assert (Hrun : Push E r packagePath w
                 = (let (resp, err) := http_answer E w2 120 req in
                    match err with
                    | Some e => Some (lit "failed to push chart: " ++ e)
                    | None =>
                      if (StatusCode resp <? 200)%Z || (300 <=? StatusCode resp)%Z
                      then Some (upload_failed resp) else None
                    end,
                    record (EvHTTP 120 req) w2)).
  { unfold Push. rewrite HT.
    change (str_eqb (lit "http") (lit "oci")) with false.
    change (str_eqb (lit "http") (lit "chartmuseum")) with false.
    change (str_eqb (lit "http") (lit "http")) with true.
    cbv iota.
    unfold pushHTTP, bind, os_Open. rewrite Hos, Hfile.
    unfold file_Stat. cbn [fst snd]. rewrite Hstat.
    unfold http_NewRequest. cbn [snd]. rewrite Hreq.
    unfold client_Do, set_ContentLength, Header_Set_ContentType, SetBasicAuth.
    subst req w2. unfold httpRequest, len.
    destruct (nonempty (Username (config r)) && nonempty (Password (config r)));
      cbn [Method ReqURL ContentType ContentLength BasicAuth ReqBody];
      match goal with
      | |- context [http_answer E ?w ?t ?q] =>
        destruct (http_answer E w t q) as [resp [e|]]
      end;
      try reflexivity;
      destruct ((StatusCode resp <? 200)%Z || (300 <=? StatusCode resp)%Z);
      reflexivity. }
  split; [|split; [reflexivity|split; [reflexivity|]]].
  - apply effects_app. rewrite Hrun. subst w2. unfold record. cbn [snd trace].
    rewrite <- !app_assoc. reflexivity.
  - intros resp Hans. rewrite Hrun, Hans. cbn [fst].
    assert (Hfail : (StatusCode resp < 200 \/ 300 <= StatusCode resp)%Z ->
                    (StatusCode resp <? 200)%Z || (300 <=? StatusCode resp)%Z
                    = true).
    { intros Hout. apply orb_true_iff.
      destruct Hout; [left; now apply Z.ltb_lt|right; now apply Z.leb_le]. }
    split; [|split].
    + intros Hout. rewrite (Hfail Hout). reflexivity.
    + intros Hout. rewrite Hfail by lia. cbv iota. unfold upload_failed.
      rewrite Itoa_decimal3 by lia. reflexivity.
    + intros Hin.
      replace ((StatusCode resp <? 200)%Z || (300 <=? StatusCode resp)%Z)
        with false; [reflexivity|].
      symmetry. apply orb_false_iff. split; [apply Z.ltb_ge|apply Z.leb_gt]; lia.
Qed.

Lemma is_login_loginCmd (host u p : str) :
  is_login (EvExec (loginCmd host u p)) = true.
Proof. reflexivity. Qed.

Lemma is_login_pushCmd (packagePath url : str) :
  is_login (EvExec (pushCmd packagePath url)) = false.
Proof. reflexivity. Qed.

(** What [pushOCI] does when both credentials are set. *)
Lemma pushOCI_with_credentials (r : Repository) (packagePath : str) (w : World) :
  Type_ (config r) = lit "oci" ->
  nonempty (Username (config r)) && nonempty (Password (config r)) = true ->
  let host :=
    hd [] (strings.SplitN (strings.TrimPrefix (URL (config r)) (lit "oci://"))
                          (lit "/") 2) in
  let login := loginCmd host (Username (config r)) (Password (config r)) in
  let w1 := mkWorld (cmd_files E w login) (trace w ++ [EvExec login]) in
  let push := pushCmd packagePath (URL (config r)) in
  Push E r packagePath w
  = match snd (cmd_answer E w login) with
    | Some e => (Some (lit "registry login failed: " ++ e), w1)
    | None =>
      (match snd (cmd_answer E w1 push) with
       | Some e => Some (lit "helm push failed: " ++ e)
       | None => None
       end,
       mkWorld (cmd_files E w1 push) (trace w1 ++ [EvExec push]))
    end.
Proof.
  intros HT Hc host login w1 push.
  unfold Push. rewrite HT. change (str_eqb (lit "oci") (lit "oci")) with true.
  cbv iota. unfold pushOCI. rewrite Hc.
  unfold bind, registryLogin, cmd_Run, bind, cmd_CombinedOutput, ret.
  subst push w1 login host. unfold loginCmd, pushCmd.
  repeat match goal with
         | |- context [cmd_answer E ?w0 ?c] =>
           destruct (cmd_answer E w0 c) as [? [?|]]; cbn [snd fst]
         end; reflexivity.
Qed.

(** What [pushOCI] does when a credential is missing. *)
Lemma pushOCI_without_credentials (r : Repository) (packagePath : str)
      (w : World) :
  Type_ (config r) = lit "oci" ->
  nonempty (Username (config r)) && nonempty (Password (config r)) = false ->
  let push := pushCmd packagePath (URL (config r)) in
  Push E r packagePath w
  = (match snd (cmd_answer E w push) with
     | Some e => Some (lit "helm push failed: " ++ e)
     | None => None
     end,
     mkWorld (cmd_files E w push) (trace w ++ [EvExec push])).
Proof.
  intros HT Hc push.
  unfold Push. rewrite HT. change (str_eqb (lit "oci") (lit "oci")) with true.
  cbv iota. unfold pushOCI. rewrite Hc.
  unfold bind, cmd_Run, bind, cmd_CombinedOutput, ret.
  subst push. unfold pushCmd.
  repeat match goal with
         | |- context [cmd_answer E ?w0 ?c] =>
           destruct (cmd_answer E w0 c) as [? [?|]]; cbn [snd fst]
         end; reflexivity.
Qed.

(** C5: with both credentials set, the first thing a push to an oci
    repository does is to spawn [helm registry login] for the host of the
    address; the password is the standard input of that subprocess and the
    argument list is made of constants, the host and the user name only;
    when the login fails the push ends there with the wrapped error, the
    login being the only subprocess spawned. *)
Theorem pushOCI_login_first (r : Repository) (packagePath : str) (w : World) :
  Type_ (config r) = lit "oci" ->
  Username (config r) <> [] ->
  Password (config r) <> [] ->
  exists host,
    host_of (URL (config r)) host /\
    let login := loginCmd host (Username (config r)) (Password (config r)) in
    (exists rest, effects (Push E r packagePath) w = EvExec login :: rest) /\
    CmdArgs login = [lit "registry"; lit "login"; host; lit "--username";
                     Username (config r); lit "--password-stdin"] /\
    CmdStdin login = Some (Password (config r)) /\
    forall e,
      snd (cmd_answer E w login) = Some e ->
      fst (Push E r packagePath w) = Some (lit "registry login failed: " ++ e) /\
      effects (Push E r packagePath) w = [EvExec login].
Proof.
  intros HT HU HP.
  assert (Hc : nonempty (Username (config r)) && nonempty (Password (config r))
               = true)
    by (now rewrite !nonempty_true).
  pose proof (pushOCI_with_credentials r packagePath w HT Hc) as Hrun.
  cbv zeta in Hrun.
  set (host := hd [] (strings.SplitN
                        (strings.TrimPrefix (URL (config r)) (lit "oci://"))
                        (lit "/") 2)) in *.
  exists host. split.
  { destruct (SplitN_2_head "/"%char
                (strings.TrimPrefix (URL (config r)) (lit "oci://")))
      as (tail & Hs & Hin & Ht).
    exists (strings.TrimPrefix (URL (config r)) (lit "oci://")), tail.
    split; [apply TrimPrefix_without|]. split; [exact Hs|]. split; assumption. }
  cbv zeta. split; [|split; [reflexivity|split; [reflexivity|]]].
  - destruct (snd (cmd_answer E w (loginCmd host (Username (config r))
                                            (Password (config r))))) eqn:Hl;
      try rewrite Hl in Hrun.
    + eexists. apply effects_app. rewrite Hrun. reflexivity.
    + eexists. apply effects_app. rewrite Hrun. cbn [snd trace].
      rewrite <- app_assoc. reflexivity.
  - intros e He. rewrite He in Hrun. split.
    + now rewrite Hrun.
    + apply effects_app. now rewrite Hrun.
Qed.

(** C10: a push to an oci repository attempts the login exactly when the
    user name and the password are both non-empty; otherwise the only
    subprocess is [helm push], with no login before it. *)
Theorem pushOCI_login_iff (r : Repository) (packagePath : str) (w : World) :
  Type_ (config r) = lit "oci" ->
  (existsb is_login (effects (Push E r packagePath) w) = true <->
   Username (config r) <> [] /\ Password (config r) <> []) /\
  ((Username (config r) = [] \/ Password (config r) = []) ->
   effects (Push E r packagePath) w
   = [EvExec (pushCmd packagePath (URL (config r)))]).
Proof.
  intros HT.
  destruct (nonempty (Username (config r)) && nonempty (Password (config r)))
           eqn:Hc.
  - pose proof (pushOCI_with_credentials r packagePath w HT Hc) as Hrun.
    cbv zeta in Hrun.
    apply andb_true_iff in Hc as [HU HP].
    split.
    + split.
      * intros _. split; intros Heq; rewrite Heq in *; discriminate.
      * intros _.
        match type of Hrun with
        | _ = match snd (cmd_answer E w ?c) with _ => _ end =>
          destruct (snd (cmd_answer E w c))
        end;
          (erewrite effects_app;
           [|rewrite Hrun; cbn [snd trace]; rewrite <- ?app_assoc; reflexivity]);
          reflexivity.
    + intros [Heq|Heq]; rewrite Heq in *; discriminate.
  - pose proof (pushOCI_without_credentials r packagePath w HT Hc) as Hrun.
    cbv zeta in Hrun.
    assert (Heff : effects (Push E r packagePath) w
                   = [EvExec (pushCmd packagePath (URL (config r)))])
      by (apply effects_app; now rewrite Hrun).
    split; [|intros _; exact Heff].
    rewrite Heff. cbn [existsb]. rewrite is_login_pushCmd. cbn [orb].
    split; [discriminate|].
    intros [HU HP]. rewrite !nonempty_true in Hc by assumption. discriminate.
Qed.

End RepositoryProperties.

(** The theorems of this part at concrete inputs. *)

Lemma Push_unsupported_type_witness :
  Push demoEnv (repoOf "unknown" "http://example.com" "" "")
       (lit "/fake/path.tgz") (mkWorld (fun _ => None) [])
  = (Some (lit "unsupported repository type: unknown"),
     mkWorld (fun _ => None) []).
Proof.
  apply (Push_unsupported_type
           demoEnv (repoOf "unknown" "http://example.com" "" "")
           (lit "/fake/path.tgz") (mkWorld (fun _ => None) [])
           ltac:(vm_compute; discriminate) ltac:(vm_compute; discriminate)
           ltac:(vm_compute; discriminate)).
Defined.

Lemma pushChartMuseum_status_witness :
  fst (Push demoEnv (repoOf "chartmuseum" "http://example.com" "" "")
            (lit "/tmp/chart-1.0.0.tgz") packageWorld)
  = Some (lit "upload failed with status 500: server error").
Proof.
  destruct (pushChartMuseum_status
              demoEnv (repoOf "chartmuseum" "http://example.com" "" "")
              (lit "/tmp/chart-1.0.0.tgz") (lit "test")
              (mkResponse 500 (lit "server error")) packageWorld
              eq_refl eq_refl eq_refl eq_refl eq_refl)
    as [_ H].
  apply H; vm_compute; discriminate.
Defined.

Lemma pushHTTP_content_length_witness :
  effects (Push demoEnv (repoOf "http" "http://example.com/c.tgz" "" "")
                (lit "/tmp/chart-1.0.0.tgz")) packageWorld
  = [EvOpen (lit "/tmp/chart-1.0.0.tgz"); EvStat (lit "/tmp/chart-1.0.0.tgz");
     EvHTTP 120 (mkRequest (lit "PUT") (lit "http://example.com/c.tgz")
                           (lit "application/gzip") 4 None (lit "test"))] /\
  fst (Push demoEnv (repoOf "http" "http://example.com/c.tgz" "" "")
            (lit "/tmp/chart-1.0.0.tgz") packageWorld)
  = Some (lit "upload failed with status 500: server error").
Proof.
  destruct (pushHTTP_content_length
              demoEnv (repoOf "http" "http://example.com/c.tgz" "" "")
              (lit "/tmp/chart-1.0.0.tgz") (lit "test") packageWorld
              eq_refl eq_refl eq_refl eq_refl eq_refl)
    as (Heff & _ & _ & Hresp).
  split; [exact Heff|].
  destruct (Hresp (mkResponse 500 (lit "server error")) eq_refl)
    as (_ & Hfail & _).
  rewrite Hfail; [reflexivity|]. right. cbn [StatusCode]. lia.
Defined.

Lemma pushOCI_login_first_witness :
  host_of (lit "oci://ghcr.io/org/charts") (lit "ghcr.io") /\
  effects (Push demoEnv (repoOf "oci" "oci://ghcr.io/org/charts" "bot" "s3cret")
                (lit "/tmp/chart-1.0.0.tgz")) packageWorld
  = [EvExec (mkCmd (lit "helm")
                   [lit "registry"; lit "login"; lit "ghcr.io";
                    lit "--username"; lit "bot"; lit "--password-stdin"]
                   (Some (lit "s3cret")))].
Proof.
  destruct (pushOCI_login_first
              demoEnv (repoOf "oci" "oci://ghcr.io/org/charts" "bot" "s3cret")
              (lit "/tmp/chart-1.0.0.tgz") packageWorld eq_refl
              ltac:(vm_compute; discriminate) ltac:(vm_compute; discriminate))
    as (host & Hhost & _ & _ & _ & Hfail).
  destruct (Hfail (lit "exit status 1") eq_refl) as [_ Heff].
  assert (Hh : host = lit "ghcr.io")
    by (vm_compute in Heff |- *; congruence).
  rewrite Hh in Hhost, Heff. split; [exact Hhost|exact Heff].
Defined.

Lemma pushOCI_login_iff_witness :
  effects (Push demoEnv (repoOf "oci" "oci://ghcr.io/org/charts" "bot" "")
                (lit "/tmp/chart-1.0.0.tgz")) packageWorld
  = [EvExec (pushCmd (lit "/tmp/chart-1.0.0.tgz") (lit "oci://ghcr.io/org/charts"))].
Proof.
  destruct (pushOCI_login_iff
              demoEnv (repoOf "oci" "oci://ghcr.io/org/charts" "bot" "")
              (lit "/tmp/chart-1.0.0.tgz") packageWorld eq_refl)
    as [_ H].
  apply H. right. reflexivity.
Defined.

(** ** The plugin file *)

Section PluginProperties.

Variable E : Env.

(** Without dry run, a response that reports success never starts with
    the dry-run prefix. *)
Lemma executePostPublish_real_message (version : str) (cfg : Config) (w : World) :
  DryRun cfg = false ->
  Success (fst (fst (executePostPublish E version cfg w))) = true ->
  strings.HasPrefix (Message (fst (fst (executePostPublish E version cfg w))))
                    (lit "[DRY-RUN]") = false.
Proof.
  intros Hd. unfold executePostPublish, bind, failure, ret. rewrite Hd.
  cbn [negb].
  destruct (ParseChart E _ w) as [[[c|] [e|]] w1]; cbn [fst snd Success];
    try discriminate.
  destruct (os_MkdirAll E _ w1) as [[e|] w2]; cbn [fst snd Success];
    try discriminate.
  destruct (logger_Info _ w2) as [[] w3].
  destruct (Package E _ _ _ w3) as [[path [e|]] w4]; cbn [fst snd Success];
    try discriminate.
  destruct (logger_Info _ w4) as [[] w5].
  destruct (Push E _ _ w5) as [[e|] w6]; cbn [fst snd Success];
    try discriminate.
  destruct (logger_Info _ w6) as [[] w7]. cbn [fst snd Success Message].
  reflexivity.
Qed.

(** C7: a dry run of [executePostPublish] on a manifest that parses answers
    with success and a message that starts with [[DRY-RUN]], which no
    successful real publish does; it reads the manifest, logs, and does
    nothing else: no request is sent, no subprocess spawned, no file
    changed. *)
Theorem executePostPublish_dry_run (version : str) (cfg : Config)
        (chart : Chart) (data : str) (w : World) :
  DryRun cfg = true ->
  let chartPath := if nonempty (ChartPath cfg) then ChartPath cfg else lit "." in
  let chartFile := filepath_Join E chartPath (lit "Chart.yaml") in
  os_error E w (EvReadFile chartFile) = None ->
  files w chartFile = Some data ->
  yaml_Unmarshal E data = (chart, None) ->
  fst (executePostPublish E version cfg w)
  = (mkExecuteResponse true (dryRunMessage chart version cfg), None) /\
  strings.HasPrefix (dryRunMessage chart version cfg) (lit "[DRY-RUN]") = true /\
  (forall version' cfg' w',
      DryRun cfg' = false ->
      Success (fst (fst (executePostPublish E version' cfg' w'))) = true ->
      strings.HasPrefix
        (Message (fst (fst (executePostPublish E version' cfg' w'))))
        (lit "[DRY-RUN]") = false) /\
  effects (executePostPublish E version cfg) w
  = [EvReadFile chartFile;
     EvLog (lit "Packaging chart");
     EvLog (lit "[DRY-RUN] Would package chart");
     EvLog (lit "Pushing chart to repository");
     EvLog (lit "[DRY-RUN] Would push chart");
     EvLog (lit "PostPublish completed successfully")] /\
  existsb (fun e => is_exec e || is_http e)
          (effects (executePostPublish E version cfg) w) = false /\
  files (snd (executePostPublish E version cfg w)) = files w.
Proof.
  intros Hd chartPath chartFile Hos Hfile Hyaml.
  assert (Hrun : executePostPublish E version cfg w
                 = ((mkExecuteResponse true (dryRunMessage chart version cfg),
                     None),
                    mkWorld (files w)
                            (trace w ++
                               [EvReadFile chartFile;
                                EvLog (lit "Packaging chart");
                                EvLog (lit "[DRY-RUN] Would package chart");
                                EvLog (lit "Pushing chart to repository");
                                EvLog (lit "[DRY-RUN] Would push chart");
                                EvLog (lit "PostPublish completed successfully")]))).
  { unfold executePostPublish, bind, ParseChart, bind, os_ReadFile.
    fold chartPath. fold chartFile. rewrite Hd, Hos, Hfile, Hyaml.
    unfold ret, logger_Info, record. cbn [negb files trace].
    rewrite <- !app_assoc. reflexivity. }
  split; [now rewrite Hrun|].
  split; [reflexivity|].
  split; [intros; now apply executePostPublish_real_message|].
  assert (Heff : effects (executePostPublish E version cfg) w
                 = [EvReadFile chartFile;
                    EvLog (lit "Packaging chart");
                    EvLog (lit "[DRY-RUN] Would package chart");
                    EvLog (lit "Pushing chart to repository");
                    EvLog (lit "[DRY-RUN] Would push chart");
                    EvLog (lit "PostPublish completed successfully")])
    by (unfold effects; rewrite Hrun; apply skipn_app_length).
  split; [exact Heff|].
  split; [now rewrite Heff|].
  now rewrite Hrun.
Qed.

End PluginProperties.

Lemma executePostPublish_dry_run_witness :
  fst (executePostPublish demoEnv (lit "2.0.0") dryRunConfig
                          (oneFile chartFile_demo (lit "name: my-chart")))
  = (mkExecuteResponse
       true
       (lit "[DRY-RUN] Would publish my-chart@2.0.0 to oci://ghcr.io/org/charts"),
     None).
Proof.
  destruct (executePostPublish_dry_run
              demoEnv (lit "2.0.0") dryRunConfig
              demoChart
              (lit "name: my-chart")
              (oneFile chartFile_demo (lit "name: my-chart"))
              eq_refl eq_refl eq_refl eq_refl)
    as [H _].
  exact H.
Defined.

(** ** The tests of the repository, on the embedding

    The cases of [TestExtractPackagePath], [TestUpdateChartVersion] and the
    [TestRepositoryPush...] tests, with the values the tests expect. *)

Example TestExtractPackagePath_standard_output :
  extractPackagePath
    (text_of ["Successfully packaged chart and saved it to: /tmp/my-chart-1.0.0.tgz"]%string)
  = (lit "/tmp/my-chart-1.0.0.tgz", None).
Proof. reflexivity. Qed.

Example TestExtractPackagePath_multiple_lines :
  extractPackagePath
    (text_of ["Updating dependencies..."; "Saving chart to...";
              "Successfully packaged chart and saved it to: /home/user/charts/app-2.0.0.tgz"]%string)
  = (lit "/home/user/charts/app-2.0.0.tgz", None).
Proof. reflexivity. Qed.

Example TestExtractPackagePath_path_with_spaces :
  extractPackagePath
    (text_of ["Successfully packaged chart and saved it to: /path/with spaces/chart-1.0.0.tgz"]%string)
  = (lit "/path/with spaces/chart-1.0.0.tgz", None).
Proof. reflexivity. Qed.

Example TestExtractPackagePath_no_package_path :
  snd (extractPackagePath (text_of ["Error: chart not found"]%string)) <> None.
Proof. discriminate. Qed.

Example TestExtractPackagePath_empty_output :
  snd (extractPackagePath []) <> None.
Proof. discriminate. Qed.

Example TestUpdateChartVersion_version_only :
  patched (text_of ["apiVersion: v2"; "name: my-chart"; "version: 1.0.0";
           "description: Test chart"]%string) "2.0.0" ""
  = (None,
     Some (text_of ["apiVersion: v2"; "name: my-chart"; "version: 2.0.0";
                    "description: Test chart"]%string)).
Proof. vm_compute. reflexivity. Qed.

Example TestUpdateChartVersion_version_and_appVersion :
  patched (text_of ["apiVersion: v2"; "name: my-chart"; "version: 1.0.0"]%string
           ++ lit "appVersion: " ++ [DQ] ++ lit "1.0.0" ++ [DQ; NL]
           ++ text_of ["description: Test chart"]%string) "2.0.0" "2.0.0"
  = (None,
     Some (text_of ["apiVersion: v2"; "name: my-chart"; "version: 2.0.0"]%string
           ++ lit "appVersion: " ++ [DQ] ++ lit "2.0.0" ++ [DQ; NL]
           ++ text_of ["description: Test chart"]%string)).
Proof. vm_compute. reflexivity. Qed.

Example TestUpdateChartVersion_add_appVersion :
  patched (text_of ["apiVersion: v2"; "name: my-chart"; "version: 1.0.0";
           "description: Test chart"]%string) "2.0.0" "2.0.0"
  = (None,
     Some (text_of ["apiVersion: v2"; "name: my-chart"; "version: 2.0.0"]%string
           ++ lit "appVersion: " ++ [DQ] ++ lit "2.0.0" ++ [DQ; NL]
           ++ text_of ["description: Test chart"]%string)).
Proof. vm_compute. reflexivity. Qed.

Example TestUpdateChartVersion_preserve_comments :
  patched (text_of ["apiVersion: v2"; "name: my-chart"; "# This is the version";
           "version: 1.0.0"; "description: Test chart"]%string) "3.0.0" ""
  = (None,
     Some (text_of ["apiVersion: v2"; "name: my-chart"; "# This is the version";
                    "version: 3.0.0"; "description: Test chart"]%string)).
Proof. vm_compute. reflexivity. Qed.

Example TestUpdateChartVersion_no_version_field :
  patched (text_of ["apiVersion: v2"; "name: my-chart"; "description: Test chart"]%string)
          "1.0.0" ""
  = (Some (lit "version field not found in Chart.yaml"),
     Some (text_of ["apiVersion: v2"; "name: my-chart";
                    "description: Test chart"]%string)).
Proof. vm_compute. reflexivity. Qed.

Example TestRepositoryPushChartMuseum :
  Push (envWith (mkResponse 201 (lit "{saved: true}")))
       (repoOf "chartmuseum" "http://127.0.0.1:8080" "testuser" "testpass")
       (lit "/tmp/chart-1.0.0.tgz") packageWorld
  = (None,
     mkWorld (files packageWorld)
             [EvOpen (lit "/tmp/chart-1.0.0.tgz");
              EvHTTP 60 (mkRequest (lit "POST")
                                   (lit "http://127.0.0.1:8080/api/charts")
                                   (lit "application/gzip") 0
                                   (Some (lit "testuser", lit "testpass"))
                                   (lit "test"))]).
Proof. reflexivity. Qed.

Example TestRepositoryPushChartMuseumWithContextPath :
  effects (Push (envWith (mkResponse 201 []))
                (SetContextPath (lit "v1")
                                (repoOf "chartmuseum" "http://127.0.0.1:8080" "" ""))
                (lit "/tmp/chart-1.0.0.tgz")) packageWorld
  = [EvOpen (lit "/tmp/chart-1.0.0.tgz");
     EvHTTP 60 (mkRequest (lit "POST") (lit "http://127.0.0.1:8080/v1/api/charts")
                          (lit "application/gzip") 0 None (lit "test"))].
Proof. reflexivity. Qed.

Example TestRepositoryPushHTTP :
  Push (envWith (mkResponse 200 []))
       (repoOf "http" "http://127.0.0.1:8080" "" "")
       (lit "/tmp/chart-1.0.0.tgz") packageWorld
  = (None,
     mkWorld (files packageWorld)
             [EvOpen (lit "/tmp/chart-1.0.0.tgz");
              EvStat (lit "/tmp/chart-1.0.0.tgz");
              EvHTTP 120 (mkRequest (lit "PUT") (lit "http://127.0.0.1:8080")
                                    (lit "application/gzip") 4 None (lit "test"))]).
Proof. reflexivity. Qed.

Example TestRepositoryPushChartMuseumError :
  fst (Push demoEnv (repoOf "chartmuseum" "http://127.0.0.1:8080" "" "")
            (lit "/tmp/chart-1.0.0.tgz") packageWorld)
  = Some (lit "upload failed with status 500: server error").
Proof. reflexivity. Qed.

Example TestRepositoryPushFileNotFound :
  fst (Push demoEnv (repoOf "chartmuseum" "http://example.com" "" "")
            (lit "/nonexistent/path.tgz") packageWorld)
  = Some (lit "failed to open package: open /nonexistent/path.tgz: no such file or directory").
Proof. reflexivity. Qed.

(** * Further properties *)

(** ** chart.go *)

Lemma appVersionPattern_is : appVersionPattern = fieldPattern (lit "appVersion:").
Proof. reflexivity. Qed.

Lemma quoteByte_no_nl (c : ascii) :
  existsb (Ascii.eqb NL) (strconv.quoteByte c) = false.
Proof.
  destruct c as [[] [] [] [] [] [] [] []]; reflexivity.
Qed.

Lemma Quote_no_nl (s : str) : ~ In NL (strconv.Quote s).
Proof.
  unfold strconv.Quote. rewrite !in_app_iff.
  intros [[H|[]]|[H|[H|[]]]]; try discriminate H.
  apply in_flat_map in H as (c & _ & Hin).
  pose proof (quoteByte_no_nl c) as Hq.
  assert (Hex : existsb (Ascii.eqb NL) (strconv.quoteByte c) = true).
  { apply existsb_exists. exists NL. split; [exact Hin|reflexivity]. }
  congruence.
Qed.

Lemma HasPrefix_version_appVersion (l : str) :
  strings.HasPrefix l (lit "version:") = true ->
  strings.HasPrefix l (lit "appVersion:") = false.
Proof.
  destruct l as [|c l]; [discriminate|].
  cbn [lit list_ascii_of_string strings.HasPrefix].
  destruct (Ascii.eqb_spec c "v") as [->|]; [reflexivity|discriminate].
Qed.

Lemma HasPrefix_set_version_appVersion (version l : str) :
  strings.HasPrefix (set_version version l) (lit "appVersion:")
  = strings.HasPrefix l (lit "appVersion:").
Proof.
  unfold set_version.
  destruct (strings.HasPrefix l (lit "version:")) eqn:H; [|reflexivity].
  now rewrite (HasPrefix_version_appVersion l H).
Qed.

Lemma HasPrefix_set_appVersion (appVersion l : str) :
  strings.HasPrefix (set_appVersion appVersion l) (lit "appVersion:")
  = strings.HasPrefix l (lit "appVersion:").
Proof.
  unfold set_appVersion.
  destruct (strings.HasPrefix l (lit "appVersion:")) eqn:H; [reflexivity|exact H].
Qed.

Lemma HasPrefix_set_appVersion_version (appVersion l : str) :
  strings.HasPrefix (set_appVersion appVersion l) (lit "version:")
  = strings.HasPrefix l (lit "version:").
Proof.
  unfold set_appVersion.
  destruct (strings.HasPrefix l (lit "appVersion:")) eqn:H; [|reflexivity].
  destruct (strings.HasPrefix l (lit "version:")) eqn:Hv; [|reflexivity].
  rewrite (HasPrefix_version_appVersion l Hv) in H. discriminate.
Qed.

Lemma version_line_no_nl (version : str) :
  ~ In NL version -> ~ In NL (lit "version: " ++ version).
Proof.
  intros Hv. rewrite in_app_iff. intros [H|H]; [not_in_literal H|contradiction].
Qed.

Lemma version_line_no_dollar (version : str) :
  ~ In "$"%char version -> ~ In "$"%char (lit "version: " ++ version).
Proof.
  intros Hv. rewrite in_app_iff. intros [H|H]; [not_in_literal H|contradiction].
Qed.

Lemma appVersion_line_no_nl (appVersion : str) :
  ~ In NL (lit "appVersion: " ++ strconv.Quote appVersion).
Proof.
  rewrite in_app_iff. intros [H|H]; [not_in_literal H|now apply Quote_no_nl in H].
Qed.

Lemma appVersion_line_no_dollar (appVersion : str) :
  ~ In "$"%char appVersion ->
  ~ In "$"%char (lit "appVersion: " ++ strconv.Quote appVersion).
Proof.
  intros Ha. rewrite in_app_iff.
  intros [H|H]; [not_in_literal H|now apply (Quote_no_dollar appVersion Ha)].
Qed.

Lemma version_line_has_value (version : str) :
  (exists c r, version = c :: r /\ regexp.perl_space c = false) ->
  has_value (lit "version:") (lit "version: " ++ version).
Proof.
  intros (c & r & -> & Hc). exists [" "%char], c, r.
  split; [reflexivity|]. split; [repeat constructor|exact Hc].
Qed.

Lemma appVersion_line_has_value (appVersion : str) :
  has_value (lit "appVersion:") (lit "appVersion: " ++ strconv.Quote appVersion).
Proof.
  exists [" "%char], DQ, (flat_map strconv.quoteByte appVersion ++ [DQ]).
  split; [reflexivity|]. split; [repeat constructor|reflexivity].
Qed.

(** [ReplaceAll] of the [appVersion] pattern, as [ReplaceAll_version]. *)
Lemma ReplaceAll_appVersion (ls : list str) (repl : str) :
  field_lines (lit "appVersion:") ls ->
  ~ In "$"%char repl ->
  regexp.ReplaceAll appVersionPattern (strings.Join ls [NL]) repl
  = strings.Join
      (map (fun l => if strings.HasPrefix l (lit "appVersion:") then repl else l)
           ls)
      [NL].
Proof.
  intros Hls Hrepl. unfold regexp.ReplaceAll. rewrite appVersionPattern_is.
  rewrite (replaceAll_lines (lit "appVersion:") ltac:(discriminate)
                            appVersion_key_no_nl repl ls Hls None
                            (or_introl eq_refl)).
  f_equal. apply map_ext. intros l.
  destruct (strings.HasPrefix l (lit "appVersion:")); [|reflexivity].
  now apply expand_no_dollar.
Qed.

Lemma Match_appVersion (ls : list str) :
  field_lines (lit "appVersion:") ls ->
  regexp.Match appVersionPattern (strings.Join ls [NL]) = has_appVersion_line ls.
Proof.
  intros Hls. unfold regexp.Match. rewrite appVersionPattern_is.
  apply (match_lines (lit "appVersion:") ltac:(discriminate) appVersion_key_no_nl
                     ls Hls).
  now left.
Qed.

(** The lines after the first replacement are well formed as the lines
    before it were. *)
Lemma well_formed_set_version (version : str) (ls : list str) :
  plain_version version -> well_formed_lines ls ->
  well_formed_lines (map (set_version version) ls).
Proof.
  intros (Hc & Hnl & _) [Hv Ha]. unfold well_formed_lines, field_lines in *.
  rewrite !Forall_map. rewrite Forall_forall in Hv, Ha.
  split; apply Forall_forall; intros l Hl; destruct (Hv l Hl) as [Hlnl Hval];
    destruct (Ha l Hl) as [_ Haval]; unfold set_version;
      destruct (strings.HasPrefix l (lit "version:")) eqn:Hp.
  - split; [now apply version_line_no_nl|].
    intros _. now apply version_line_has_value.
  - split; [exact Hlnl|]. intros Hp'. rewrite Hp in Hp'. discriminate.
  - split; [now apply version_line_no_nl|]. intros Hp'. discriminate Hp'.
  - split; [exact Hlnl|exact Haval].
Qed.

(** The text the patcher writes, line by line. *)
Lemma patch_text_lines (version appVersion : str) (ls : list str) :
  plain_version version -> ~ In "$"%char appVersion ->
  well_formed_lines ls ->
  patch_text version appVersion (strings.Join ls [NL])
  = strings.Join (patched_lines version appVersion ls) [NL].
Proof.
  intros Hplain Had Hwf.
  pose proof (well_formed_set_version version ls Hplain Hwf) as [Hv1 Ha1].
  destruct Hplain as (Hc & Hnl & Hd). destruct Hwf as [Hv Ha].
  unfold patch_text, patched_lines.
  rewrite (ReplaceAll_version ls _ Hv (version_line_no_dollar version Hd)).
  fold (set_version version). change (fun l => set_version version l)
    with (set_version version).
  replace (map (fun l => if strings.HasPrefix l (lit "version:")
                         then lit "version: " ++ version else l) ls)
    with (map (set_version version) ls) by reflexivity.
  destruct (nonempty appVersion); [|reflexivity].
  rewrite (Match_appVersion _ Ha1).
  assert (Hsame : has_appVersion_line (map (set_version version) ls)
                  = has_appVersion_line ls).
  { unfold has_appVersion_line. induction ls as [|l ls IH]; [reflexivity|].
    cbn [map existsb]. rewrite HasPrefix_set_version_appVersion. f_equal.
    apply IH.
    - now inversion Hv.
    - now inversion Ha.
    - now inversion Hv1.
    - now inversion Ha1. }
  rewrite Hsame. destruct (has_appVersion_line ls).
  - rewrite (ReplaceAll_appVersion _ _ Ha1 (appVersion_line_no_dollar _ Had)).
    rewrite map_map. reflexivity.
  - rewrite ReplaceAll_version; [|exact Hv1|].
    + rewrite map_map. rewrite <- Join_flat_map.
      * f_equal. apply map_ext. intros l. rewrite HasPrefix_set_version.
        unfold insert_appVersion, set_version.
        destruct (strings.HasPrefix l (lit "version:")); [|reflexivity].
        cbn [strings.Join]. now rewrite <- !app_assoc.
      * intros l. unfold insert_appVersion.
        destruct (strings.HasPrefix l (lit "version:")); discriminate.
    + rewrite app_assoc. rewrite in_app_iff.
      intros [H|[H|H]];
        [now apply (version_line_no_dollar version Hd) in H
        |discriminate H
        |now apply (appVersion_line_no_dollar _ Had) in H].
Qed.

(** *** The patched lines *)

Lemma field_lines_no_nl (key : str) (ls : list str) :
  field_lines key ls -> Forall (fun l => ~ In NL l) ls.
Proof.
  unfold field_lines. apply Forall_impl. now intros l [H _].
Qed.

Lemma set_version_fixed (version l : str) :
  set_version version (set_version version l) = set_version version l.
Proof.
  unfold set_version at 2 3.
  destruct (strings.HasPrefix l (lit "version:")) eqn:H.
  - reflexivity.
  - unfold set_version. now rewrite H.
Qed.

Lemma set_both_fixed (version appVersion l : str) :
  set_appVersion appVersion
    (set_version version (set_appVersion appVersion (set_version version l)))
  = set_appVersion appVersion (set_version version l).
Proof.
  destruct (strings.HasPrefix l (lit "version:")) eqn:Hv.
  - assert (H1 : set_version version l = lit "version: " ++ version)
      by (unfold set_version; now rewrite Hv).
    rewrite H1. reflexivity.
  - assert (H1 : set_version version l = l)
      by (unfold set_version; now rewrite Hv).
    rewrite H1.
    destruct (strings.HasPrefix l (lit "appVersion:")) eqn:Ha.
    + assert (H2 : set_appVersion appVersion l
                   = lit "appVersion: " ++ strconv.Quote appVersion)
        by (unfold set_appVersion; now rewrite Ha).
      rewrite H2. reflexivity.
    + assert (H2 : set_appVersion appVersion l = l)
        by (unfold set_appVersion; now rewrite Ha).
      now rewrite H2, H1, H2.
Qed.

Lemma well_formed_set_appVersion (appVersion : str) (ls : list str) :
  well_formed_lines ls -> well_formed_lines (map (set_appVersion appVersion) ls).
Proof.
  intros [Hv Ha]. unfold well_formed_lines, field_lines in *.
  rewrite !Forall_map. rewrite Forall_forall in Hv, Ha.
  split; apply Forall_forall; intros l Hl; destruct (Hv l Hl) as [Hlnl Hval];
    destruct (Ha l Hl) as [_ Haval].
  - rewrite HasPrefix_set_appVersion_version. unfold set_appVersion.
    destruct (strings.HasPrefix l (lit "appVersion:")) eqn:Hp.
    + split; [apply appVersion_line_no_nl|].
      intros Hp'. rewrite (HasPrefix_version_appVersion l Hp') in Hp. discriminate.
    + split; assumption.
  - rewrite HasPrefix_set_appVersion. unfold set_appVersion.
    destruct (strings.HasPrefix l (lit "appVersion:")) eqn:Hp.
    + split; [apply appVersion_line_no_nl|]. intros _.
      apply appVersion_line_has_value.
    + split; [exact Hlnl|]. intros Hp'. discriminate Hp'.
Qed.

Lemma well_formed_insert (version appVersion : str) (ls : list str) :
  plain_version version -> well_formed_lines ls ->
  well_formed_lines (flat_map (insert_appVersion version appVersion) ls).
Proof.
  intros (Hc & Hnl & _) [Hv Ha]. unfold well_formed_lines, field_lines in *.
  rewrite Forall_forall in Hv, Ha.
  split; apply Forall_forall; intros l Hl;
    apply in_flat_map in Hl as (l0 & Hl0 & Hl); unfold insert_appVersion in Hl;
      destruct (Hv l0 Hl0) as [Hlnl Hval]; destruct (Ha l0 Hl0) as [_ Haval];
        destruct (strings.HasPrefix l0 (lit "version:")) eqn:Hp.
  - destruct Hl as [<-|[<-|[]]].
    + split; [now apply version_line_no_nl|]. intros _.
      now apply version_line_has_value.
    + split; [apply appVersion_line_no_nl|]. intros H. discriminate H.
  - destruct Hl as [<-|[]]. split; [exact Hlnl|].
    intros Hp'. rewrite Hp in Hp'. discriminate.
  - destruct Hl as [<-|[<-|[]]].
    + split; [now apply version_line_no_nl|]. intros H. discriminate H.
    + split; [apply appVersion_line_no_nl|]. intros _.
      apply appVersion_line_has_value.
  - destruct Hl as [<-|[]]. split; assumption.
Qed.

Lemma patched_lines_well_formed (version appVersion : str) (ls : list str) :
  plain_version version -> well_formed_lines ls ->
  well_formed_lines (patched_lines version appVersion ls).
Proof.
  intros Hplain Hwf. unfold patched_lines.
  destruct (nonempty appVersion); [|now apply well_formed_set_version].
  destruct (has_appVersion_line ls); [|now apply well_formed_insert].
  rewrite <- map_map.
  now apply well_formed_set_appVersion, well_formed_set_version.
Qed.

Lemma patched_lines_has_version (version appVersion : str) (ls : list str) :
  has_version_line ls = true ->
  has_version_line (patched_lines version appVersion ls) = true.
Proof.
  unfold has_version_line, patched_lines. intros H.
  apply existsb_exists in H as (l & Hl & Hp). apply existsb_exists.
  destruct (nonempty appVersion).
  - destruct (has_appVersion_line ls).
    + exists (set_appVersion appVersion (set_version version l)). split.
      * apply in_map_iff. now exists l.
      * now rewrite HasPrefix_set_appVersion_version, HasPrefix_set_version.
    + exists (lit "version: " ++ version). split; [|reflexivity].
      apply in_flat_map. exists l. split; [exact Hl|].
      unfold insert_appVersion. rewrite Hp. now left.
  - exists (set_version version l). split.
    + apply in_map_iff. now exists l.
    + now rewrite HasPrefix_set_version.
Qed.

Lemma has_appVersion_after (f : str -> str) (ls : list str) :
  (forall l, strings.HasPrefix (f l) (lit "appVersion:")
             = strings.HasPrefix l (lit "appVersion:")) ->
  has_appVersion_line (map f ls) = has_appVersion_line ls.
Proof.
  intros Hf. unfold has_appVersion_line.
  induction ls as [|l ls IH]; [reflexivity|].
  cbn [map existsb]. now rewrite Hf, IH.
Qed.

(** Patching the patched lines changes nothing. *)
Lemma patched_lines_fixed (version appVersion : str) (ls : list str) :
  has_version_line ls = true ->
  patched_lines version appVersion (patched_lines version appVersion ls)
  = patched_lines version appVersion ls.
Proof.
  intros Hhas. unfold patched_lines.
  destruct (nonempty appVersion) eqn:Hne.
  - destruct (has_appVersion_line ls) eqn:Happ.
    + rewrite has_appVersion_after, Happ
        by (intros l; now rewrite HasPrefix_set_appVersion,
                      HasPrefix_set_version_appVersion).
      rewrite map_map. apply map_ext. intros l. apply set_both_fixed.
    + assert (Hnow : has_appVersion_line
                       (flat_map (insert_appVersion version appVersion) ls) = true).
      { unfold has_version_line in Hhas.
        apply existsb_exists in Hhas as (l & Hl & Hp).
        apply existsb_exists.
        exists (lit "appVersion: " ++ strconv.Quote appVersion).
        split; [|reflexivity]. apply in_flat_map. exists l. split; [exact Hl|].
        unfold insert_appVersion. rewrite Hp. right. now left. }
      rewrite Hnow.
      assert (Hno : forall l, In l ls ->
                              strings.HasPrefix l (lit "appVersion:") = false).
      { intros l Hl. apply not_true_is_false. intros Hp.
        assert (Hex : has_appVersion_line ls = true)
          by (apply existsb_exists; now exists l).
        congruence. }
      clear Hhas Happ Hnow. induction ls as [|l ls IH]; [reflexivity|].
      cbn [flat_map]. rewrite map_app. rewrite IH by (intros; apply Hno; now right).
      f_equal. unfold insert_appVersion.
      destruct (strings.HasPrefix l (lit "version:")) eqn:Hp; [reflexivity|].
      cbn [map]. unfold set_version. rewrite Hp. unfold set_appVersion.
      now rewrite (Hno l (or_introl eq_refl)).
  - rewrite map_map. apply map_ext. intros l. apply set_version_fixed.
Qed.

Lemma patched_lines_nonempty (version appVersion : str) (ls : list str) :
  has_version_line ls = true -> patched_lines version appVersion ls <> [].
Proof.
  intros H Hnil.
  pose proof (patched_lines_has_version version appVersion ls H) as H'.
  rewrite Hnil in H'. discriminate.
Qed.

(** *** The patcher on a well-formed manifest *)

Ltac ascii_tac := repeat constructor; vm_compute; lia.

Ltac has_value_tac :=
  exists [" "%char]; do 2 eexists;
  split; [reflexivity|split; [repeat constructor|reflexivity]].

(** The lines of a literal text are well formed. *)
Ltac well_formed_tac :=
  split; vm_compute lines; repeat constructor;
  try (intros H; not_in_literal H);
  try (intros H; discriminate H);
  try (intros _; has_value_tac).

Section ChartProperties.

Variable E : Env.

(** The run of [UpdateChartVersion] once the manifest has been read. *)
Lemma UpdateChartVersion_run (dir version appVersion text : str) (w : World) :
  let chartFile := filepath_Join E dir (lit "Chart.yaml") in
  os_error E w (EvReadFile chartFile) = None ->
  files w chartFile = Some text ->
  UpdateChartVersion E dir version appVersion w
  = if regexp.Match versionPattern text then
      let new := patch_text version appVersion text in
      match os_error E (record (EvReadFile chartFile) w)
                     (EvWriteFile chartFile new) with
      | Some e =>
        (Some (lit "failed to write Chart.yaml: " ++ e),
         record (EvWriteFile chartFile new) (record (EvReadFile chartFile) w))
      | None =>
        (None,
         mkWorld (store chartFile new (files w))
                 (trace w ++ [EvReadFile chartFile; EvWriteFile chartFile new]))
      end
    else (Some (lit "version field not found in Chart.yaml"),
          record (EvReadFile chartFile) w).
Proof.
  intros chartFile Hread Hfile.
  unfold UpdateChartVersion, bind, os_ReadFile. fold chartFile.
  rewrite Hread, Hfile. fold versionPattern. fold appVersionPattern.
  destruct (regexp.Match versionPattern text); [|reflexivity].
  cbn [negb]. fold (patch_text version appVersion text).
  change (if nonempty appVersion
          then if regexp.Match appVersionPattern
                    (regexp.ReplaceAll versionPattern text
                                       (lit "version: " ++ version))
               then regexp.ReplaceAll appVersionPattern
                      (regexp.ReplaceAll versionPattern text
                                         (lit "version: " ++ version))
                      (lit "appVersion: " ++ strconv.Quote appVersion)
               else regexp.ReplaceAll versionPattern
                      (regexp.ReplaceAll versionPattern text
                                         (lit "version: " ++ version))
                      (lit "version: " ++ version ++ [NL] ++ lit "appVersion: "
                           ++ strconv.Quote appVersion)
          else regexp.ReplaceAll versionPattern text (lit "version: " ++ version))
    with (patch_text version appVersion text).
  unfold os_WriteFile.
  destruct (os_error E (record (EvReadFile chartFile) w)
                     (EvWriteFile chartFile (patch_text version appVersion text)));
    [reflexivity|].
  unfold ret, record. cbn [files trace]. now rewrite <- app_assoc.
Qed.

(** On a well-formed manifest with a version line the patcher succeeds and
    writes the patched lines. *)
Lemma UpdateChartVersion_patched (dir version appVersion text : str) (w : World) :
  let chartFile := filepath_Join E dir (lit "Chart.yaml") in
  let new := strings.Join (patched_lines version appVersion (lines text)) [NL] in
  os_error E w (EvReadFile chartFile) = None ->
  files w chartFile = Some text ->
  os_error E (record (EvReadFile chartFile) w) (EvWriteFile chartFile new) = None ->
  well_formed_lines (lines text) ->
  has_version_line (lines text) = true ->
  plain_version version -> ~ In "$"%char appVersion ->
  UpdateChartVersion E dir version appVersion w
  = (None,
     mkWorld (store chartFile new (files w))
             (trace w ++ [EvReadFile chartFile; EvWriteFile chartFile new])).
Proof.
  intros chartFile new Hread Hfile Hwrite Hwf Hhas Hplain Had.
  rewrite (UpdateChartVersion_run dir version appVersion text w Hread Hfile).
  fold chartFile.
  assert (Hm : regexp.Match versionPattern text = true).
  { rewrite <- (Join_lines text) at 1. rewrite Match_version; [exact Hhas|].
    apply Hwf. }
  assert (Hp : patch_text version appVersion text = new).
  { rewrite <- (Join_lines text) at 1. now apply patch_text_lines. }
  rewrite Hm. cbv zeta. rewrite Hp, Hwrite. reflexivity.
Qed.

(** X4: an ASCII secondary version replaces the value of the [appVersion]
    line the manifest has, quoted whatever the old value looked like; the
    version lines get the new version and every other line is kept. *)
Theorem UpdateChartVersion_replace_appVersion
        (dir version appVersion text : str) (w : World) :
  let chartFile := filepath_Join E dir (lit "Chart.yaml") in
  let new :=
    strings.Join
      (map (fun l => set_appVersion appVersion (set_version version l))
           (lines text)) [NL] in
  os_error E w (EvReadFile chartFile) = None ->
  files w chartFile = Some text ->
  os_error E (record (EvReadFile chartFile) w) (EvWriteFile chartFile new) = None ->
  well_formed_lines (lines text) ->
  has_version_line (lines text) = true ->
  has_appVersion_line (lines text) = true ->
  plain_version version -> appVersion <> [] -> ~ In "$"%char appVersion ->
  ascii_text appVersion ->
  UpdateChartVersion E dir version appVersion w
  = (None,
     mkWorld (store chartFile new (files w))
             (trace w ++ [EvReadFile chartFile; EvWriteFile chartFile new])).
Proof.
  intros chartFile new Hread Hfile Hwrite Hwf Hhas Happ Hplain Hne Had _.
  assert (Hnew : strings.Join (patched_lines version appVersion (lines text)) [NL]
                 = new).
  { unfold patched_lines. now rewrite (nonempty_true appVersion Hne), Happ. }
  pose proof (UpdateChartVersion_patched dir version appVersion text w Hread Hfile)
    as Hrun.
  cbv zeta in Hrun. fold chartFile in Hrun. rewrite Hnew in Hrun.
  now apply Hrun.
Qed.

(** X5: running the patcher a second time with the same versions, the
    secondary one an ASCII text, writes the same text again: the manifest
    is as the first run left it. *)
Theorem UpdateChartVersion_idempotent
        (dir version appVersion text : str) (w : World) :
  let chartFile := filepath_Join E dir (lit "Chart.yaml") in
  let new := strings.Join (patched_lines version appVersion (lines text)) [NL] in
  let w1 := mkWorld (store chartFile new (files w))
                    (trace w ++ [EvReadFile chartFile; EvWriteFile chartFile new]) in
  os_error E w (EvReadFile chartFile) = None ->
  files w chartFile = Some text ->
  os_error E (record (EvReadFile chartFile) w) (EvWriteFile chartFile new) = None ->
  os_error E w1 (EvReadFile chartFile) = None ->
  os_error E (record (EvReadFile chartFile) w1) (EvWriteFile chartFile new) = None ->
  well_formed_lines (lines text) ->
  has_version_line (lines text) = true ->
  plain_version version -> ~ In "$"%char appVersion -> ascii_text appVersion ->
  UpdateChartVersion E dir version appVersion w = (None, w1) /\
  UpdateChartVersion E dir version appVersion w1
  = (None,
     mkWorld (store chartFile new (files w1))
             (trace w1 ++ [EvReadFile chartFile; EvWriteFile chartFile new])).
Proof.
  intros chartFile new w1 Hread Hfile Hwrite Hread1 Hwrite1 Hwf Hhas Hplain Had _.
  split.
  - now apply UpdateChartVersion_patched.
  - assert (Hlines : lines new = patched_lines version appVersion (lines text)).
    { apply lines_Join.
      - now apply patched_lines_nonempty.
      - apply (field_lines_no_nl (lit "version:")).
        now apply patched_lines_well_formed. }
    assert (Hnew : strings.Join (patched_lines version appVersion (lines new)) [NL]
                   = new)
      by (rewrite Hlines; unfold new; now rewrite patched_lines_fixed).
    pose proof (UpdateChartVersion_patched dir version appVersion new w1) as Hrun.
    cbv zeta in Hrun. fold chartFile in Hrun. rewrite Hnew in Hrun.
    apply Hrun; try assumption.
    + unfold w1. cbn [files]. unfold store. now rewrite str_eqb_refl.
    + rewrite Hlines. now apply patched_lines_well_formed.
    + rewrite Hlines. now apply patched_lines_has_version.
Qed.

(** X6: whatever the manifest holds, the patcher touches the manifest only.
    It reads it and then either returns an error with the files as they
    were, or tries to write it, once; it changes no other file, and when it
    returns no error the manifest holds what it wrote. *)
Theorem UpdateChartVersion_only_manifest
        (dir version appVersion : str) (w : World) :
  let chartFile := filepath_Join E dir (lit "Chart.yaml") in
  let r := UpdateChartVersion E dir version appVersion w in
  let evs := effects (UpdateChartVersion E dir version appVersion) w in
  (forall name, name <> chartFile -> files (snd r) name = files w name) /\
  ((evs = [EvReadFile chartFile] /\ fst r <> None /\ files (snd r) = files w) \/
   (exists data,
       evs = [EvReadFile chartFile; EvWriteFile chartFile data] /\
       (fst r = None -> files (snd r) chartFile = Some data))).
Proof.
  intros chartFile r evs. subst r evs.
  unfold effects, UpdateChartVersion, bind, os_ReadFile. fold chartFile.
  destruct (os_error E w (EvReadFile chartFile));
    [split; [reflexivity|left; cbn [snd fst ret record trace];
                         rewrite skipn_app_length; repeat split; discriminate]|].
  destruct (files w chartFile) as [text|];
    [|split; [reflexivity|left; cbn [snd fst ret record trace];
                          rewrite skipn_app_length; repeat split; discriminate]].
  match goal with
  | |- context [if negb ?m then _ else _] => destruct m
  end; cbn [negb];
    [|split; [reflexivity|left; cbn [snd fst ret record trace];
                          rewrite skipn_app_length; repeat split; discriminate]].
  unfold os_WriteFile.
  match goal with
  | |- context [os_error E ?w0 (EvWriteFile chartFile ?d)] =>
    destruct (os_error E w0 (EvWriteFile chartFile d)); set (data := d)
  end.
  - split; [reflexivity|]. right. exists data. cbn [snd fst ret record trace].
    rewrite <- app_assoc, skipn_app_length. split; [reflexivity|discriminate].
  - split.
    + intros name Hname. cbn [fst snd files ret record]. unfold store.
      now rewrite (str_eqb_neq name chartFile Hname).
    + right. exists data. cbn [snd fst ret record trace files].
      rewrite <- app_assoc, skipn_app_length. split; [reflexivity|].
      intros _. unfold store. now rewrite str_eqb_refl.
Qed.

(** X7: [ParseChart] gives a chart exactly when it gives no error, so that its
    callers may read the chart once they have checked the error. *)
Theorem ParseChart_chart_iff_no_error (dir : str) (w : World) :
  let r := fst (ParseChart E dir w) in
  (snd r = None <-> fst r <> None) /\
  files (snd (ParseChart E dir w)) = files w.
Proof.
  cbv zeta. unfold ParseChart, bind, os_ReadFile, ret.
  destruct (os_error E w _); cbn [fst snd];
    [repeat split; intros; try discriminate; try reflexivity; congruence|].
  destruct (files w _) as [data|]; cbn [fst snd];
    [|repeat split; intros; try discriminate; try reflexivity; congruence].
  destruct (yaml_Unmarshal E data) as [chart [e|]]; cbn [fst snd];
    repeat split; intros; try discriminate; try reflexivity; congruence.
Qed.

End ChartProperties.

(** X8: a chart is valid exactly when it has a name, a version and one of the
    two accepted API versions. *)
Theorem ValidateChart_ok_iff (chart : Chart) :
  ValidateChart chart = None <->
  Name chart <> [] /\ Version chart <> [] /\
  (APIVersion chart = lit "v1" \/ APIVersion chart = lit "v2").
Proof.
  unfold ValidateChart.
  destruct (Name chart) as [|n ns]; cbn [nonempty negb];
    [split; [discriminate|intros [H _]; congruence]|].
  destruct (Version chart) as [|v vs]; cbn [nonempty negb];
    [split; [discriminate|intros (_ & H & _); congruence]|].
  destruct (APIVersion chart) as [|a as_] eqn:Ha; cbn [nonempty negb].
  { split; [discriminate|]. intros (_ & _ & [H|H]); discriminate H. }
  unfold str_eqb.
  destruct (list_eq_dec ascii_dec (a :: as_) (lit "v2")) as [H2|H2];
    destruct (list_eq_dec ascii_dec (a :: as_) (lit "v1")) as [H1|H1];
    cbn [negb andb].
  - split; [|reflexivity]. intros _. repeat split; try discriminate. now right.
  - split; [|reflexivity]. intros _. repeat split; try discriminate. now right.
  - split; [|reflexivity]. intros _. repeat split; try discriminate. now left.
  - split; [discriminate|]. intros (_ & _ & [H|H]); contradiction.
Qed.

(** *** The patcher at concrete manifests *)

(** The version lines of a literal text carry values. *)
Ltac values_tac :=
  let l := fresh "l" in
  let Hl := fresh "Hl" in
  let Hp := fresh "Hp" in
  intros l Hl Hp; vm_compute in Hl;
  repeat (destruct Hl as [Hl|Hl]; [subst l; try discriminate Hp; has_value_tac|]);
  destruct Hl.

Lemma UpdateChartVersion_frame_witness :
  let r := UpdateChartVersion demoEnv (lit "charts/app") (lit "2.0.0") []
                              (oneFile chartFile_demo manifest_demo) in
  fst r = None /\
  files (snd r) chartFile_demo
  = Some (text_of ["apiVersion: v2"; "name: my-chart"; "# This is the version";
                   "version: 2.0.0"; "description: Test chart"]%string).
Proof.
  cbv zeta.
  rewrite (UpdateChartVersion_frame
             demoEnv (lit "charts/app") (oneFile chartFile_demo manifest_demo)
             manifest_demo eq_refl eq_refl ltac:(values_tac) eq_refl
             (lit "2.0.0") eq_refl ltac:(intros H; not_in_literal H)).
  split; vm_compute; reflexivity.
Defined.

Lemma UpdateChartVersion_insert_witness :
  let r := UpdateChartVersion demoEnv (lit "charts/app") (lit "2.0.0") (lit "2.0.0")
                              (oneFile chartFile_demo manifest_demo) in
  fst r = None /\
  files (snd r) chartFile_demo
  = Some (text_of ["apiVersion: v2"; "name: my-chart"; "# This is the version";
                   "version: 2.0.0"]%string
          ++ lit "appVersion: " ++ [DQ] ++ lit "2.0.0" ++ [DQ; NL]
          ++ text_of ["description: Test chart"]%string).
Proof.
  cbv zeta.
  pose proof (UpdateChartVersion_insert
             demoEnv (lit "charts/app") (oneFile chartFile_demo manifest_demo)
             manifest_demo eq_refl eq_refl ltac:(values_tac) eq_refl
             "2"%char (lit ".0.0") (lit "2.0.0") eq_refl
             ltac:(intros l Hl; vm_compute in Hl;
                   repeat (destruct Hl as [Hl|Hl]; [subst l; reflexivity|]);
                   destruct Hl)
             eq_refl
             ltac:(intros H; not_in_literal H) ltac:(intros H; not_in_literal H)
             ltac:(discriminate) ltac:(intros H; not_in_literal H)
             ltac:(ascii_tac)) as Hrun.
  change ("2"%char :: lit ".0.0") with (lit "2.0.0") in Hrun.
  rewrite Hrun. split; vm_compute; reflexivity.
Defined.

Lemma UpdateChartVersion_no_version_key_witness :
  UpdateChartVersion demoEnv (lit "charts/app") (lit "2.0.0") (lit "2.0.0")
                     (oneFile chartFile_demo manifest_nokey_demo)
  = (Some (lit "version field not found in Chart.yaml"),
     record (EvReadFile chartFile_demo) (oneFile chartFile_demo manifest_nokey_demo)).
Proof.
  apply (UpdateChartVersion_no_version_key
           demoEnv (lit "charts/app") (oneFile chartFile_demo manifest_nokey_demo)
           manifest_nokey_demo eq_refl eq_refl (lit "2.0.0") (lit "2.0.0")).
  intros l Hl. vm_compute in Hl.
  repeat (destruct Hl as [Hl|Hl]; [subst l; reflexivity|]). destruct Hl.
Defined.

Lemma plain_version_demo : plain_version (lit "2.0.0").
Proof.
  split; [exists "2"%char, (lit ".0.0"); split; reflexivity|].
  split; intros H; not_in_literal H.
Defined.

Lemma UpdateChartVersion_replace_appVersion_witness :
  let r := UpdateChartVersion demoEnv (lit "charts/app") (lit "2.0.0") (lit "2.0.0")
                              (oneFile chartFile_demo manifest_app_demo) in
  fst r = None /\
  files (snd r) chartFile_demo
  = Some (text_of ["apiVersion: v2"; "name: my-chart"; "version: 2.0.0"]%string
          ++ lit "appVersion: " ++ [DQ] ++ lit "2.0.0" ++ [DQ; NL]
          ++ text_of ["description: Test chart"]%string).
Proof.
  cbv zeta.
  rewrite (UpdateChartVersion_replace_appVersion
             demoEnv (lit "charts/app") (lit "2.0.0") (lit "2.0.0")
             manifest_app_demo (oneFile chartFile_demo manifest_app_demo)
             eq_refl eq_refl eq_refl ltac:(well_formed_tac) eq_refl eq_refl
             plain_version_demo ltac:(discriminate)
             ltac:(intros H; not_in_literal H) ltac:(ascii_tac)).
  split; vm_compute; reflexivity.
Defined.

Lemma UpdateChartVersion_idempotent_witness :
  let r1 := UpdateChartVersion demoEnv (lit "charts/app") (lit "2.0.0") (lit "2.0.0")
                               (oneFile chartFile_demo manifest_demo) in
  let r2 := UpdateChartVersion demoEnv (lit "charts/app") (lit "2.0.0") (lit "2.0.0")
                               (snd r1) in
  fst r2 = None /\ files (snd r2) chartFile_demo = files (snd r1) chartFile_demo.
Proof.
  destruct (UpdateChartVersion_idempotent
              demoEnv (lit "charts/app") (lit "2.0.0") (lit "2.0.0")
              manifest_demo (oneFile chartFile_demo manifest_demo)
              eq_refl eq_refl eq_refl eq_refl eq_refl ltac:(well_formed_tac)
              eq_refl plain_version_demo ltac:(intros H; not_in_literal H)
              ltac:(ascii_tac))
    as [H1 H2].
  cbv zeta. rewrite H1. cbn [snd]. rewrite H2. split; vm_compute; reflexivity.
Defined.

(** ** Events by kind *)

Lemma bind_eq {A B : Type} (m : M A) (k : A -> M B) (w : World) :
  bind m k w = k (fst (m w)) (snd (m w)).
Proof. unfold bind. now destruct (m w). Qed.

Lemma confined_ret {A : Type} (P : event -> bool) (a : A) : confined P (ret a).
Proof. intros w. exists []. cbn. now rewrite app_nil_r. Qed.

Lemma confined_bind {A B : Type} (P : event -> bool) (m : M A) (k : A -> M B) :
  confined P m -> (forall a, confined P (k a)) -> confined P (bind m k).
Proof.
  intros Hm Hk w. rewrite bind_eq.
  destruct (Hm w) as (e1 & H1 & F1).
  destruct (Hk (fst (m w)) (snd (m w))) as (e2 & H2 & F2).
  exists (e1 ++ e2). split.
  - now rewrite H2, H1, app_assoc.
  - now rewrite forallb_app, F1, F2.
Qed.

Lemma confined_effects {A : Type} (P : event -> bool) (m : M A) (w : World) :
  confined P m -> Forall (fun e => P e = true) (effects m w).
Proof.
  intros H. destruct (H w) as (evs & Ht & Hf).
  rewrite (effects_app m w evs Ht). apply Forall_forall. now apply forallb_forall.
Qed.

Lemma keeps_ret {A : Type} (a : A) : keeps_files (ret a).
Proof. intros w. reflexivity. Qed.

Lemma keeps_bind {A B : Type} (m : M A) (k : A -> M B) :
  keeps_files m -> (forall a, keeps_files (k a)) -> keeps_files (bind m k).
Proof. intros Hm Hk w. rewrite bind_eq. now rewrite Hk, Hm. Qed.

Lemma execs_app (a b : list event) : execs (a ++ b) = execs a ++ execs b.
Proof. apply filter_app. Qed.

Lemma execs_none (evs : list event) : forallb no_exec evs = true -> execs evs = [].
Proof.
  induction evs as [|e evs IH]; [reflexivity|]. cbn [forallb execs filter].
  intros H. apply andb_true_iff in H as [He Hevs]. unfold no_exec in He.
  destruct (is_exec e); [discriminate|]. now apply IH.
Qed.

Section PrimitiveEffects.

Variable E : Env.
Variable P : event -> bool.

Lemma confined_logger (msg : str) : P (EvLog msg) = true -> confined P (logger_Info msg).
Proof. intros H w. exists [EvLog msg]. cbn. now rewrite H. Qed.

Lemma confined_ReadFile (name : str) :
  P (EvReadFile name) = true -> confined P (os_ReadFile E name).
Proof.
  intros H w. exists [EvReadFile name]. unfold os_ReadFile.
  destruct (os_error E w _); [|destruct (files w name)]; cbn; now rewrite H.
Qed.

Lemma confined_WriteFile (name data : str) :
  P (EvWriteFile name data) = true -> confined P (os_WriteFile E name data).
Proof.
  intros H w. exists [EvWriteFile name data]. unfold os_WriteFile.
  destruct (os_error E w _); cbn; now rewrite H.
Qed.

Lemma confined_ParseChart (dir : str) :
  P (EvReadFile (filepath_Join E dir (lit "Chart.yaml"))) = true ->
  confined P (ParseChart E dir).
Proof.
  intros H. unfold ParseChart. apply confined_bind.
  - now apply confined_ReadFile.
  - intros [data [e|]]; [apply confined_ret|].
    destruct (yaml_Unmarshal E data) as [chart [e|]]; apply confined_ret.
Qed.

End PrimitiveEffects.

Lemma keeps_logger (msg : str) : keeps_files (logger_Info msg).
Proof. intros w. reflexivity. Qed.

Lemma keeps_ParseChart (E : Env) (dir : str) : keeps_files (ParseChart E dir).
Proof.
  intros w. unfold ParseChart, bind, os_ReadFile, ret.
  destruct (os_error E w _); [reflexivity|].
  destruct (files w _) as [data|]; [|reflexivity].
  destruct (yaml_Unmarshal E data) as [chart [e|]]; reflexivity.
Qed.

(** ** helm.go: the subprocesses *)

Section HelmProperties.

Variable E : Env.

Lemma Package_run (h : HelmCLI) (outputDir : str) (signOpts : option SignOptions)
      (w : World) :
  let cmd := packageCmd (chartPath h) outputDir signOpts in
  Package E h outputDir signOpts w
  = (match snd (cmd_answer E w cmd) with
     | Some e =>
       ([], Some (lit "helm package failed: " ++ e ++ [NL]
                      ++ fst (cmd_answer E w cmd)))
     | None => extractPackagePath (fst (cmd_answer E w cmd))
     end,
     mkWorld (cmd_files E w cmd) (trace w ++ [EvExec cmd])).
Proof.
  cbv zeta. unfold Package, packageCmd, signArgs, flag.
  destruct signOpts as [o|]; cbn [app];
    [destruct (nonempty (SO_Keyring o)), (nonempty (SO_Key o)),
              (nonempty (SO_PassphraseFile o)); cbn [app]|];
    unfold bind, cmd_CombinedOutput, ret;
    match goal with
    | |- context [cmd_answer E w ?c] =>
      destruct (cmd_answer E w c) as [output [e|]]
    end; reflexivity.
Qed.

(** X9: whatever the options and the outcome, [Package] spawns exactly one
    subprocess, [helm package <chart> -d <dir>] followed by the signing
    options that are set; it answers with an empty path whenever it answers
    with an error, and with no error only when the subprocess ended well
    and a line of its output holds the marker. *)
Theorem Package_one_subprocess (h : HelmCLI) (outputDir : str)
        (signOpts : option SignOptions) (w : World) :
  let cmd := packageCmd (chartPath h) outputDir signOpts in
  let r := fst (Package E h outputDir signOpts w) in
  effects (Package E h outputDir signOpts) w = [EvExec cmd] /\
  (signOpts = None ->
   CmdArgs cmd = [lit "package"; chartPath h; lit "-d"; outputDir]) /\
  (snd r <> None -> fst r = []) /\
  (snd r = None ->
   snd (cmd_answer E w cmd) = None /\
   exists l, In l (lines (fst (cmd_answer E w cmd))) /\ occurs marker l).
Proof.
  intros cmd r. subst r. rewrite Package_run. fold cmd. cbn [fst snd].
  split; [|split; [|split]].
  - apply effects_app. rewrite Package_run. reflexivity.
  - intros ->. reflexivity.
  - destruct (snd (cmd_answer E w cmd)); [reflexivity|].
    unfold extractPackagePath. change (lit (String NL EmptyString)) with [NL].
    destruct (first_marker_line (strings.Split (fst (cmd_answer E w cmd)) [NL]))
      as [Hall|(pre & line & post & Hsplit & Hpre & Ho)].
    + now rewrite extractPackagePath_loop_absent.
    + destruct (occurs_first marker line Ho) as (a & b & Hf). rewrite Hsplit.
      rewrite (extractPackagePath_loop_found _ line a b Hf pre post Hpre).
      intros H. now contradiction H.
  - destruct (snd (cmd_answer E w cmd)); [discriminate|].
    intros Hnone. split; [reflexivity|].
    unfold extractPackagePath in Hnone.
    change (lit (String NL EmptyString)) with [NL] in Hnone.
    destruct (first_marker_line (strings.Split (fst (cmd_answer E w cmd)) [NL]))
      as [Hall|(pre & line & post & Hsplit & Hpre & Ho)].
    + rewrite extractPackagePath_loop_absent in Hnone by exact Hall.
      discriminate.
    + exists line. split; [|exact Ho]. unfold lines. rewrite Hsplit.
      apply in_or_app. right. now left.
Qed.

Lemma HelmCLI_Dependency_run (h : HelmCLI) :
  HelmCLI_DependencyUpdate E h
  = cmd_Run E (dependencyCmd (lit "update") (chartPath h)) /\
  HelmCLI_DependencyBuild E h
  = cmd_Run E (dependencyCmd (lit "build") (chartPath h)).
Proof. split; reflexivity. Qed.

Lemma HelmCLI_Lint_run (h : HelmCLI) (strict : bool) :
  HelmCLI_Lint E h strict = cmd_Run E (lintCmd (chartPath h) strict).
Proof. now destruct strict. Qed.

Lemma api_flags (apiVersions : list str) (args : list str) :
  fold_left (fun args api => args ++ [lit "--api-versions"; api]) apiVersions args
  = args ++ flat_map (fun api => [lit "--api-versions"; api]) apiVersions.
Proof.
  revert args. induction apiVersions as [|api rest IH]; intros args.
  - cbn. now rewrite app_nil_r.
  - cbn [fold_left flat_map]. rewrite IH. now rewrite <- app_assoc.
Qed.

Lemma HelmCLI_Template_run (h : HelmCLI) (kubeVersion : str)
      (apiVersions : list str) :
  HelmCLI_Template E h kubeVersion apiVersions
  = cmd_Run E (templateCmd (chartPath h) kubeVersion apiVersions).
Proof.
  unfold HelmCLI_Template, templateCmd, flag. rewrite api_flags.
  destruct (nonempty kubeVersion); cbn [app]; reflexivity.
Qed.

End HelmProperties.

(** ** The repository file: what a push does by type, and the logout *)

Section RepositoryEffects.

Variable E : Env.

Ltac close_run :=
  eexists; split;
  [cbn [snd trace record]; rewrite <- ?app_assoc; reflexivity
  |split; [reflexivity|split; [cbn; lia|reflexivity]]].

Lemma pushChartMuseum_events (r : Repository) (packagePath : str) (w : World) :
  exists evs,
    trace (snd (pushChartMuseum E r packagePath w)) = trace w ++ evs /\
    forallb no_exec evs = true /\
    length (filter is_http evs) <= 1 /\
    files (snd (pushChartMuseum E r packagePath w)) = files w.
Proof.
  unfold pushChartMuseum, bind, os_Open, http_NewRequest, client_Do, ret.
  cbn [snd].
  destruct (os_error E w (EvOpen packagePath)); [close_run|].
  destruct (files w packagePath); [|close_run].
  destruct (request_error E _ _); [close_run|].
  match goal with
  | |- context [http_answer E ?w0 ?t ?q] =>
    destruct (http_answer E w0 t q) as [resp [e|]]
  end; [close_run|].
  destruct (negb _ && negb _); close_run.
Qed.

Lemma pushHTTP_events (r : Repository) (packagePath : str) (w : World) :
  exists evs,
    trace (snd (pushHTTP E r packagePath w)) = trace w ++ evs /\
    forallb no_exec evs = true /\
    length (filter is_http evs) <= 1 /\
    files (snd (pushHTTP E r packagePath w)) = files w.
Proof.
  unfold pushHTTP, bind, os_Open, file_Stat, http_NewRequest, client_Do, ret.
  cbn [snd fst].
  destruct (os_error E w (EvOpen packagePath)); [close_run|].
  destruct (files w packagePath); [|close_run].
  cbn [snd fst].
  destruct (os_error E _ (EvStat packagePath)); [close_run|].
  destruct (request_error E _ _); [close_run|].
  match goal with
  | |- context [http_answer E ?w0 ?t ?q] =>
    destruct (http_answer E w0 t q) as [resp [e|]]
  end; [close_run|].
  destruct (_ || _); close_run.
Qed.

Lemma pushOCI_events (r : Repository) (packagePath : str) (w : World) :
  exists evs,
    trace (snd (pushOCI E r packagePath w)) = trace w ++ evs /\
    forallb is_exec evs = true.
Proof.
  unfold pushOCI, registryLogin, cmd_Run, bind, cmd_CombinedOutput, ret.
  destruct (nonempty (Username (config r)) && nonempty (Password (config r)));
    repeat match goal with
           | |- context [cmd_answer E ?w0 ?c] =>
             destruct (cmd_answer E w0 c) as [? [?|]]
           end;
    eexists; (split; [cbn [snd trace]; rewrite <- ?app_assoc; reflexivity
                     |reflexivity]).
Qed.

(** X10: a push to an oci repository works through subprocesses only: it
    opens no file and sends no request; a push to any other repository
    spawns no subprocess, sends one request at most and leaves every file
    as it is. *)
Theorem Push_effects_by_type (r : Repository) (packagePath : str) (w : World) :
  let evs := effects (Push E r packagePath) w in
  (Type_ (config r) = lit "oci" -> Forall (fun e => is_exec e = true) evs) /\
  (Type_ (config r) <> lit "oci" ->
   Forall (fun e => is_exec e = false) evs /\
   length (filter is_http evs) <= 1 /\
   files (snd (Push E r packagePath w)) = files w).
Proof.
  cbv zeta. split.
  - intros HT. unfold Push. rewrite HT.
    change (str_eqb (lit "oci") (lit "oci")) with true. cbv iota.
    destruct (pushOCI_events r packagePath w) as (evs & Ht & Hf).
    rewrite (effects_app _ w evs Ht). apply Forall_forall.
    now apply forallb_forall.
  - intros HT.
    assert (Hall : exists evs,
               trace (snd (Push E r packagePath w)) = trace w ++ evs /\
               forallb no_exec evs = true /\
               length (filter is_http evs) <= 1 /\
               files (snd (Push E r packagePath w)) = files w).
    { unfold Push. rewrite (str_eqb_neq _ _ HT).
      destruct (str_eqb (Type_ (config r)) (lit "chartmuseum"));
        [apply pushChartMuseum_events|].
      destruct (str_eqb (Type_ (config r)) (lit "http"));
        [apply pushHTTP_events|].
      exists []. cbn. rewrite app_nil_r. repeat split. lia. }
    destruct Hall as (evs & Ht & Hf & Hn & Hfiles).
    rewrite (effects_app _ w evs Ht). split; [|split; assumption].
    apply Forall_forall. intros e He.
    pose proof (proj1 (forallb_forall no_exec evs) Hf e He) as Hne.
    unfold no_exec in Hne. now destruct (is_exec e).
Qed.

(** X11: the upload to a chartmuseum repository is one POST request to
    [<url>/api/charts], or to [<url>/<context>/api/charts] when a context
    path is set, with the bytes of the package as its body and basic
    authentication exactly when the user name and the password are both
    set; a transport error ends the push with the wrapped error. *)
Theorem pushChartMuseum_request (r : Repository) (packagePath data : str)
        (w : World) :
  Type_ (config r) = lit "chartmuseum" ->
  os_error E w (EvOpen packagePath) = None ->
  files w packagePath = Some data ->
  let req := chartMuseumRequest r data in
  request_error E (lit "POST") (ReqURL req) = None ->
  effects (Push E r packagePath) w = [EvOpen packagePath; EvHTTP 60 req] /\
  Method req = lit "POST" /\ ReqBody req = data /\
  (contextPath r = [] -> ReqURL req = URL (config r) ++ lit "/api/charts") /\
  (contextPath r <> [] ->
   ReqURL req = URL (config r) ++ lit "/" ++ contextPath r ++ lit "/api/charts") /\
  (BasicAuth req <> None <->
   Username (config r) <> [] /\ Password (config r) <> []) /\
  forall resp e,
    http_answer E (record (EvOpen packagePath) w) 60 req = (resp, Some e) ->
    fst (Push E r packagePath w) = Some (lit "failed to push chart: " ++ e).
Proof.
  intros HT Hos Hfile req Hreq.
  assert (Hrun : Push E r packagePath w
                 = (let (resp, err) :=
                        http_answer E (record (EvOpen packagePath) w) 60 req in
                    match err with
                    | Some e => Some (lit "failed to push chart: " ++ e)
                    | None =>
                      if negb (StatusCode resp =? 201)%Z
                         && negb (StatusCode resp =? 200)%Z
                      then Some (upload_failed resp) else None
                    end,
                    record (EvHTTP 60 req) (record (EvOpen packagePath) w))).
  { unfold Push. rewrite HT.
    change (str_eqb (lit "chartmuseum") (lit "oci")) with false.
    change (str_eqb (lit "chartmuseum") (lit "chartmuseum")) with true.
    cbv iota.
    unfold pushChartMuseum, bind, os_Open. rewrite Hos, Hfile.
    unfold http_NewRequest. cbn [snd].
    subst req. unfold chartMuseumRequest in *. cbn [ReqURL] in Hreq.
    destruct (nonempty (contextPath r)); rewrite Hreq;
      unfold client_Do, Header_Set_ContentType, SetBasicAuth;
      cbn [Method ReqURL ContentType ContentLength BasicAuth ReqBody];
      destruct (nonempty (Username (config r)) && nonempty (Password (config r)));
      cbn [Method ReqURL ContentType ContentLength BasicAuth ReqBody];
      match goal with
      | |- context [http_answer E ?w0 ?t ?q] =>
        destruct (http_answer E w0 t q) as [resp [e|]]
      end;
      try reflexivity;
      destruct (negb (StatusCode resp =? 201)%Z && negb (StatusCode resp =? 200)%Z);
      reflexivity. }
  split; [|split; [reflexivity|split; [reflexivity|split; [|split; [|split]]]]].
  - apply effects_app. rewrite Hrun. unfold record. cbn [snd trace].
    destruct (http_answer E _ 60 req). cbn [snd trace].
    now rewrite <- app_assoc.
  - intros Hc. subst req. unfold chartMuseumRequest. cbn [ReqURL].
    now rewrite Hc.
  - intros Hc. subst req. unfold chartMuseumRequest. cbn [ReqURL].
    now rewrite (nonempty_true _ Hc).
  - subst req. unfold chartMuseumRequest. cbn [BasicAuth].
    destruct (Username (config r)), (Password (config r)); cbn;
      split; try (intros H; now contradiction H); try (intros [H1 H2]; congruence);
      try (intros _; split; discriminate); discriminate.
  - intros resp e Hans. rewrite Hrun, Hans. reflexivity.
Qed.

(** X12: a package that cannot be opened, missing or refused by the
    operating system, ends a push to a chartmuseum or http repository at
    once with the wrapped error: the attempt to open the file is the only
    effect, so that no request is sent. *)
Theorem Push_open_failure (r : Repository) (packagePath : str) (w : World) :
  Type_ (config r) = lit "chartmuseum" \/ Type_ (config r) = lit "http" ->
  os_error E w (EvOpen packagePath) <> None \/ files w packagePath = None ->
  exists e,
    snd (fst (os_Open E packagePath w)) = Some e /\
    Push E r packagePath w
    = (Some (lit "failed to open package: " ++ e), record (EvOpen packagePath) w) /\
    (os_error E w (EvOpen packagePath) = None -> e = not_exist packagePath).
Proof.
  intros HT Hfail.
  assert (Hopen : exists e,
             os_Open E packagePath w
             = (((packagePath, []), Some e), record (EvOpen packagePath) w) /\
             (os_error E w (EvOpen packagePath) = None ->
              e = not_exist packagePath)).
  { unfold os_Open.
    destruct (os_error E w (EvOpen packagePath)) as [e|] eqn:Hos.
    - exists e. split; [reflexivity|discriminate].
    - destruct Hfail as [H|H]; [now contradiction H|]. rewrite H.
      exists (not_exist packagePath). split; reflexivity. }
  destruct Hopen as (e & Hopen & Hmissing).
  exists e. split; [now rewrite Hopen|]. split; [|exact Hmissing].
  unfold Push.
  destruct HT as [HT|HT]; rewrite HT.
  - change (str_eqb (lit "chartmuseum") (lit "oci")) with false.
    change (str_eqb (lit "chartmuseum") (lit "chartmuseum")) with true.
    cbv iota. unfold pushChartMuseum, bind. now rewrite Hopen.
  - change (str_eqb (lit "http") (lit "oci")) with false.
    change (str_eqb (lit "http") (lit "chartmuseum")) with false.
    change (str_eqb (lit "http") (lit "http")) with true.
    cbv iota. unfold pushHTTP, bind. now rewrite Hopen.
Qed.

(** X13: [Logout] does nothing for a repository that is not of type oci;
    for an oci repository it spawns [helm registry logout] once, for the
    host the login of a push is made to, and answers with the exit error
    of that subprocess. *)
Theorem Logout_host (r : Repository) (w : World) :
  (Type_ (config r) <> lit "oci" -> Logout E r w = (None, w)) /\
  (Type_ (config r) = lit "oci" ->
   exists host,
     host_of (URL (config r)) host /\
     effects (Logout E r) w = [EvExec (logoutCmd host)] /\
     fst (Logout E r w) = snd (cmd_answer E w (logoutCmd host)) /\
     (Username (config r) <> [] -> Password (config r) <> [] ->
      forall packagePath w',
      exists rest,
        effects (Push E r packagePath) w'
        = EvExec (loginCmd host (Username (config r)) (Password (config r)))
                 :: rest)).
Proof.
  split.
  - intros HT. unfold Logout. now rewrite (str_eqb_neq _ _ HT).
  - intros HT.
    set (host := hd [] (strings.SplitN
                          (strings.TrimPrefix (URL (config r)) (lit "oci://"))
                          (lit "/") 2)).
    assert (Hrun : Logout E r w
                   = (snd (cmd_answer E w (logoutCmd host)),
                      mkWorld (cmd_files E w (logoutCmd host))
                              (trace w ++ [EvExec (logoutCmd host)]))).
    { unfold Logout. rewrite HT.
      change (str_eqb (lit "oci") (lit "oci")) with true. cbn [negb].
      unfold cmd_Run, bind, cmd_CombinedOutput, ret, logoutCmd. subst host.
      destruct (cmd_answer E w _); reflexivity. }
    exists host. split; [|split; [|split]].
    + destruct (SplitN_2_head "/"%char
                  (strings.TrimPrefix (URL (config r)) (lit "oci://")))
        as (tail & Hs & Hin & Ht).
      exists (strings.TrimPrefix (URL (config r)) (lit "oci://")), tail.
      split; [apply TrimPrefix_without|]. split; [exact Hs|]. split; assumption.
    + apply effects_app. now rewrite Hrun.
    + now rewrite Hrun.
    + intros HU HP packagePath w'.
      assert (Hc : nonempty (Username (config r)) && nonempty (Password (config r))
                   = true)
        by (now rewrite !nonempty_true).
      pose proof (pushOCI_with_credentials E r packagePath w' HT Hc) as Hpush.
      cbv zeta in Hpush. fold host in Hpush.
      destruct (snd (cmd_answer E w' (loginCmd host (Username (config r))
                                               (Password (config r))))) eqn:Hl;
        try rewrite Hl in Hpush.
      * eexists. apply effects_app. rewrite Hpush. reflexivity.
      * eexists. apply effects_app. rewrite Hpush. cbn [snd trace].
        rewrite <- app_assoc. reflexivity.
Qed.

End RepositoryEffects.

(** ** The plugin file: the hooks *)

Section HookProperties.

Variable E : Env.

Lemma orReturn_eq (step : M (option str)) (rest : M (ExecuteResponse * error))
      (w : World) :
  orReturn step rest w
  = match fst (step w) with
    | Some m => failure m (snd (step w))
    | None => rest (snd (step w))
    end.
Proof. unfold orReturn. rewrite bind_eq. now destruct (fst (step w)). Qed.

Lemma guarded_real (info dryInfo failed : str) (action : M error) (w : World) :
  guarded false info dryInfo failed action w
  = (match fst (action (record (EvLog info) w)) with
     | Some e => Some (failed ++ e)
     | None => None
     end,
     snd (action (record (EvLog info) w))).
Proof.
  unfold guarded. rewrite bind_eq. cbn [logger_Info fst snd]. rewrite bind_eq.
  now destruct (fst (action (record (EvLog info) w))).
Qed.

Lemma ParseChart_ok (dir text : str) (chart : Chart) (w : World) :
  let chartFile := filepath_Join E dir (lit "Chart.yaml") in
  os_error E w (EvReadFile chartFile) = None ->
  files w chartFile = Some text ->
  yaml_Unmarshal E text = (chart, None) ->
  ParseChart E dir w = ((Some chart, None), record (EvReadFile chartFile) w).
Proof.
  intros chartFile Hos Hfile Hyaml. unfold ParseChart, bind, os_ReadFile.
  fold chartFile. now rewrite Hos, Hfile, Hyaml.
Qed.

(** *** No Go error *)

Lemma orReturn_error_nil (step : M (option str))
      (rest : M (ExecuteResponse * error)) :
  (forall w, snd (fst (rest w)) = None) ->
  forall w, snd (fst (orReturn step rest w)) = None.
Proof.
  intros H w. rewrite orReturn_eq. destruct (fst (step w)); [reflexivity|apply H].
Qed.

Lemma executePrePublish_error_nil (version : str) (cfg : Config) (w : World) :
  snd (fst (executePrePublish E version cfg w)) = None.
Proof.
  unfold executePrePublish. rewrite bind_eq.
  destruct (ParseChart E _ w) as [[[chart|] [e|]] w1]; cbn [fst snd];
    try reflexivity.
  repeat (apply orReturn_error_nil; intros ?).
  now rewrite bind_eq.
Qed.

Lemma executePostPublish_error_nil (version : str) (cfg : Config) (w : World) :
  snd (fst (executePostPublish E version cfg w)) = None.
Proof.
  unfold executePostPublish, bind, failure, ret, logger_Info.
  destruct (ParseChart E _ w) as [[[c|] [e|]] w1]; cbn [fst snd];
    try reflexivity.
  destruct (DryRun cfg); cbn [negb]; [reflexivity|].
  destruct (os_MkdirAll E _ w1) as [[e|] w2]; cbn [fst snd]; [reflexivity|].
  destruct (Package E _ _ _ _) as [[path [e|]] w4]; cbn [fst snd];
    [reflexivity|].
  destruct (Push E _ _ _) as [[e|] w6]; reflexivity.
Qed.

(** X14: [Execute] never returns a Go error, whatever the hook, the
    configuration and the world: every failure of a hook is reported in
    the response. *)
Theorem Execute_error_nil (parser : ConfigParser) (req : ExecuteRequest)
        (w : World) :
  snd (fst (Execute E parser req w)) = None /\
  (forall version cfg w',
      snd (fst (executePrePublish E version cfg w')) = None /\
      snd (fst (executePostPublish E version cfg w')) = None).
Proof.
  split.
  - unfold Execute. destruct (ReqHook req).
    + apply executePrePublish_error_nil.
    + apply executePostPublish_error_nil.
    + reflexivity.
  - intros version cfg w'. split.
    + apply executePrePublish_error_nil.
    + apply executePostPublish_error_nil.
Qed.

(** *** Dry runs *)

Lemma confined_orReturn (P : event -> bool) (step : M (option str))
      (rest : M (ExecuteResponse * error)) :
  confined P step -> confined P rest -> confined P (orReturn step rest).
Proof.
  intros Hs Hr. unfold orReturn. apply confined_bind; [exact Hs|].
  intros [m|]; [apply confined_ret|exact Hr].
Qed.

Lemma keeps_orReturn (step : M (option str)) (rest : M (ExecuteResponse * error)) :
  keeps_files step -> keeps_files rest -> keeps_files (orReturn step rest).
Proof.
  intros Hs Hr. unfold orReturn. apply keeps_bind; [exact Hs|].
  intros [m|]; [apply keeps_ret|exact Hr].
Qed.

Lemma confined_guarded_dry (info dryInfo failed : str) (action : M error) :
  confined observes (guarded true info dryInfo failed action).
Proof.
  unfold guarded. apply confined_bind; [now apply confined_logger|].
  intros _. apply confined_bind; [now apply confined_logger|].
  intros _. apply confined_ret.
Qed.

Lemma keeps_guarded_dry (info dryInfo failed : str) (action : M error) :
  keeps_files (guarded true info dryInfo failed action).
Proof. intros w. reflexivity. Qed.

Lemma executePrePublish_dry (version : str) (cfg : Config) :
  DryRun cfg = true ->
  confined observes (executePrePublish E version cfg) /\
  keeps_files (executePrePublish E version cfg).
Proof.
  intros Hd. unfold executePrePublish. rewrite Hd. cbv zeta. split.
  - apply confined_bind; [now apply confined_ParseChart|].
    intros [[chart|] [e|]]; try apply confined_ret.
    repeat (apply confined_orReturn;
            [match goal with
             | |- confined _ (if ?b then _ else _) => destruct b
             end; (apply confined_guarded_dry || apply confined_ret)|]).
    apply confined_bind; [now apply confined_logger|].
    intros _. apply confined_ret.
  - apply keeps_bind; [apply keeps_ParseChart|].
    intros [[chart|] [e|]]; try apply keeps_ret.
    repeat (apply keeps_orReturn;
            [match goal with
             | |- keeps_files (if ?b then _ else _) => destruct b
             end; (apply keeps_guarded_dry || apply keeps_ret)|]).
    intros w. reflexivity.
Qed.

Lemma executePostPublish_dry (version : str) (cfg : Config) :
  DryRun cfg = true ->
  confined observes (executePostPublish E version cfg) /\
  keeps_files (executePostPublish E version cfg).
Proof.
  intros Hd. unfold executePostPublish. rewrite Hd. cbv zeta. cbn [negb]. split.
  - apply confined_bind; [now apply confined_ParseChart|].
    intros [[chart|] [e|]]; try apply confined_ret.
    repeat first
           [apply confined_ret
           |apply confined_logger; reflexivity
           |apply confined_bind; [|intros ?]
           |match goal with
            | |- confined _ (match ?x with _ => _ end) => destruct x
            end].
  - apply keeps_bind; [apply keeps_ParseChart|].
    intros [[chart|] [e|]]; try apply keeps_ret.
    intros w. reflexivity.
Qed.

(** X15: a dry run changes nothing.  When the request or the configuration
    asks for a dry run, [Execute] only reads the manifest and logs,
    whatever the hook, the configuration and the answers of the operating
    system: no subprocess, no request, no directory made, no file written
    or opened, and the files are as they were. *)
Theorem Execute_dry_run (parser : ConfigParser) (req : ExecuteRequest)
        (w : World) :
  DryRun (parseConfig parser (ReqConfig req)) = true \/ ReqDryRun req = true ->
  Forall (fun e => observes e = true) (effects (Execute E parser req) w) /\
  files (snd (Execute E parser req w)) = files w.
Proof.
  intros Hdry.
  set (cfg := set_DryRun (DryRun (parseConfig parser (ReqConfig req))
                          || ReqDryRun req)
                         (parseConfig parser (ReqConfig req))).
  assert (Hd : DryRun cfg = true).
  { subst cfg. unfold set_DryRun. cbn [DryRun].
    destruct Hdry as [H|H]; rewrite H; [reflexivity|apply orb_true_r]. }
  assert (Hq : confined observes (Execute E parser req) /\
               keeps_files (Execute E parser req)).
  { unfold Execute. fold cfg. destruct (ReqHook req).
    - now apply executePrePublish_dry.
    - now apply executePostPublish_dry.
    - split; [apply confined_ret|apply keeps_ret]. }
  destruct Hq as [Hc Hk]. split; [now apply confined_effects|apply Hk].
Qed.

(** *** The subprocesses of a successful pre-publish *)

Lemma spawns_effects {A : Type} (m : M A) (w : World) (cmds : list Cmd) :
  spawns m w cmds -> execs (effects m w) = map EvExec cmds.
Proof. intros (evs & Ht & He). now rewrite (effects_app m w evs Ht). Qed.

Lemma spawns_confined {A : Type} (m : M A) (w : World) :
  confined no_exec m -> spawns m w [].
Proof.
  intros H. destruct (H w) as (evs & Ht & Hf). exists evs.
  split; [exact Ht|now apply execs_none].
Qed.

Lemma spawns_bind {A B : Type} (m : M A) (k : A -> M B) (w : World)
      (c1 c2 : list Cmd) :
  spawns m w c1 -> spawns (k (fst (m w))) (snd (m w)) c2 ->
  spawns (bind m k) w (c1 ++ c2).
Proof.
  intros (e1 & H1 & X1) (e2 & H2 & X2). exists (e1 ++ e2). rewrite bind_eq.
  split.
  - now rewrite H2, H1, app_assoc.
  - now rewrite execs_app, X1, X2, map_app.
Qed.

Lemma spawns_orReturn (step : M (option str))
      (rest : M (ExecuteResponse * error)) (w : World) (c1 c2 : list Cmd) :
  Success (fst (fst (orReturn step rest w))) = true ->
  spawns step w c1 ->
  (Success (fst (fst (rest (snd (step w))))) = true ->
   spawns rest (snd (step w)) c2) ->
  spawns (orReturn step rest) w (c1 ++ c2).
Proof.
  intros Hs (e1 & H1 & X1) Hrest. rewrite orReturn_eq in Hs.
  unfold spawns. rewrite orReturn_eq.
  destruct (fst (step w)); [discriminate Hs|].
  destruct (Hrest Hs) as (e2 & H2 & X2). exists (e1 ++ e2). split.
  - now rewrite H2, H1, app_assoc.
  - now rewrite execs_app, X1, X2, map_app.
Qed.

Lemma spawns_guarded_cmd (info dryInfo failed : str) (cmd : Cmd) (w : World) :
  spawns (guarded false info dryInfo failed (cmd_Run E cmd)) w [cmd].
Proof.
  exists [EvLog info; EvExec cmd]. rewrite guarded_real.
  unfold cmd_Run, bind, cmd_CombinedOutput, ret.
  destruct (cmd_answer E _ cmd). cbn [snd trace record].
  split; [now rewrite <- app_assoc|reflexivity].
Qed.

Lemma confined_UpdateChartVersion (P : event -> bool) (dir version appVersion : str) :
  (forall data, P (EvWriteFile (filepath_Join E dir (lit "Chart.yaml")) data)
                = true) ->
  P (EvReadFile (filepath_Join E dir (lit "Chart.yaml"))) = true ->
  confined P (UpdateChartVersion E dir version appVersion).
Proof.
  intros Hw Hr. unfold UpdateChartVersion.
  apply confined_bind; [now apply confined_ReadFile|].
  intros [data [e|]]; [apply confined_ret|].
  match goal with
  | |- confined _ (if ?b then _ else _) => destruct b
  end; [apply confined_ret|].
  apply confined_bind; [now apply confined_WriteFile|].
  intros [e|]; apply confined_ret.
Qed.

Lemma spawns_guarded_update (info dryInfo failed dir version appVersion : str)
      (w : World) :
  spawns (guarded false info dryInfo failed
                  (UpdateChartVersion E dir version appVersion)) w [].
Proof.
  apply spawns_confined. unfold guarded.
  apply confined_bind; [now apply confined_logger|]. intros _.
  apply confined_bind; [now apply confined_UpdateChartVersion|].
  intros [e|]; apply confined_ret.
Qed.

(** X16: when a real run of [executePrePublish] answers with success, the
    subprocesses it has spawned are those of the steps the configuration
    enables, once each and in this order: [helm dependency update],
    [helm dependency build], [helm lint] (with [--strict] when asked for)
    and [helm template] (with the Kubernetes version when set and one
    [--api-versions] option for each API version). *)
Theorem executePrePublish_commands (version : str) (cfg : Config) (w : World) :
  DryRun cfg = false ->
  Success (fst (fst (executePrePublish E version cfg w))) = true ->
  execs (effects (executePrePublish E version cfg) w)
  = map EvExec (prePublishCmds cfg).
Proof.
  intros Hd Hs. apply spawns_effects.
  replace (prePublishCmds cfg)
    with ([] ++ [] ++
          (if Dep_Update (Dependencies_ cfg)
           then [dependencyCmd (lit "update") (chartPath_of cfg)] else [])
            ++ (if Dep_Build (Dependencies_ cfg)
                then [dependencyCmd (lit "build") (chartPath_of cfg)] else [])
            ++ (if Lint cfg then [lintCmd (chartPath_of cfg) (LintStrict cfg)]
                else [])
            ++ (if TemplateValidate cfg
                then [templateCmd (chartPath_of cfg) (Cfg_KubeVersion cfg)
                                  (APIVersions cfg)]
                else []) ++ [])
    by (unfold prePublishCmds; cbn [app]; now rewrite app_nil_r).
  unfold executePrePublish in *. cbv zeta in *. fold (chartPath_of cfg) in *.
  rewrite Hd in *. rewrite bind_eq in Hs.
  apply spawns_bind;
    [apply spawns_confined; now apply confined_ParseChart|].
  destruct (ParseChart E (chartPath_of cfg) w) as [[[chart|] [e|]] w1];
    cbn [fst snd] in *; try discriminate Hs.
  apply (spawns_orReturn _ _ _ _ _ Hs);
    [destruct (UpdateChart (Version_ cfg));
     [apply spawns_guarded_update|apply spawns_confined, confined_ret]|].
  clear Hs; intros Hs.
  apply (spawns_orReturn _ _ _ _ _ Hs);
    [destruct (Dep_Update (Dependencies_ cfg));
     [apply spawns_guarded_cmd|apply spawns_confined, confined_ret]|].
  clear Hs; intros Hs.
  apply (spawns_orReturn _ _ _ _ _ Hs);
    [destruct (Dep_Build (Dependencies_ cfg));
     [apply spawns_guarded_cmd|apply spawns_confined, confined_ret]|].
  clear Hs; intros Hs.
  apply (spawns_orReturn _ _ _ _ _ Hs);
    [destruct (Lint cfg);
     [rewrite HelmCLI_Lint_run; apply spawns_guarded_cmd
     |apply spawns_confined, confined_ret]|].
  clear Hs; intros Hs.
  apply (spawns_orReturn _ _ _ _ _ Hs);
    [destruct (TemplateValidate cfg);
     [rewrite HelmCLI_Template_run; apply spawns_guarded_cmd
     |apply spawns_confined, confined_ret]|].
  intros _. apply spawns_confined.
  apply confined_bind; [now apply confined_logger|]. intros _. apply confined_ret.
Qed.

(** *** A manifest without a version line *)

Lemma Match_version_absent (text : str) :
  (forall l, In l (lines text) -> strings.HasPrefix l (lit "version:") = false) ->
  regexp.Match versionPattern text = false.
Proof.
  intros Hno. rewrite <- (Join_lines text) at 1. rewrite Match_version.
  - apply not_true_is_false. intros Hex.
    apply existsb_exists in Hex as (l & Hl & Hp). rewrite (Hno l Hl) in Hp.
    discriminate.
  - apply Forall_forall. intros l Hl. split.
    + pose proof (lines_no_nl text) as Hnl. rewrite Forall_forall in Hnl. auto.
    + intros Hp. rewrite (Hno l Hl) in Hp. discriminate.
Qed.

(** X17: a manifest that parses but has no line starting with [version:]
    (the key is indented or quoted, say) stops a real run of
    [executePrePublish] at its first step: the response is a failure that
    carries the not-found error of the patcher, the manifest has been read
    twice and nothing else has happened: no subprocess, no file changed. *)
Theorem executePrePublish_no_version_field (version : str) (cfg : Config)
        (chart : Chart) (text : str) (w : World) :
  DryRun cfg = false ->
  UpdateChart (Version_ cfg) = true ->
  let chartFile := filepath_Join E (chartPath_of cfg) (lit "Chart.yaml") in
  let info := EvLog (lit "Updating version in Chart.yaml") in
  os_error E w (EvReadFile chartFile) = None ->
  os_error E (record info (record (EvReadFile chartFile) w))
           (EvReadFile chartFile) = None ->
  files w chartFile = Some text ->
  yaml_Unmarshal E text = (chart, None) ->
  (forall l, In l (lines text) -> strings.HasPrefix l (lit "version:") = false) ->
  fst (executePrePublish E version cfg w)
  = (mkExecuteResponse
       false
       (lit "Failed to update Chart.yaml version: version field not found in Chart.yaml"),
     None) /\
  effects (executePrePublish E version cfg) w
  = [EvReadFile chartFile; info; EvReadFile chartFile] /\
  files (snd (executePrePublish E version cfg w)) = files w.
Proof.
  intros Hd HU chartFile info Hos Hos2 Hfile Hyaml Hno.
  assert (Hrun : executePrePublish E version cfg w
                 = ((mkExecuteResponse
                       false
                       (lit "Failed to update Chart.yaml version: version field not found in Chart.yaml"),
                     None),
                    record (EvReadFile chartFile)
                           (record info (record (EvReadFile chartFile) w)))).
  { unfold executePrePublish. cbv zeta. fold (chartPath_of cfg).
    rewrite Hd, HU, bind_eq.
    rewrite (ParseChart_ok (chartPath_of cfg) text chart w Hos Hfile Hyaml).
    cbn [fst snd]. fold chartFile. rewrite orReturn_eq, guarded_real.
    fold info.
    rewrite (UpdateChartVersion_no_match
               E (chartPath_of cfg)
               (record info (record (EvReadFile chartFile) w)) text Hos2 Hfile _ _
               (Match_version_absent text Hno)).
    reflexivity. }
  rewrite Hrun. split; [reflexivity|]. split; [|reflexivity].
  apply effects_app. rewrite Hrun. unfold record. cbn [snd trace].
  now rewrite <- !app_assoc.
Qed.

(** *** The real run of the post-publish hook *)

(** X18: in a real run of [executePostPublish] on a manifest that parses,
    after the output directory has been made, the outcome is that of the
    packaging and of the push.  When [Package] fails the response is a
    failure with its error and the run ends there, nothing being pushed;
    otherwise the path [Package] returned is pushed to the repository of
    the configuration, with its context path; a failed push gives a
    failure with its error, a push that succeeds the message
    [Published <name>@<version> to <url>]. *)
Theorem executePostPublish_real_run (version : str) (cfg : Config)
        (chart : Chart) (text : str) (w : World) :
  DryRun cfg = false ->
  let chartFile := filepath_Join E (chartPath_of cfg) (lit "Chart.yaml") in
  os_error E w (EvReadFile chartFile) = None ->
  files w chartFile = Some text ->
  yaml_Unmarshal E text = (chart, None) ->
  os_error E (record (EvReadFile chartFile) w) (EvMkdirAll (outputDir_of cfg))
  = None ->
  let pkg := Package E (NewHelmCLI (chartPath_of cfg)) (outputDir_of cfg)
                     (signOpts_of cfg) (beforePackage E cfg w) in
  let push := Push E (repository_of cfg) (fst (fst pkg))
                   (record (EvLog (lit "Pushing chart to repository"))
                           (snd pkg)) in
  (forall e,
      snd (fst pkg) = Some e ->
      executePostPublish E version cfg w
      = ((mkExecuteResponse false (lit "Failed to package chart: " ++ e), None),
         snd pkg)) /\
  (forall e,
      snd (fst pkg) = None -> fst push = Some e ->
      executePostPublish E version cfg w
      = ((mkExecuteResponse false (lit "Failed to push chart: " ++ e), None),
         snd push)) /\
  (snd (fst pkg) = None -> fst push = None ->
   executePostPublish E version cfg w
   = ((mkExecuteResponse
         true
         (lit "Published " ++ Name chart ++ lit "@" ++ version ++ lit " to "
              ++ URL (Repository_ cfg)),
       None),
      record (EvLog (lit "PostPublish completed successfully")) (snd push))).
Proof.
  intros Hd chartFile Hos Hfile Hyaml Hmk pkg push.
  assert (Hrun : executePostPublish E version cfg w
                 = match snd (fst pkg) with
                   | Some e =>
                     ((mkExecuteResponse false (lit "Failed to package chart: " ++ e),
                       None), snd pkg)
                   | None =>
                     match fst push with
                     | Some e =>
                       ((mkExecuteResponse false (lit "Failed to push chart: " ++ e),
                         None), snd push)
                     | None =>
                       ((mkExecuteResponse
                           true
                           (lit "Published " ++ Name chart ++ lit "@" ++ version
                                ++ lit " to " ++ URL (Repository_ cfg)),
                         None),
                        record (EvLog (lit "PostPublish completed successfully"))
                               (snd push))
                     end
                   end).
  { subst pkg push. unfold beforePackage. fold chartFile.
    unfold executePostPublish. cbv zeta.
    fold (chartPath_of cfg). fold (outputDir_of cfg). fold (signOpts_of cfg).
    fold (repository_of cfg).
    rewrite Hd, bind_eq.
    rewrite (ParseChart_ok (chartPath_of cfg) text chart w Hos Hfile Hyaml).
    cbn [fst snd negb]. fold chartFile.
    rewrite bind_eq. unfold os_MkdirAll. cbn [fst snd]. rewrite Hmk.
    rewrite bind_eq. cbn [logger_Info fst snd].
    rewrite bind_eq.
    match goal with
    | |- context [Package E ?h ?d ?o ?w0] =>
      destruct (Package E h d o w0) as [[path [e|]] w4]
    end; cbn [fst snd]; [reflexivity|].
    rewrite bind_eq. cbn [logger_Info fst snd]. rewrite bind_eq.
    match goal with
    | |- context [Push E ?r ?p ?w0] =>
      destruct (Push E r p w0) as [[e|] w6]
    end; cbn [fst snd]; [reflexivity|].
    rewrite bind_eq. reflexivity. }
  rewrite Hrun. split; [|split].
  - intros e He. now rewrite He.
  - intros e Hp He. now rewrite Hp, He.
  - intros Hp He. now rewrite Hp, He.
Qed.

(** X19: in a real run of [executePostPublish] the output directory of the
    configuration, [.helm-packages] when none is set, is made before
    anything is packaged, and a failure to make it ends the run with a
    failure response: the manifest has been read and no subprocess
    spawned. *)
Theorem executePostPublish_mkdir_failure (version : str) (cfg : Config)
        (chart : Chart) (text e : str) (w : World) :
  DryRun cfg = false ->
  let chartFile := filepath_Join E (chartPath_of cfg) (lit "Chart.yaml") in
  os_error E w (EvReadFile chartFile) = None ->
  files w chartFile = Some text ->
  yaml_Unmarshal E text = (chart, None) ->
  os_error E (record (EvReadFile chartFile) w) (EvMkdirAll (outputDir_of cfg))
  = Some e ->
  executePostPublish E version cfg w
  = ((mkExecuteResponse false (lit "Failed to create output directory: " ++ e),
      None),
     mkWorld (files w)
             (trace w ++ [EvReadFile chartFile; EvMkdirAll (outputDir_of cfg)])) /\
  (OutputDir cfg = [] -> outputDir_of cfg = lit ".helm-packages").
Proof.
  intros Hd chartFile Hos Hfile Hyaml Hmk. split.
  - unfold executePostPublish. cbv zeta.
    fold (chartPath_of cfg). fold (outputDir_of cfg).
    rewrite Hd, bind_eq.
    rewrite (ParseChart_ok (chartPath_of cfg) text chart w Hos Hfile Hyaml).
    cbn [fst snd negb]. fold chartFile.
    rewrite bind_eq. unfold os_MkdirAll. cbn [fst snd]. rewrite Hmk.
    unfold failure, ret, record. cbn [files trace]. now rewrite <- app_assoc.
  - intros H. unfold outputDir_of. now rewrite H.
Qed.

End HookProperties.

(** *** The configuration *)

Lemma strings_of_fold (l : list any) (acc : list str) :
  fold_left (fun acc v => match v with
                          | AString s => acc ++ [s]
                          | _ => acc
                          end) l acc
  = acc ++ strings_of l.
Proof.
  revert acc. induction l as [|v l IH]; intros acc.
  - cbn. now rewrite app_nil_r.
  - cbn [fold_left]. rewrite IH. unfold strings_of. cbn [flat_map].
    destruct v; cbn [app]; try reflexivity. now rewrite <- app_assoc.
Qed.

(** X20: [parseConfig] keeps of the [api_versions] entry the strings of the
    slice, in order, and drops every other element without a word; an
    entry that is not a slice, or no entry, gives no API version. *)
Theorem parseConfig_api_versions (parser : ConfigParser) (raw : rawConfig) :
  APIVersions (parseConfig parser raw)
  = match raw (lit "api_versions") with
    | Some (ASlice l) => strings_of l
    | _ => []
    end.
Proof.
  unfold parseConfig. cbn [APIVersions]. unfold as_slice.
  destruct (raw (lit "api_versions")) as [[s|b|m|l|]|]; try reflexivity.
  now rewrite strings_of_fold.
Qed.

(** ** The plugin file: the manifest update of the pre-publish hook *)

Lemma Replace_go_no_brace (new s : str) :
  ~ In "{"%char s -> strings_Replace_go placeholder new 0 s = s.
Proof.
  induction s as [|c s IH]; intros Hn; [reflexivity|].
  cbn [strings_Replace_go].
  replace (strings.HasPrefix (c :: s) placeholder) with false.
  - rewrite IH; [reflexivity|]. intros H. apply Hn. now right.
  - symmetry. unfold placeholder. cbn.
    destruct (Ascii.eqb_spec c "{"%char) as [->|Hc]; [|reflexivity].
    exfalso. apply Hn. now left.
Qed.

Lemma Replace_go_placeholder (new pre post : str) :
  ~ In "{"%char pre ->
  strings_Replace_go placeholder new 0 (pre ++ placeholder ++ post)
  = pre ++ new ++ strings_Replace_go placeholder new 0 post.
Proof.
  induction pre as [|c pre IH]; intros Hn.
  - cbn [app]. destruct post as [|p post]; reflexivity.
  - cbn [app strings_Replace_go].
    replace (strings.HasPrefix (c :: pre ++ placeholder ++ post) placeholder)
      with false.
    + rewrite IH; [reflexivity|]. intros H. apply Hn. now right.
    + symmetry. unfold placeholder at 2. cbn.
      destruct (Ascii.eqb_spec c "{"%char) as [->|Hc]; [|reflexivity].
      exfalso. apply Hn. now left.
Qed.

Section UpdateStep.

Variable E : Env.

Lemma confined_cmd_Run (P : event -> bool) (cmd : Cmd) :
  P (EvExec cmd) = true -> confined P (cmd_Run E cmd).
Proof.
  intros H w. exists [EvExec cmd]. unfold cmd_Run, bind, cmd_CombinedOutput, ret.
  destruct (cmd_answer E w cmd). cbn. now rewrite H.
Qed.

Lemma confined_guarded (P : event -> bool) (dry : bool)
      (info dryInfo failed : str) (action : M error) :
  P (EvLog info) = true -> P (EvLog dryInfo) = true -> confined P action ->
  confined P (guarded dry info dryInfo failed action).
Proof.
  intros Hi Hd Ha. unfold guarded.
  apply confined_bind; [now apply confined_logger|]. intros _.
  destruct dry.
  - apply confined_bind; [now apply confined_logger|]. intros _.
    apply confined_ret.
  - apply confined_bind; [exact Ha|]. intros [e|]; apply confined_ret.
Qed.

(** The run of the update step of [executePrePublish], in the model. *)
Lemma executePrePublish_update_run (version : str) (cfg : Config)
        (chart : Chart) (text : str) (w : World) :
  DryRun cfg = false ->
  UpdateChart (Version_ cfg) = true ->
  let chartFile := filepath_Join E (chartPath_of cfg) (lit "Chart.yaml") in
  let info := EvLog (lit "Updating version in Chart.yaml") in
  let w2 := record info (record (EvReadFile chartFile) w) in
  let new :=
    strings.Join (patched_lines version (appVersion_of version cfg) (lines text))
                 [NL] in
  os_error E w (EvReadFile chartFile) = None ->
  os_error E w2 (EvReadFile chartFile) = None ->
  os_error E (record (EvReadFile chartFile) w2) (EvWriteFile chartFile new)
  = None ->
  files w chartFile = Some text ->
  yaml_Unmarshal E text = (chart, None) ->
  well_formed_lines (lines text) ->
  has_version_line (lines text) = true ->
  plain_version version ->
  ~ In "$"%char (appVersion_of version cfg) ->
  exists rest,
    effects (executePrePublish E version cfg) w
    = [EvReadFile chartFile; info; EvReadFile chartFile;
       EvWriteFile chartFile new] ++ rest.
Proof.
  intros Hd HU chartFile info w2 new Hos Hos2 Hwrite Hfile Hyaml Hwf Hhas Hplain
         Had.
  pose proof (UpdateChartVersion_patched
                E (chartPath_of cfg) version (appVersion_of version cfg) text w2
                Hos2 Hfile Hwrite Hwf Hhas Hplain Had) as Hupd.
  cbv zeta in Hupd. fold chartFile in Hupd. fold new in Hupd.
  set (w3 := mkWorld (store chartFile new (files w2))
                     (trace w2 ++ [EvReadFile chartFile;
                                   EvWriteFile chartFile new])) in *.
  assert (Hrest : exists rest m,
             executePrePublish E version cfg w = m w3 /\
             trace (snd (m w3)) = trace w3 ++ rest).
  { unfold executePrePublish. cbv zeta. fold (chartPath_of cfg).
    fold (appVersion_of version cfg).
    rewrite Hd, HU, bind_eq.
    rewrite (ParseChart_ok E (chartPath_of cfg) text chart w Hos Hfile Hyaml).
    cbn [fst snd]. fold chartFile. rewrite orReturn_eq, guarded_real.
    fold info. fold w2. rewrite Hupd. cbn [fst snd].
    match goal with
    | |- exists rest m, ?r w3 = _ /\ _ =>
      assert (Hc : confined (fun _ => true) r)
    end.
    { repeat (apply confined_orReturn;
              [match goal with
               | |- confined _ (if ?b then _ else _) => destruct b
               end;
               [apply confined_guarded; try reflexivity;
                try (apply confined_cmd_Run; reflexivity)
               |apply confined_ret]|]).
      apply confined_bind; [now apply confined_logger|]. intros _.
      apply confined_ret. }
    destruct (Hc w3) as (rest & Ht & _).
    eexists rest, _. split; [reflexivity|exact Ht]. }
  destruct Hrest as (rest & m & Hrun & Ht).
  exists rest. apply effects_app. rewrite Hrun, Ht.
  subst w3 w2. unfold record. cbn [trace]. now rewrite <- !app_assoc.
Qed.

(** The value of the secondary version, by the configuration. *)
Lemma appVersion_of_format (version : str) (cfg : Config) :
  (UpdateAppVersion (Version_ cfg) = false -> appVersion_of version cfg = []) /\
  (UpdateAppVersion (Version_ cfg) = true ->
   (AppVersionFormat (Version_ cfg) = [] -> appVersion_of version cfg = version) /\
   (~ In "{"%char (AppVersionFormat (Version_ cfg)) ->
    AppVersionFormat (Version_ cfg) <> [] ->
    appVersion_of version cfg = AppVersionFormat (Version_ cfg)) /\
   (forall pre post,
       AppVersionFormat (Version_ cfg) = pre ++ placeholder ++ post ->
       ~ In "{"%char pre -> ~ In "{"%char post ->
       appVersion_of version cfg = pre ++ version ++ post)).
Proof.
  unfold appVersion_of. split; [intros ->; reflexivity|].
  intros ->. split; [intros ->; reflexivity|]. split.
  - intros Hn Hne. rewrite (nonempty_true _ Hne).
    now apply Replace_go_no_brace.
  - intros pre post Hf Hpre Hpost. rewrite Hf.
    replace (nonempty (pre ++ placeholder ++ post)) with true
      by (now destruct pre).
    unfold strings_ReplaceAll. fold placeholder.
    rewrite Replace_go_placeholder by exact Hpre.
    now rewrite Replace_go_no_brace.
Qed.

Lemma appVersion_of_secondary (version : str) (cfg : Config) (v : str) :
  secondary_version version cfg v -> appVersion_of version cfg = v.
Proof.
  destruct (appVersion_of_format version cfg) as [Hoff Hon].
  intros [Hu|Hu Hf|Hu Hne Hn|pre post Hu Hf Hpre Hpost].
  - now apply Hoff.
  - now apply (Hon Hu).
  - now apply (Hon Hu).
  - now apply (Hon Hu).
Qed.

(** X21: in a real run with the chart update enabled, on a well-formed
    manifest with a version line, the first thing [executePrePublish] does
    after parsing the manifest is to patch it: the file is read again and
    written with the release version on its version lines and, as the
    secondary version, the one the configuration stands for, an ASCII
    text; every subprocess comes after. *)
Theorem executePrePublish_updates_first (version : str) (cfg : Config)
        (chart : Chart) (text : str) (w : World) :
  DryRun cfg = false ->
  UpdateChart (Version_ cfg) = true ->
  let chartFile := filepath_Join E (chartPath_of cfg) (lit "Chart.yaml") in
  let info := EvLog (lit "Updating version in Chart.yaml") in
  let w2 := record info (record (EvReadFile chartFile) w) in
  let new :=
    strings.Join (patched_lines version (appVersion_of version cfg) (lines text))
                 [NL] in
  os_error E w (EvReadFile chartFile) = None ->
  os_error E w2 (EvReadFile chartFile) = None ->
  os_error E (record (EvReadFile chartFile) w2) (EvWriteFile chartFile new)
  = None ->
  files w chartFile = Some text ->
  yaml_Unmarshal E text = (chart, None) ->
  well_formed_lines (lines text) ->
  has_version_line (lines text) = true ->
  plain_version version ->
  ~ In "$"%char (appVersion_of version cfg) ->
  ascii_text (appVersion_of version cfg) ->
  exists rest,
    effects (executePrePublish E version cfg) w
    = [EvReadFile chartFile; info; EvReadFile chartFile;
       EvWriteFile chartFile new] ++ rest.
Proof.
  intros Hd HU chartFile info w2 new Hos Hos2 Hwrite Hfile Hyaml Hwf Hhas Hplain
         Had _.
  now apply (executePrePublish_update_run version cfg chart text w).
Qed.

(** X22: what a real run of [executePrePublish] writes as the secondary
    version.  With the chart update enabled, on a well-formed manifest
    with a version line, the manifest the hook writes has the release
    version on its version lines and, on its [appVersion] line, the
    secondary version of the configuration: the release version when no
    format is set, the format with the release version in the place of
    [{{.Version}}], the format itself when it has no opening brace (so
    that every release gets the same one); with the update of the
    secondary version off no [appVersion] line is written or changed. *)
Theorem executePrePublish_secondary_version (version : str) (cfg : Config)
        (chart : Chart) (text v : str) (w : World) :
  DryRun cfg = false ->
  UpdateChart (Version_ cfg) = true ->
  secondary_version version cfg v ->
  let chartFile := filepath_Join E (chartPath_of cfg) (lit "Chart.yaml") in
  let info := EvLog (lit "Updating version in Chart.yaml") in
  let w2 := record info (record (EvReadFile chartFile) w) in
  let new := strings.Join (patched_lines version v (lines text)) [NL] in
  os_error E w (EvReadFile chartFile) = None ->
  os_error E w2 (EvReadFile chartFile) = None ->
  os_error E (record (EvReadFile chartFile) w2) (EvWriteFile chartFile new)
  = None ->
  files w chartFile = Some text ->
  yaml_Unmarshal E text = (chart, None) ->
  well_formed_lines (lines text) ->
  has_version_line (lines text) = true ->
  plain_version version ->
  ~ In "$"%char v ->
  ascii_text v ->
  (exists rest,
      effects (executePrePublish E version cfg) w
      = [EvReadFile chartFile; info; EvReadFile chartFile;
         EvWriteFile chartFile new] ++ rest) /\
  (v = [] -> new = strings.Join (map (set_version version) (lines text)) [NL]).
Proof.
  intros Hd HU Hsv chartFile info w2 new Hos Hos2 Hwrite Hfile Hyaml Hwf Hhas
         Hplain Had _.
  pose proof (appVersion_of_secondary version cfg v Hsv) as Hv.
  split.
  - pose proof (executePrePublish_update_run version cfg chart text w Hd HU)
      as Hrun.
    cbv zeta in Hrun. rewrite Hv in Hrun. now apply Hrun.
  - intros ->. reflexivity.
Qed.

End UpdateStep.

(** ** The further properties at concrete inputs *)

Lemma UpdateChartVersion_only_manifest_witness :
  files (snd (UpdateChartVersion demoEnv (lit "charts/app") (lit "2.0.0") []
                                 packageWorld))
        (lit "/tmp/chart-1.0.0.tgz")
  = Some (lit "test").
Proof.
  destruct (UpdateChartVersion_only_manifest
              demoEnv (lit "charts/app") (lit "2.0.0") [] packageWorld)
    as [H _].
  rewrite (H (lit "/tmp/chart-1.0.0.tgz")); [reflexivity|].
  vm_compute. discriminate.
Defined.

Lemma Package_one_subprocess_witness :
  effects (Package okEnv (NewHelmCLI (lit "charts/app")) (lit ".helm-packages")
                   (Some (mkSignOptions [] (lit "release-key") [])))
          packageWorld
  = [EvExec (mkCmd helm
                   [lit "package"; lit "charts/app"; lit "-d";
                    lit ".helm-packages"; lit "--sign"; lit "--key";
                    lit "release-key"]
                   None)].
Proof.
  destruct (Package_one_subprocess
              okEnv (NewHelmCLI (lit "charts/app")) (lit ".helm-packages")
              (Some (mkSignOptions [] (lit "release-key") [])) packageWorld)
    as [H _].
  exact H.
Defined.

Lemma Push_effects_by_type_witness :
  files (snd (Push okEnv (repoOf "chartmuseum" "http://127.0.0.1:8080" "" "")
                   (lit "/tmp/chart-1.0.0.tgz") packageWorld))
  = files packageWorld.
Proof.
  destruct (Push_effects_by_type
              okEnv (repoOf "chartmuseum" "http://127.0.0.1:8080" "" "")
              (lit "/tmp/chart-1.0.0.tgz") packageWorld)
    as [_ H].
  destruct (H ltac:(vm_compute; discriminate)) as (_ & _ & Hfiles).
  exact Hfiles.
Defined.

Lemma pushChartMuseum_request_witness :
  effects (Push okEnv
                (SetContextPath
                   (lit "v1")
                   (repoOf "chartmuseum" "http://127.0.0.1:8080" "bot" "s3cret"))
                (lit "/tmp/chart-1.0.0.tgz")) packageWorld
  = [EvOpen (lit "/tmp/chart-1.0.0.tgz");
     EvHTTP 60 (mkRequest (lit "POST") (lit "http://127.0.0.1:8080/v1/api/charts")
                          (lit "application/gzip") 0
                          (Some (lit "bot", lit "s3cret")) (lit "test"))].
Proof.
  destruct (pushChartMuseum_request
              okEnv
              (SetContextPath
                 (lit "v1")
                 (repoOf "chartmuseum" "http://127.0.0.1:8080" "bot" "s3cret"))
              (lit "/tmp/chart-1.0.0.tgz") (lit "test") packageWorld
              eq_refl eq_refl eq_refl eq_refl)
    as [H _].
  exact H.
Defined.

Lemma Push_open_failure_witness :
  Push demoEnv (repoOf "http" "http://example.com/c.tgz" "" "")
       (lit "/nonexistent/path.tgz") packageWorld
  = (Some (lit "failed to open package: open /nonexistent/path.tgz: no such file or directory"),
     record (EvOpen (lit "/nonexistent/path.tgz")) packageWorld).
Proof.
  destruct (Push_open_failure
              demoEnv (repoOf "http" "http://example.com/c.tgz" "" "")
              (lit "/nonexistent/path.tgz") packageWorld
              (or_intror eq_refl) (or_intror eq_refl))
    as (e & _ & Hrun & He).
  rewrite Hrun, (He eq_refl). reflexivity.
Defined.

Lemma Logout_host_witness :
  host_of (lit "oci://ghcr.io/org/charts") (lit "ghcr.io") /\
  effects (Logout okEnv (repoOf "oci" "oci://ghcr.io/org/charts" "bot" "s3cret"))
          packageWorld
  = [EvExec (mkCmd (lit "helm") [lit "registry"; lit "logout"; lit "ghcr.io"]
                   None)].
Proof.
  destruct (Logout_host
              okEnv (repoOf "oci" "oci://ghcr.io/org/charts" "bot" "s3cret")
              packageWorld)
    as [_ H].
  destruct (H eq_refl) as (host & Hhost & Heff & _).
  assert (Hh : host = lit "ghcr.io")
    by (vm_compute in Heff |- *; congruence).
  rewrite Hh in Hhost, Heff. split; [exact Hhost|exact Heff].
Defined.

Lemma Execute_dry_run_witness :
  Forall (fun e => observes e = true)
         (effects (Execute okEnv mapParser dryRunRequest)
                  (oneFile (lit "./Chart.yaml") manifest_demo)) /\
  files (snd (Execute okEnv mapParser dryRunRequest
                      (oneFile (lit "./Chart.yaml") manifest_demo)))
  = files (oneFile (lit "./Chart.yaml") manifest_demo).
Proof.
  exact (Execute_dry_run okEnv mapParser dryRunRequest
                         (oneFile (lit "./Chart.yaml") manifest_demo)
                         (or_intror eq_refl)).
Defined.

Lemma executePrePublish_commands_witness :
  execs (effects (executePrePublish okEnv (lit "2.0.0") realConfig)
                 (oneFile chartFile_demo manifest_demo))
  = map EvExec
        [dependencyCmd (lit "update") (lit "charts/app");
         dependencyCmd (lit "build") (lit "charts/app");
         lintCmd (lit "charts/app") true;
         templateCmd (lit "charts/app") (lit "1.29") [lit "batch/v1"]].
Proof.
  exact (executePrePublish_commands
           okEnv (lit "2.0.0") realConfig (oneFile chartFile_demo manifest_demo)
           eq_refl ltac:(vm_compute; reflexivity)).
Defined.

Lemma executePrePublish_no_version_field_witness :
  fst (executePrePublish demoEnv (lit "2.0.0") realConfig
                         (oneFile chartFile_demo manifest_nokey_demo))
  = (mkExecuteResponse
       false
       (lit "Failed to update Chart.yaml version: version field not found in Chart.yaml"),
     None).
Proof.
  destruct (executePrePublish_no_version_field
              demoEnv (lit "2.0.0") realConfig demoChart manifest_nokey_demo
              (oneFile chartFile_demo manifest_nokey_demo)
              eq_refl eq_refl eq_refl eq_refl eq_refl eq_refl
              ltac:(intros l Hl; vm_compute in Hl;
                    repeat (destruct Hl as [Hl|Hl]; [subst l; reflexivity|]);
                    destruct Hl))
    as [H _].
  exact H.
Defined.

Lemma executePostPublish_real_run_witness :
  fst (executePostPublish okEnv (lit "2.0.0") realConfig
                          (oneFile chartFile_demo manifest_demo))
  = (mkExecuteResponse
       true (lit "Published my-chart@2.0.0 to oci://ghcr.io/org/charts"),
     None).
Proof.
  destruct (executePostPublish_real_run
              okEnv (lit "2.0.0") realConfig demoChart manifest_demo
              (oneFile chartFile_demo manifest_demo)
              eq_refl eq_refl eq_refl eq_refl eq_refl)
    as (_ & _ & H).
  rewrite (H ltac:(vm_compute; reflexivity) ltac:(vm_compute; reflexivity)).
  reflexivity.
Defined.

Lemma executePostPublish_mkdir_failure_witness :
  fst (executePostPublish readOnlyEnv (lit "2.0.0") realConfig
                          (oneFile chartFile_demo manifest_demo))
  = (mkExecuteResponse
       false (lit "Failed to create output directory: read-only file system"),
     None).
Proof.
  destruct (executePostPublish_mkdir_failure
              readOnlyEnv (lit "2.0.0") realConfig demoChart manifest_demo
              (lit "read-only file system")
              (oneFile chartFile_demo manifest_demo)
              eq_refl eq_refl eq_refl eq_refl eq_refl)
    as [H _].
  rewrite H. reflexivity.
Defined.

Lemma executePrePublish_updates_first_witness :
  exists rest,
    effects (executePrePublish okEnv (lit "2.0.0") formatConfig)
            (oneFile chartFile_demo manifest_demo)
    = [EvReadFile chartFile_demo;
       EvLog (lit "Updating version in Chart.yaml");
       EvReadFile chartFile_demo;
       EvWriteFile
         chartFile_demo
         (text_of ["apiVersion: v2"; "name: my-chart"; "# This is the version";
                   "version: 2.0.0"]%string
          ++ lit "appVersion: " ++ [DQ] ++ lit "v2.0.0" ++ [DQ; NL]
          ++ text_of ["description: Test chart"]%string)] ++ rest.
Proof.
  destruct (executePrePublish_updates_first
              okEnv (lit "2.0.0") formatConfig demoChart manifest_demo
              (oneFile chartFile_demo manifest_demo)
              eq_refl eq_refl eq_refl eq_refl eq_refl eq_refl eq_refl
              ltac:(well_formed_tac) eq_refl plain_version_demo
              ltac:(intros H; vm_compute in H; intuition discriminate)
              ltac:(vm_compute appVersion_of; ascii_tac))
    as [rest H].
  exists rest. rewrite H. vm_compute. reflexivity.
Defined.

Lemma executePrePublish_secondary_version_witness :
  exists rest,
    effects (executePrePublish okEnv (lit "2.0.0") formatConfig)
            (oneFile chartFile_demo manifest_app_demo)
    = [EvReadFile chartFile_demo;
       EvLog (lit "Updating version in Chart.yaml");
       EvReadFile chartFile_demo;
       EvWriteFile
         chartFile_demo
         (text_of ["apiVersion: v2"; "name: my-chart"; "version: 2.0.0"]%string
          ++ lit "appVersion: " ++ [DQ] ++ lit "v2.0.0" ++ [DQ; NL]
          ++ text_of ["description: Test chart"]%string)] ++ rest.
Proof.
  destruct (executePrePublish_secondary_version
              okEnv (lit "2.0.0") formatConfig demoChart manifest_app_demo
              (lit "v2.0.0") (oneFile chartFile_demo manifest_app_demo)
              eq_refl eq_refl
              (sv_format (lit "2.0.0") formatConfig (lit "v") [] eq_refl eq_refl
                         ltac:(intros H; not_in_literal H)
                         ltac:(intros H; exact H))
              eq_refl eq_refl eq_refl eq_refl eq_refl
              ltac:(well_formed_tac) eq_refl plain_version_demo
              ltac:(intros H; not_in_literal H)
              ltac:(ascii_tac))
    as [[rest H] _].
  exists rest. rewrite H. vm_compute. reflexivity.
Defined.
